(** * rocketwatch: the RocketPool event cog ([plugins/rocketpool.py])

    A shallow embedding of the Discord cog that polls Rocket Pool contract
    event filters, deduplicates the entries by transaction hash, builds an
    embed per event, and sends the embeds in score order.

    Modelling conventions.
    - A Python [dict] is an insertion-ordered association list with unique
      keys ([PyDict]); [d[k] = v] updates in place or appends.
    - A Python exception is a value of [exn]; code that can raise lives in
      the monad [M S], which keeps the state reached when the exception was
      raised (in-place mutations are not rolled back).
    - A Python [float] is an IEEE-754 binary64 number, kept as its exact
      value (a rational in reduced form).  Every float operation rounds its
      exact result to the nearest binary64 number, ties to the even
      significand ([binary64]); subnormal results are rounded as binary64
      does.  Results of magnitude 2^1024 and above, where Python raises
      [OverflowError] or yields [inf], are not modelled: block numbers,
      transaction indices and token amounts are far below.
    - Everything the cog does not own (the chain node, ENS, the template
      catalogue, Discord, the file system) is an oracle in the record
      [Env]; one [Env] describes how the outside behaves during one tick.
    - [log.debug] and [print] are not modelled; [log.exception] and the
      Discord sends are recorded in a trace. *)

From Stdlib Require Import ZArith QArith Qreduction Qround Qabs Qpower.
From Stdlib Require Import List String Ascii Bool Lia Lqa.
From Stdlib Require Import DecimalString Sorted Permutation.
Import ListNotations.

Local Close Scope Q_scope.
Local Open Scope string_scope.
Local Open Scope list_scope.

(* ================================================================== *)
(** ** Python strings *)

Module PyStr.

  (** [c.lower()] on an ASCII code point. *)
Definition lower_ascii (c : ascii) : ascii :=
    let n := nat_of_ascii c in
    if andb (Nat.leb 65 n) (Nat.leb n 90) then ascii_of_nat (n + 32) else c.

  (** [s.lower()] *)
Fixpoint lower (s : string) : string :=
    match s with
    | EmptyString => EmptyString
    | String c s' => String (lower_ascii c) (lower s')
    end.

  (** [s.startswith(p)] *)
Fixpoint startswith (p s : string) : bool :=
    match p, s with
    | EmptyString, _ => true
    | String a p', String b s' => if Ascii.eqb a b then startswith p' s' else false
    | String _ _, EmptyString => false
    end.

  (** [p in s] (substring test) *)
Fixpoint contains (p s : string) : bool :=
    startswith p s ||
    match s with
    | EmptyString => false
    | String _ s' => contains p s'
    end.

  (** [any(keyword in s for keyword in kws)] *)
Definition any_in (kws : list string) (s : string) : bool :=
    existsb (fun kw => contains kw s) kws.

End PyStr.

(* ================================================================== *)
(** ** Python dicts with string keys *)

Module PyDict.
  Section Dict.
    Context {V : Type}.

Definition dict := list (string * V).

    (** [d.get(k)] *)
Fixpoint get (k : string) (d : dict) : option V :=
      match d with
      | [] => None
      | (k', v) :: d' => if String.eqb k k' then Some v else get k d'
      end.

    (** [k in d] *)
Definition mem (k : string) (d : dict) : bool :=
      match get k d with Some _ => true | None => false end.

    (** [d[k] = v]: an existing key keeps its position, a new key goes last. *)
Fixpoint set (k : string) (v : V) (d : dict) : dict :=
      match d with
      | [] => [(k, v)]
      | (k', v') :: d' =>
          if String.eqb k k' then (k', v) :: d' else (k', v') :: set k v d'
      end.

    (** [dict(items)] *)
Definition of_items (items : list (string * V)) : dict :=
      fold_left (fun d kv => set (fst kv) (snd kv) d) items [].

    (** [list(d.items())] *)
Definition items (d : dict) : list (string * V) := d.

Definition keys (d : dict) : list string := map fst d.

  End Dict.
  Arguments dict V : clear implicits.
End PyDict.

Abbreviation dict := PyDict.dict.

(* ================================================================== *)
(** ** Exceptions and the state-and-exception monad *)

Inductive exn : Type :=
| KeyError (key : string)
| TypeError
| ExternalError (what : string).

Inductive result (A : Type) : Type :=
| Ok (a : A)
| Raise (e : exn).
Arguments Ok {A} a.
Arguments Raise {A} e.

Definition M (S A : Type) : Type := S -> result A * S.

Definition ret {S A} (a : A) : M S A := fun s => (Ok a, s).
Definition raise {S A} (e : exn) : M S A := fun s => (Raise e, s).
Definition bind {S A B} (m : M S A) (k : A -> M S B) : M S B :=
  fun s => match m s with
           | (Ok a, s') => k a s'
           | (Raise e, s') => (Raise e, s')
           end.
Definition lift {S A} (r : result A) : M S A := fun s => (r, s).
Definition get_state {S} : M S S := fun s => (Ok s, s).
Definition modify {S} (f : S -> S) : M S unit := fun s => (Ok tt, f s).

Definition rbind {A B} (r : result A) (k : A -> result B) : result B :=
  match r with
  | Ok a => k a
  | Raise e => Raise e
  end.

Declare Scope py_scope.
Delimit Scope py_scope with py.
Notation "x <- m ;; k" := (bind m (fun x => k))
  (at level 61, m at next level, right associativity) : py_scope.
Notation "m ;; k" := (bind m (fun _ => k))
  (at level 61, right associativity) : py_scope.
Notation "'let?' x := r 'in' k" := (rbind r (fun x => k))
  (at level 61, x name, r at next level, right associativity) : py_scope.

Definition getitem {V} (k : string) (d : dict V) : result V :=
  match PyDict.get k d with
  | Some v => Ok v
  | None => Raise (KeyError k)
  end.

(* ================================================================== *)
(** ** Data *)

(** Python objects that occur as event arguments and template arguments.
    [VOther] is any object that is neither a number nor a [str] (bytes,
    lists, ...); it carries its [str()]. *)
Inductive value : Type :=
| VInt (n : Z)
| VBool (b : bool)
| VStr (s : string)
| VFloat (q : Q)
| VOther (repr : string).

(** An entry returned by a web3 event filter.  [transactionHash] is kept as
    its hex string, so [.hex()] is the identity. *)
Module Event.
Record t : Type := {
    address : string;
    event : string;
    args : dict value;
    blockNumber : Z;
    transactionIndex : Z;
    transactionHash : string
  }.
End Event.

Record field : Type := {
  field_name : string;
  field_value : string;
  field_inline : bool
}.

(** [discord.Embed] *)
Module Embed.
Record t : Type := {
    color : Z * Z * Z;
    footer : string * string;
    title : string;
    description : string;
    fields : list field
  }.
End Embed.

(** [add_field] defaults to [inline=True]. *)
Definition add_field (name value : string) (inline : bool) (e : Embed.t) : Embed.t :=
  {| Embed.color := Embed.color e;
     Embed.footer := Embed.footer e;
     Embed.title := Embed.title e;
     Embed.description := Embed.description e;
     Embed.fields := Embed.fields e ++ [ {| field_name := name; field_value := value; field_inline := inline |} ] |}.

Definition set_title (s : string) (e : Embed.t) : Embed.t :=
  {| Embed.color := Embed.color e;
     Embed.footer := Embed.footer e;
     Embed.title := s;
     Embed.description := Embed.description e;
     Embed.fields := Embed.fields e |}.

Definition set_description (s : string) (e : Embed.t) : Embed.t :=
  {| Embed.color := Embed.color e;
     Embed.footer := Embed.footer e;
     Embed.title := Embed.title e;
     Embed.description := s;
     Embed.fields := Embed.fields e |}.

(** A web3 contract handle: its address and the ABI text it was built from. *)
Record contract : Type := {
  contract_address : string;
  contract_abi : string
}.

(** An event filter handle created by [createFilter]. *)
Record event_filter : Type := {
  filter_address : string;
  filter_event : string
}.

(** [data/rocketpool.json]: the storage contract and, per source contract
    name, the dict from event type name to display name. *)
Record config : Type := {
  storage_name : string;
  storage_address : string;
  sources : dict (dict string)
}.

(** The entries of the [messages] list of [check_for_new_events]. *)
Record message : Type := {
  score : Q;
  embed : Embed.t;
  event_name : string
}.

(** The outside world during one tick. *)
Record Env : Type := {
  (* process environment, helpers imported from modules outside the cog *)
  getenv : string -> string;
  short_hex : value -> string;
  translate : string -> dict value -> result string;      (* strings._ *)
  float_repr : Q -> string;                               (* str() of a float *)
  barh : Z -> Z -> string;                                (* termplotlib *)
  (* web3 / ENS *)
  connect : result unit;
  isAddress : value -> bool;
  ens_name : value -> result (option string);
  getAddress : contract -> string -> result string;       (* storage lookup by name *)
  getMinipoolPubkey : contract -> value -> result value;
  getMessage : contract -> value -> result value;
  getVotesFor : contract -> value -> result Z;
  getVotesAgainst : contract -> value -> result Z;
  getMemberID : contract -> value -> result string;
  createFilter : contract -> string -> result unit;
  get_new_entries : nat -> result (list Event.t);         (* by position in self.events *)
  (* files *)
  load_config : result config;
  read_abi : string -> result string;
  (* discord *)
  fetch_channel : string -> result string;
  send : string -> Embed.t -> result unit
}.

(** The attributes of the cog that the methods read or write. *)
Module RocketPool.
Record t : Type := {
    loaded : bool;
    tnx_cache : list string;
    contracts : dict contract;
    events : list event_filter;
    mapping : dict (dict string);
    storage_contract : contract
  }.
End RocketPool.

(** Observable effects. [Send] records an attempted [channel.send]. *)
Inductive action : Type :=
| Send (channel : string) (e : Embed.t)
| LogException (err : exn).

Record world : Type := {
  cog : RocketPool.t;
  trace : list action
}.

(* ================================================================== *)
(** ** Python operators on values *)

Definition str_int (n : Z) : string :=
  DecimalString.NilZero.string_of_int (Z.to_int n).

(** *** Floats *)

(** The integer nearest to [q]; of two nearest integers, the even one. *)
Definition round_half_even (q : Q) : Z :=
  let f := Qfloor q in
  match (q - inject_Z f ?= 1 # 2)%Q with
  | Lt => f
  | Gt => (f + 1)%Z
  | Eq => if Z.even f then f else (f + 1)%Z
  end.

(** [floor (log2 |q|)] for [q <> 0]: the binary exponent of [q]. *)
Definition ilog2 (q : Q) : Z :=
  let k := (Z.log2 (Z.abs (Qnum q)) - Z.log2 (Zpos (Qden q)))%Z in
  if Qle_bool (2 ^ k) (Qabs q) then k else (k - 1)%Z.

(** The binary64 number nearest to [q]: a multiple of the unit in the last
    place of a 53-bit significand, and of [2^-1074] in the subnormal
    range. *)
Definition binary64 (q : Q) : Q :=
  if Qeq_bool q 0 then 0%Q
  else
    let ulp := (2 ^ Z.max (ilog2 q - 52) (-1074))%Q in
    Qred (inject_Z (round_half_even (q / ulp)) * ulp).

(** [float(n)]: how an int operand enters a float operation. *)
Definition float_of_int (n : Z) : Q := binary64 (inject_Z n).

(** [x + y] and [x / y] on floats. *)
Definition float_add (x y : Q) : Q := binary64 (x + y).
Definition float_div (x y : Q) : Q := binary64 (x / y).

(** [a / b] on ints: the float nearest to the exact quotient. *)
Definition true_div (a b : Z) : Q := binary64 (inject_Z a / inject_Z b).

Definition E18 : Z := 10 ^ 18.

(** [v / 10 ** 18].  [bool] is a subclass of [int]; strings and other
    objects do not support [/]. *)
Definition div_e18 (v : value) : result value :=
  match v with
  | VInt n => Ok (VFloat (true_div n E18))
  | VBool b => Ok (VFloat (true_div (if b then 1 else 0) E18))
  | VFloat q => Ok (VFloat (float_div q (float_of_int E18)))
  | VStr _ | VOther _ => Raise TypeError
  end.

(** Truth value of an object, as tested by [if v]. *)
Definition truthy (v : value) : bool :=
  match v with
  | VInt n => negb (Z.eqb n 0)
  | VBool b => b
  | VStr s => negb (String.eqb s "")
  | VFloat q => negb (Qeq_bool q 0)
  | VOther _ => true
  end.

Definition bool_of_ostring (o : option string) : bool :=
  match o with
  | Some s => negb (String.eqb s "")
  | None => false
  end.

Section Cog.

  Variable W : Env.

  (** [str(v)], also what an f-string substitutes for [{v}]. *)
Definition py_str (v : value) : string :=
    match v with
    | VInt n => str_int n
    | VBool b => if b then "True" else "False"
    | VStr s => s
    | VFloat q => float_repr W q
    | VOther r => r
    end.

  (* ---------------------------------------------------------------- *)
  (** *** Secondary contract calls *)

Definition get_address_from_storage_contract
      (self : RocketPool.t) (name : string) : result string :=
    getAddress W (RocketPool.storage_contract self) name.

Definition get_pubkey_from_minipool
      (self : RocketPool.t) (event : Event.t) : result value :=
    (let? contract := getitem (Event.address event) (RocketPool.contracts self) in
     let? minipool := getitem "minipool" (Event.args event) in
     getMinipoolPubkey W contract minipool)%py.

  (** The dict [{"message", "votesFor", "votesAgainst"}], as a triple. *)
Definition get_proposal_info
      (self : RocketPool.t) (event : Event.t) : result (value * Z * Z) :=
    (let? contract := getitem (Event.address event) (RocketPool.contracts self) in
     let? proposalID := getitem "proposalID" (Event.args event) in
     let? message := getMessage W contract proposalID in
     let? votesFor := getVotesFor W contract proposalID in
     let? votesAgainst := getVotesAgainst W contract proposalID in
     Ok (message, votesFor / E18, votesAgainst / E18)%Z)%py.

Definition get_dao_member_name
      (self : RocketPool.t) (member_address : value) : result string :=
    (let? address := get_address_from_storage_contract self "rocketDAONodeTrusted" in
     let? abi := read_abi W "./contracts/rocketDAONodeTrusted.abi" in
     getMemberID W {| contract_address := address; contract_abi := abi |} member_address)%py.

  (* ---------------------------------------------------------------- *)
  (** *** [create_embed] *)

Definition etherscan_search (name : string) (v : value) : string :=
    "[" ++ name ++ "](https://goerli.etherscan.io/search?q=" ++ py_str v ++ ")".

  (** Body of the loop over [list(args.items())] (lines 104-114).
      [arg_value] is the value of the snapshot, also after [args[arg_key]]
      has been rescaled. *)
Definition enrich_item (args : dict value) (item : string * value)
      : result (dict value) :=
    let (arg_key, arg_value) := item in
    (let? args :=
       if PyStr.any_in ["amount"; "value"] (PyStr.lower arg_key)
       then (let? scaled := div_e18 arg_value in
             Ok (PyDict.set arg_key scaled args))
       else Ok args in
     if PyStr.startswith "0x" (py_str arg_value)
     then
       let? name :=
         if isAddress W arg_value then ens_name W arg_value else Ok (Some "") in
       let name :=
         if bool_of_ostring name
         then match name with Some s => s | None => "" end
         else short_hex W arg_value in
       Ok (PyDict.set (arg_key ++ "_fancy") (VStr (etherscan_search name arg_value)) args)
     else Ok args)%py.

Fixpoint enrich_items (items : list (string * value)) (args : dict value)
      : result (dict value) :=
    match items with
    | [] => Ok args
    | item :: rest =>
        (let? args := enrich_item args item in enrich_items rest args)%py
    end.

Definition odao_keys : list string :=
    ["nodeAddress"; "canceller"; "executer"; "proposer"; "voter"].

  (** Lines 78-125: the embed with its optional validator field, and the
      argument dict handed to the description template. *)
Definition prepare_args (self : RocketPool.t) (event_name : string) (event : Event.t)
      : result (Embed.t * dict value) :=
    let embed :=
      {| Embed.color := (235, 142, 85)%Z;
         Embed.footer := (getenv W "CREDITS", getenv W "CREDITS_ICON");
         Embed.title := "";
         Embed.description := "";
         Embed.fields := [] |} in
    let args := PyDict.of_items (Event.args event) in
    (let? embed :=
       if PyStr.contains "minipool" event_name
       then (let? pubkey := get_pubkey_from_minipool self event in
             Ok (add_field "validator"
                   ("[" ++ short_hex W pubkey ++ "](https://prater.beaconcha.in/validator/"
                        ++ py_str pubkey ++ ")")
                   false embed))
       else Ok embed in
     let? args :=
       if PyStr.contains "proposal" event_name
       then (let? data := get_proposal_info self event in
             let '(message, votesFor, votesAgainst) := data in
             let args := PyDict.set "message" message args in
             Ok (PyDict.set "vote_graph" (VStr (barh W votesFor votesAgainst)) args))
       else Ok args in
     let args :=
       match PyDict.get "supported" args with
       | Some supported =>
           PyDict.set "decision" (VStr (if truthy supported then "for" else "against")) args
       | None => args
       end in
     let? args := enrich_items (PyDict.items args) args in
     let? args :=
       if PyStr.contains "odao" event_name
       then
         match filter (fun key => PyDict.mem key args) odao_keys with
         | key :: _ =>
             let? member := getitem key args in
             let? name := get_dao_member_name self member in
             if negb (String.eqb name "")
             then Ok (PyDict.set "member_fancy" (VStr (etherscan_search name member)) args)
             else (let? fancy := getitem (key ++ "_fancy") args in
                   Ok (PyDict.set "member_fancy" fancy args))
         | [] => Ok args
         end
       else Ok args in
     Ok (embed, args))%py.

Definition create_embed (self : RocketPool.t) (event_name : string) (event : Event.t)
      : result Embed.t :=
    (let? p := prepare_args self event_name event in
     let (embed, args) := p in
     let? title := translate W ("rocketpool." ++ event_name ++ ".title") [] in
     let embed := set_title title embed in
     let? description := translate W ("rocketpool." ++ event_name ++ ".description") args in
     let embed := set_description description embed in
     let tnx_hash := Event.transactionHash event in
     let embed :=
       add_field "Transaction Hash"
         ("[" ++ short_hex W (VStr tnx_hash) ++ "](https://goerli.etherscan.io/tx/" ++ tnx_hash ++ ")")
         true embed in
     let? embed :=
       if PyDict.mem "from" args
       then (let? from_fancy := getitem "from_fancy" args in
             Ok (add_field "Sender Address" (py_str from_fancy) true embed))
       else Ok embed in
     let block := str_int (Event.blockNumber event) in
     Ok (add_field "Block Number"
           ("[" ++ block ++ "](https://goerli.etherscan.io/block/" ++ block ++ ")")
           true embed))%py.

End Cog.

(* ================================================================== *)
(** ** Attribute assignment on the cog, effects on the world *)

Definition set_loaded (b : bool) (self : RocketPool.t) : RocketPool.t :=
  {| RocketPool.loaded := b;
     RocketPool.tnx_cache := RocketPool.tnx_cache self;
     RocketPool.contracts := RocketPool.contracts self;
     RocketPool.events := RocketPool.events self;
     RocketPool.mapping := RocketPool.mapping self;
     RocketPool.storage_contract := RocketPool.storage_contract self |}.

Definition set_tnx_cache (c : list string) (self : RocketPool.t) : RocketPool.t :=
  {| RocketPool.loaded := RocketPool.loaded self;
     RocketPool.tnx_cache := c;
     RocketPool.contracts := RocketPool.contracts self;
     RocketPool.events := RocketPool.events self;
     RocketPool.mapping := RocketPool.mapping self;
     RocketPool.storage_contract := RocketPool.storage_contract self |}.

Definition set_contracts (c : dict contract) (self : RocketPool.t) : RocketPool.t :=
  {| RocketPool.loaded := RocketPool.loaded self;
     RocketPool.tnx_cache := RocketPool.tnx_cache self;
     RocketPool.contracts := c;
     RocketPool.events := RocketPool.events self;
     RocketPool.mapping := RocketPool.mapping self;
     RocketPool.storage_contract := RocketPool.storage_contract self |}.

Definition set_events (l : list event_filter) (self : RocketPool.t) : RocketPool.t :=
  {| RocketPool.loaded := RocketPool.loaded self;
     RocketPool.tnx_cache := RocketPool.tnx_cache self;
     RocketPool.contracts := RocketPool.contracts self;
     RocketPool.events := l;
     RocketPool.mapping := RocketPool.mapping self;
     RocketPool.storage_contract := RocketPool.storage_contract self |}.

Definition set_mapping (m : dict (dict string)) (self : RocketPool.t) : RocketPool.t :=
  {| RocketPool.loaded := RocketPool.loaded self;
     RocketPool.tnx_cache := RocketPool.tnx_cache self;
     RocketPool.contracts := RocketPool.contracts self;
     RocketPool.events := RocketPool.events self;
     RocketPool.mapping := m;
     RocketPool.storage_contract := RocketPool.storage_contract self |}.

Definition set_storage_contract (c : contract) (self : RocketPool.t) : RocketPool.t :=
  {| RocketPool.loaded := RocketPool.loaded self;
     RocketPool.tnx_cache := RocketPool.tnx_cache self;
     RocketPool.contracts := RocketPool.contracts self;
     RocketPool.events := RocketPool.events self;
     RocketPool.mapping := RocketPool.mapping self;
     RocketPool.storage_contract := c |}.

(** Apply an attribute assignment to [self]. *)
Definition on_self (f : RocketPool.t -> RocketPool.t) : M world unit :=
  modify (fun w => {| cog := f (cog w); trace := trace w |}).

Definition self_ : M world RocketPool.t := fun w => (Ok (cog w), w).

Definition emit (a : action) : M world unit :=
  modify (fun w => {| cog := cog w; trace := trace w ++ [a] |}).

(* ================================================================== *)
(** ** Sorting and slicing *)

(** [h in cache] *)
Definition in_cache (h : string) (cache : list string) : bool :=
  existsb (String.eqb h) cache.

(** [l[-n:]] *)
Definition last_n {A} (n : nat) (l : list A) : list A :=
  skipn (List.length l - n) l.

(** [a < b] on floats. *)
Definition Qltb (a b : Q) : bool := negb (Qle_bool b a).

(** [sorted(messages, key=lambda a: a["score"], reverse=False)].  Python's
    sort is stable and compares keys with [<]; on keys that are totally
    ordered every stable sort returns the same list, here computed by
    insertion. *)
Fixpoint insert_by_score (m : message) (l : list message) : list message :=
  match l with
  | [] => [m]
  | x :: l' =>
      if Qltb (score x) (score m) then x :: insert_by_score m l' else m :: x :: l'
  end.

Fixpoint sorted_by_score (l : list message) : list message :=
  match l with
  | [] => []
  | m :: l' => insert_by_score m (sorted_by_score l')
  end.

(** [event["blockNumber"] + (event["transactionIndex"] / 1000)] *)
Definition event_score (event : Event.t) : Q :=
  float_add (float_of_int (Event.blockNumber event))
            (true_div (Event.transactionIndex event) 1000).

(* ================================================================== *)
(** ** The cog's loop *)

Section Loop.

  Variable W : Env.

  Local Open Scope py_scope.

  (** Lines 166-188: the body of the inner loop, for one entry. *)
Definition handle_event (event : Event.t) (messages : list message)
      : M world (list message) :=
    self <- self_ ;;
    names <- lift (getitem (Event.address event) (RocketPool.mapping self)) ;;
    if PyDict.mem (Event.event event) names
    then
      let tnx_hash := Event.transactionHash event in
      if in_cache tnx_hash (RocketPool.tnx_cache self)
      then ret messages
      else
        event_name <- lift (getitem (Event.event event) names) ;;
        let score := event_score event in
        embed <- lift (create_embed W self event_name event) ;;
        let messages :=
          messages ++ [ {| score := score; embed := embed; event_name := event_name |} ] in
        on_self (fun self =>
                   set_tnx_cache (RocketPool.tnx_cache self ++ [tnx_hash]) self) ;;
        ret messages
    else ret messages.

  (** [for event in entries: ...] *)
Fixpoint for_each_entry (entries : list Event.t) (messages : list message)
      : M world (list message) :=
    match entries with
    | [] => ret messages
    | event :: rest =>
        messages <- handle_event event messages ;;
        for_each_entry rest messages
    end.

  (** Lines 164-165: [for events in self.events:
      for event in reversed(list(events.get_new_entries())): ...];
      [i] is the position of the filter in [self.events]. *)
Fixpoint for_each_filter (i : nat) (filters : list event_filter)
      (messages : list message) : M world (list message) :=
    match filters with
    | [] => ret messages
    | _ :: rest =>
        entries <- lift (get_new_entries W i) ;;
        messages <- for_each_entry (rev entries) messages ;;
        for_each_filter (S i) rest messages
    end.

  (** Lines 193-197. *)
Fixpoint send_all (default_channel odao_channel : string) (batch : list message)
      : M world unit :=
    match batch with
    | [] => ret tt
    | event :: rest =>
        let channel :=
          if PyStr.contains "odao" (event_name event)
          then odao_channel else default_channel in
        emit (Send channel (embed event)) ;;
        lift (send W channel (embed event)) ;;
        send_all default_channel odao_channel rest
    end.

Definition check_for_new_events : M world unit :=
    self <- self_ ;;
    if negb (RocketPool.loaded self) then ret tt
    else
      messages <- for_each_filter 0 (RocketPool.events self) [] ;;
      default_channel <- lift (fetch_channel W (getenv W "DEFAULT_CHANNEL")) ;;
      odao_channel <- lift (fetch_channel W (getenv W "ODAO_CHANNEL")) ;;
      send_all default_channel odao_channel (sorted_by_score messages) ;;
      on_self (fun self => set_tnx_cache (last_n 1000 (RocketPool.tnx_cache self)) self).

  (** Lines 46-48: one filter per event type of a source contract. *)
Fixpoint create_filters (address : string) (c : contract) (event_types : list string)
      : M world unit :=
    match event_types with
    | [] => ret tt
    | event :: rest =>
        lift (createFilter W c event) ;;
        on_self (fun self =>
                   set_events (RocketPool.events self
                                 ++ [ {| filter_address := address; filter_event := event |} ])
                              self) ;;
        create_filters address c rest
    end.

  (** Lines 42-49. *)
Fixpoint load_sources (srcs : list (string * dict string)) : M world unit :=
    match srcs with
    | [] => ret tt
    | (name, events) :: rest =>
        self <- self_ ;;
        address <- lift (get_address_from_storage_contract W self name) ;;
        abi <- lift (read_abi W ("./contracts/" ++ name ++ ".abi")) ;;
        let c := {| contract_address := address; contract_abi := abi |} in
        on_self (fun self =>
                   set_contracts (PyDict.set address c (RocketPool.contracts self)) self) ;;
        create_filters address c (PyDict.keys events) ;;
        on_self (fun self =>
                   set_mapping (PyDict.set address events (RocketPool.mapping self)) self) ;;
        load_sources rest
    end.

  (** [RocketPool.__init__], run on an existing object: the attributes it
      does not assign keep their value.  Starting the task loop (lines
      50-51) is not modelled. *)
Definition __init__ : M world unit :=
    on_self (set_loaded true) ;;
    on_self (set_tnx_cache []) ;;
    on_self (set_contracts []) ;;
    on_self (set_events []) ;;
    on_self (set_mapping []) ;;
    lift (connect W) ;;
    config <- lift (load_config W) ;;
    abi <- lift (read_abi W ("./contracts/" ++ storage_name config ++ ".abi")) ;;
    on_self (set_storage_contract
               {| contract_address := storage_address config; contract_abi := abi |}) ;;
    load_sources (PyDict.items (sources config)).

  (** Lines 149-153: the second [try] of [run_loop]. *)
Definition reinitialize : M world unit :=
    fun w =>
      match __init__ w with
      | (Ok r, w') => (Ok r, w')
      | (Raise err, w') =>
          (on_self (set_loaded false) ;; emit (LogException err)) w'
      end.

  (** One tick of [run_loop]. *)
Definition run_loop : M world unit :=
    fun w =>
      if RocketPool.loaded (cog w)
      then
        match check_for_new_events w with
        | (Ok r, w') => (Ok r, w')
        | (Raise err, w') =>
            (on_self (set_loaded false) ;; emit (LogException err) ;; reinitialize) w'
        end
      else reinitialize w.

End Loop.

(** State of the world after a tick in which the outside behaves as [W]. *)
Definition tick (W : Env) (w : world) : world := snd (run_loop W w).

(** Successive ticks, one environment per tick. *)
Definition ticks (Ws : list Env) (w : world) : world :=
  fold_left (fun w W => tick W w) Ws w.

(** An object before [__init__] has run on it. *)
Definition blank : RocketPool.t :=
  {| RocketPool.loaded := false;
     RocketPool.tnx_cache := [];
     RocketPool.contracts := [];
     RocketPool.events := [];
     RocketPool.mapping := [];
     RocketPool.storage_contract := {| contract_address := ""; contract_abi := "" |} |}.

(** [setup]: [RocketPool(bot)]; an exception in the constructor propagates
    and no cog exists. *)
Definition setup (W : Env) : result world :=
  match __init__ W {| cog := blank; trace := [] |} with
  | (Ok _, w) => Ok w
  | (Raise e, _) => Raise e
  end.

(* ================================================================== *)
(** ** Vocabulary of the statements *)

(** The world with [self.tnx_cache] replaced. *)
Definition with_cache (c : list string) (w : world) : world :=
  {| cog := set_tnx_cache c (cog w); trace := trace w |}.

(** [self.mapping[event['address']][event['event']]], when the event type
    is declared for the originating contract. *)
Definition display_name (self : RocketPool.t) (event : Event.t) : option string :=
  match PyDict.get (Event.address event) (RocketPool.mapping self) with
  | Some names => PyDict.get (Event.event event) names
  | None => None
  end.

(** [m] is the entry that [check_for_new_events] appends to [messages]
    for [event]. *)
Definition message_of (W : Env) (self : RocketPool.t) (event : Event.t) (m : message)
    : Prop :=
  exists name,
    display_name self event = Some name /\
    create_embed W self name event = Ok (embed m) /\
    score m = event_score event /\
    event_name m = name.

(** [event] is among the entries that the filters return in this tick. *)
Definition polled (W : Env) (self : RocketPool.t) (event : Event.t) : Prop :=
  exists i entries,
    i < List.length (RocketPool.events self) /\
    get_new_entries W i = Ok entries /\
    In event entries.

(** The channel that the dispatch loop picks for [m]. *)
Definition channel_of (default_channel odao_channel : string) (m : message) : string :=
  if PyStr.contains "odao" (event_name m) then odao_channel else default_channel.

(** The send that the dispatch loop attempts for [m]. *)
Definition route (default_channel odao_channel : string) (m : message) : action :=
  Send (channel_of default_channel odao_channel m) (embed m).

(** Delivery order: scores do not decrease. *)
Definition score_le (a b : message) : Prop := (score a <= score b)%Q.

Definition has_hash (h : string) (event : Event.t) : bool :=
  String.eqb (Event.transactionHash event) h.

(** Running a loop from [w] recorded the events [evs], all satisfying [P],
    with messages [ms], and left the world [w']. *)
Definition recorded (W : Env) (w : world) (P : Event.t -> Prop)
    (evs : list Event.t) (ms : list message) (w' : world) : Prop :=
  Forall2 (message_of W (cog w)) evs ms /\
  Forall P evs /\
  Forall (fun ev => in_cache (Event.transactionHash ev) (RocketPool.tnx_cache (cog w)) = false) evs /\
  NoDup (map Event.transactionHash evs) /\
  w' = with_cache (RocketPool.tnx_cache (cog w) ++ map Event.transactionHash evs) w.

(** [event] is returned by one of the filters at positions [i .. i+n-1]. *)
Definition polled_in (W : Env) (i n : nat) (event : Event.t) : Prop :=
  exists j entries,
    i <= j < i + n /\ get_new_entries W j = Ok entries /\ In event entries.

(** The messages of [batch] for which the dispatch loop calls [send]: up to
    and including the first one whose send raises. *)
Fixpoint attempted (W : Env) (default_channel odao_channel : string)
    (batch : list message) : list message :=
  match batch with
  | [] => []
  | m :: rest =>
      m :: match send W (if PyStr.contains "odao" (event_name m)
                         then odao_channel else default_channel) (embed m) with
           | Ok _ => attempted W default_channel odao_channel rest
           | Raise _ => []
           end
  end.

(** An item on which the loop body cannot raise. *)
Definition plain_item (W : Env) (item : string * value) : Prop :=
  (PyStr.any_in ["amount"; "value"] (PyStr.lower (fst item)) = true ->
   exists n, snd item = VInt n) /\
  (PyStr.startswith "0x" (py_str W (snd item)) = true ->
   isAddress W (snd item) = true ->
   exists name, ens_name W (snd item) = Ok name).

(** The entry of [messages] that the loop body builds for a declared
    event, when its embed can be built. *)
Definition message_for (W : Env) (self : RocketPool.t) (event : Event.t) : option message :=
  match display_name self event with
  | Some name =>
      match create_embed W self name event with
      | Ok e => Some {| score := event_score event; embed := e; event_name := name |}
      | Raise _ => None
      end
  | None => None
  end.

(** [event]'s hash is cached and its contract address is a key of
    [self.mapping]. *)
Definition replayed (self : RocketPool.t) (event : Event.t) : bool :=
  in_cache (Event.transactionHash event) (RocketPool.tnx_cache self)
  && PyDict.mem (Event.address event) (RocketPool.mapping self).

(** The (contract name, event type) pairs of a configuration, in the
    order in which [__init__] walks them. *)
Definition configured_pairs (c : config) : list (string * string) :=
  flat_map (fun src => map (pair (fst src)) (PyDict.keys (snd src))) (sources c).
(** How the filters appended by the constructor's loop relate to the
    configured pairs. *)
Definition filter_matches (W : Env) (self : RocketPool.t) (f : event_filter) (p : string * string) : Prop :=
  get_address_from_storage_contract W self (fst p) = Ok (filter_address f) /\
  filter_event f = snd p.

(** [s.endswith(suffix)] *)
Fixpoint endswith (suffix s : string) : bool :=
  String.eqb s suffix ||
  match s with
  | EmptyString => false
  | String _ s' => endswith suffix s'
  end.

(** The name shown in the link for a hex string (lines 109-113): the ENS
    name when the value is an address and the registry has a non-empty
    name for it, the shortened hex in every other case. *)
Definition link_name (W : Env) (v : value) : string :=
  if isAddress W v
  then match ens_name W v with
       | Ok (Some name) => if String.eqb name "" then short_hex W v else name
       | _ => short_hex W v
       end
  else short_hex W v.

(* ================================================================== *)
(** ** Concrete environments and events used in examples *)

Module Fixture.

Definition cfg : config :=
    {| storage_name := "rocketStorage";
       storage_address := "0xd8Cd47263414aFEca62d6e2a3917d6600abDceB3";
       sources :=
         [ ("rocketDepositPool", [ ("DepositReceived", "pool_deposit_event") ]);
           ("rocketDAONodeTrustedProposals", [ ("ProposalVoted", "odao_proposal_vote_event") ]) ] |}.

  (** A later version of the configuration: the oDAO source is gone. *)
Definition cfg2 : config :=
  {| storage_name := "rocketStorage";
     storage_address := "0xd8Cd47263414aFEca62d6e2a3917d6600abDceB3";
     sources :=
       [ ("rocketDepositPool", [ ("DepositReceived", "pool_deposit_event") ]) ] |}.

(** An environment in which every outside call but the ones given
    succeeds: the configuration file holds [c], the filters return
    [polls i] and the Discord send behaves as [send_]. *)
Definition env_cfg (c : config) (polls : nat -> result (list Event.t))
    (send_ : string -> Embed.t -> result unit) : Env :=
  {| getenv := fun name => name;
     short_hex := fun v => match v with VStr s => substring 0 6 s | _ => "" end;
     translate := fun key _ => Ok key;
     float_repr := fun _ => "1e-18";
     barh := fun _ _ => "";
     connect := Ok tt;
     isAddress := fun _ => false;
     ens_name := fun _ => Ok None;
     getAddress := fun _ name => Ok ("0x" ++ name)%string;
     getMinipoolPubkey := fun _ _ => Ok (VStr "0xpubkey");
     getMessage := fun _ _ => Ok (VStr "proposal text");
     getVotesFor := fun _ _ => Ok 0%Z;
     getVotesAgainst := fun _ _ => Ok 0%Z;
     getMemberID := fun _ _ => Ok "member";
     createFilter := fun _ _ => Ok tt;
     get_new_entries := polls;
     load_config := Ok c;
     read_abi := fun _ => Ok "[]";
     fetch_channel := fun id => Ok id;
     send := send_ |}.

Definition env := env_cfg cfg.

Definition no_entries : nat -> result (list Event.t) := fun _ => Ok [].
Definition send_ok : string -> Embed.t -> result unit := fun _ _ => Ok tt.
(** Discord refuses every embed that mentions [h] in one of its fields. *)
Definition send_fails_on (h : string) : string -> Embed.t -> result unit :=
  fun _ e =>
    if existsb (fun f => PyStr.contains h (field_value f)) (Embed.fields e)
    then Raise (ExternalError "discord.HTTPException")
    else Ok tt.

  (** Only the first filter (the deposit pool's) returns entries. *)
Definition first_filter (entries : list Event.t) : nat -> result (list Event.t) :=
    fun i => match i with O => Ok entries | S _ => Ok [] end.

Definition transport_error : nat -> result (list Event.t) :=
    fun _ => Raise (ExternalError "ConnectionClosed").

Definition quiet : Env := env no_entries send_ok.

  (** A deposit of [amount] wei in block [block] at position [index]. *)
Definition deposit (tnx_hash : string) (block index amount : Z) : Event.t :=
    {| Event.address := "0xrocketDepositPool";
       Event.event := "DepositReceived";
       Event.args := [ ("from", VStr "0x00000000219ab540356cBB839Cbe05303d7705Fa");
                       ("amount", VInt amount);
                       ("time", VInt 1630000000) ];
       Event.blockNumber := block;
       Event.transactionIndex := index;
       Event.transactionHash := tnx_hash |}.

  (** An event of a type that the configuration does not declare. *)
Definition undeclared (tnx_hash : string) : Event.t :=
  {| Event.address := "0xrocketDepositPool";
     Event.event := "DepositAssigned";
     Event.args := [];
     Event.blockNumber := 100;
     Event.transactionIndex := 0;
     Event.transactionHash := tnx_hash |}.

(** The cog as [setup] leaves it in the environment [quiet]. *)
Definition started : world :=
    match setup quiet with
    | Ok w => w
    | Raise _ => {| cog := blank; trace := [] |}
    end.

Definition no_embed : Embed.t :=
    {| Embed.color := (0, 0, 0)%Z; Embed.footer := ("", "");
       Embed.title := ""; Embed.description := ""; Embed.fields := [] |}.

  (** The embed that [create_embed] builds for a deposit. *)
Definition deposit_embed (tnx_hash : string) (block index amount : Z) : Embed.t :=
    match create_embed quiet (cog started) "pool_deposit_event"
            (deposit tnx_hash block index amount) with
    | Ok e => e
    | Raise _ => no_embed
    end.

(** A vote of an oDAO member on a proposal. *)
Definition vote (tnx_hash : string) (supported : bool) : Event.t :=
  {| Event.address := "0xrocketDAONodeTrustedProposals";
     Event.event := "ProposalVoted";
     Event.args := [ ("proposalID", VInt 7);
                     ("voter", VStr "0x2354628919e1D53D2a69cF700Cc53C4093977B94");
                     ("supported", VBool supported) ];
     Event.blockNumber := 100;
     Event.transactionIndex := 3;
     Event.transactionHash := tnx_hash |}.

(** A deposit whose sender is not given as a hex string. *)
Definition odd_sender (tnx_hash : string) : Event.t :=
  {| Event.address := "0xrocketDepositPool";
     Event.event := "DepositReceived";
     Event.args := [ ("from", VInt 5); ("amount", VInt 1) ];
     Event.blockNumber := 100;
     Event.transactionIndex := 4;
     Event.transactionHash := tnx_hash |}.

(** [quiet] with an ENS registry that has a name for two addresses, and
    an oDAO contract that has no id for any member. *)
Definition named : Env :=
  {| getenv := getenv quiet;
     short_hex := short_hex quiet;
     translate := translate quiet;
     float_repr := float_repr quiet;
     barh := barh quiet;
     connect := connect quiet;
     isAddress := fun v => match v with
                           | VStr s => Nat.eqb (String.length s) 42
                           | _ => false
                           end;
     ens_name := fun v =>
       match v with
       | VStr s =>
           if String.eqb s "0x00000000219ab540356cBB839Cbe05303d7705Fa"
           then Ok (Some "depositcontract.eth")
           else if String.eqb s "0x2354628919e1D53D2a69cF700Cc53C4093977B94"
                then Ok (Some "voter.eth")
                else Ok None
       | _ => Ok None
       end;
     getAddress := getAddress quiet;
     getMinipoolPubkey := getMinipoolPubkey quiet;
     getMessage := getMessage quiet;
     getVotesFor := getVotesFor quiet;
     getVotesAgainst := getVotesAgainst quiet;
     getMemberID := fun _ _ => Ok "";
     createFilter := createFilter quiet;
     get_new_entries := get_new_entries quiet;
     load_config := load_config quiet;
     read_abi := read_abi quiet;
     fetch_channel := fetch_channel quiet;
     send := send quiet |}.

End Fixture.

(* ================================================================== *)
(** * Properties *)

(** ** Strings *)

Lemma str_int_no_0x n : PyStr.startswith "0x" (str_int n) = false.
Proof.
  unfold str_int. destruct (Z.to_int n) as [u|u]; simpl.
  - destruct u as [|u|u|u|u|u|u|u|u|u|u]; simpl; try reflexivity.
    destruct u; reflexivity.
  - reflexivity.
Qed.

Lemma lower_app a b : PyStr.lower (a ++ b) = (PyStr.lower a ++ PyStr.lower b)%string.
Proof. induction a; simpl; congruence. Qed.

(** A prefix match that would have to run across a separator character
    that the keyword does not contain lies before the separator. *)
Lemma startswith_app_sep kw : forall s c t,
  ~ In c (list_ascii_of_string kw) ->
  PyStr.startswith kw (s ++ String c t) = true -> PyStr.startswith kw s = true.
Proof.
  induction kw as [|a kw IH]; intros s c t Hc H; [destruct s; reflexivity|].
  destruct s as [|b s]; simpl in *.
  - destruct (Ascii.eqb a c) eqn:E; [|discriminate].
    apply Ascii.eqb_eq in E. exfalso; auto.
  - destruct (Ascii.eqb a b); [|discriminate].
    apply (IH s c t); auto.
Qed.

Lemma contains_app_sep kw c t :
  ~ In c (list_ascii_of_string kw) ->
  PyStr.contains kw (String c t) = false ->
  forall s, PyStr.contains kw (s ++ String c t) = true -> PyStr.contains kw s = true.
Proof.
  intros Hc Ht s. induction s as [|b s IH]; intros H.
  - change (EmptyString ++ String c t)%string with (String c t) in H. congruence.
  - change ((String b s) ++ String c t)%string with (String b (s ++ String c t)) in H.
    cbn [PyStr.contains] in *.
    apply orb_true_iff in H. apply orb_true_iff. destruct H as [H|H].
    + left. apply (startswith_app_sep kw (String b s) c t Hc H).
    + right. auto.
Qed.

Lemma keyword_fancy s :
  PyStr.any_in ["amount"; "value"] (PyStr.lower (s ++ "_fancy")) = true ->
  PyStr.any_in ["amount"; "value"] (PyStr.lower s) = true.
Proof.
  rewrite lower_app. change (PyStr.lower "_fancy") with "_fancy".
  unfold PyStr.any_in. cbn [existsb]. rewrite !orb_false_r.
  intros H. apply orb_true_iff in H. apply orb_true_iff.
  destruct H as [H|H]; [left|right];
    (eapply contains_app_sep; [ | | exact H]; [simpl; intuition discriminate | reflexivity]).
Qed.

(** ** Dicts *)

Section DictFacts.
  Context {V : Type}.
  Implicit Types (d : dict V) (k : string) (v : V).

Lemma get_set_same k v d : PyDict.get k (PyDict.set k v d) = Some v.
  Proof.
    induction d as [|[k' v'] d IH]; simpl.
    - now rewrite String.eqb_refl.
    - destruct (String.eqb k k') eqn:E; simpl; rewrite E; auto.
  Qed.

Lemma get_set_other k k' v d :
    k <> k' -> PyDict.get k (PyDict.set k' v d) = PyDict.get k d.
  Proof.
    intros Hne. induction d as [|[k2 v2] d IH]; simpl.
    - apply String.eqb_neq in Hne. now rewrite Hne.
    - destruct (String.eqb k' k2) eqn:E; simpl.
      + apply String.eqb_eq in E; subst k2.
        apply String.eqb_neq in Hne. now rewrite Hne.
      + now rewrite IH.
  Qed.

Lemma get_In k v d : PyDict.get k d = Some v -> In (k, v) d.
  Proof.
    induction d as [|[k' v'] d IH]; simpl; [discriminate|].
    destruct (String.eqb k k') eqn:E.
    - apply String.eqb_eq in E. intros [= ->]. left; congruence.
    - auto.
  Qed.

Lemma In_keys_set k k' v d :
    In k (PyDict.keys (PyDict.set k' v d)) -> k = k' \/ In k (PyDict.keys d).
  Proof.
    induction d as [|[k2 v2] d IH]; simpl.
    - intros [<-|[]]; auto.
    - destruct (String.eqb k' k2) eqn:E; simpl.
      + auto.
      + intros [?|H]; auto. destruct (IH H); auto.
  Qed.

Lemma NoDup_keys_set k v d :
    NoDup (PyDict.keys d) -> NoDup (PyDict.keys (PyDict.set k v d)).
  Proof.
    induction d as [|[k2 v2] d IH]; simpl; intros H.
    - repeat constructor. intros [].
    - inversion H as [|? ? Hnin Hnd]; subst.
      destruct (String.eqb k k2) eqn:E; simpl.
      + constructor; assumption.
      + constructor; [|auto].
        intros Hin. apply In_keys_set in Hin as [->|Hin]; [|contradiction].
        now rewrite String.eqb_refl in E.
  Qed.

Lemma NoDup_keys_of_items (l : list (string * V)) :
    NoDup (PyDict.keys (PyDict.of_items l)).
  Proof.
    unfold PyDict.of_items.
    assert (G : forall d : dict V, NoDup (PyDict.keys d) ->
              NoDup (PyDict.keys (fold_left (fun d kv => PyDict.set (fst kv) (snd kv) d) l d))).
    { induction l as [|kv l IH]; simpl; intros d Hd; [assumption|].
      apply IH, NoDup_keys_set, Hd. }
    apply G. constructor.
  Qed.

End DictFacts.

(** ** Slices and the dedup cache *)

Lemma in_cache_true h c : in_cache h c = true <-> In h c.
Proof.
  unfold in_cache. rewrite existsb_exists. split.
  - intros (x & Hx & E). apply String.eqb_eq in E. now subst.
  - intros H. exists h. split; [assumption | apply String.eqb_refl].
Qed.

Lemma in_cache_false h c : in_cache h c = false <-> ~ In h c.
Proof.
  rewrite <- in_cache_true. destruct (in_cache h c); split; congruence.
Qed.

Lemma in_cache_app h c1 c2 : in_cache h (c1 ++ c2) = in_cache h c1 || in_cache h c2.
Proof. apply existsb_app. Qed.

Lemma last_n_length {A} n (l : list A) : List.length (last_n n l) <= n.
Proof. unfold last_n. rewrite length_skipn. lia. Qed.

Lemma last_n_exact_length {A} n (l : list A) :
  List.length (last_n n l) = Nat.min n (List.length l).
Proof. unfold last_n. rewrite length_skipn. lia. Qed.

Lemma last_n_short {A} n (l : list A) : List.length l <= n -> last_n n l = l.
Proof.
  intros H. unfold last_n. replace (List.length l - n) with 0 by lia. reflexivity.
Qed.

(** The slice keeps a suffix: what is dropped is the front of the list. *)
Lemma last_n_suffix {A} n (l : list A) :
  firstn (List.length l - n) l ++ last_n n l = l.
Proof. apply firstn_skipn. Qed.

(** ** Sorting by score *)

Lemma Qltb_true a b : Qltb a b = true -> (a <= b)%Q.
Proof.
  unfold Qltb. intros H. apply negb_true_iff in H.
  destruct (Qlt_le_dec a b) as [L|L]; [apply Qlt_le_weak, L|].
  apply Qle_bool_iff in L. congruence.
Qed.

Lemma Qltb_false a b : Qltb a b = false -> (b <= a)%Q.
Proof.
  unfold Qltb. intros H. apply negb_false_iff in H. now apply Qle_bool_iff.
Qed.

Lemma Qltb_lt a b : (a < b)%Q -> Qltb a b = true.
Proof.
  intros H. unfold Qltb. apply negb_true_iff.
  destruct (Qle_bool b a) eqn:E; [|reflexivity].
  apply Qle_bool_iff in E. exfalso. exact (Qlt_not_le _ _ H E).
Qed.

Lemma insert_by_score_perm m l : Permutation (m :: l) (insert_by_score m l).
Proof.
  induction l as [|x l IH]; simpl; [reflexivity|].
  destruct (Qltb (score x) (score m)); [|reflexivity].
  rewrite perm_swap. now constructor.
Qed.

Lemma sorted_by_score_perm l : Permutation l (sorted_by_score l).
Proof.
  induction l as [|m l IH]; simpl; [constructor|].
  rewrite <- insert_by_score_perm. now constructor.
Qed.

Lemma insert_by_score_sorted m l :
  StronglySorted score_le l -> StronglySorted score_le (insert_by_score m l).
Proof.
  induction 1 as [|x l Hs IH Hx]; simpl.
  - repeat constructor.
  - destruct (Qltb (score x) (score m)) eqn:E.
    + constructor; [assumption|].
      eapply Permutation_Forall; [apply insert_by_score_perm|].
      constructor; [apply Qltb_true, E | assumption].
    + apply Qltb_false in E.
      constructor; [constructor; assumption|].
      constructor; [exact E|].
      eapply Forall_impl; [|exact Hx].
      intros y Hy. unfold score_le in *. eapply Qle_trans; eassumption.
Qed.

Lemma sorted_by_score_sorted l : StronglySorted score_le (sorted_by_score l).
Proof.
  induction l as [|m l IH]; simpl; [constructor | now apply insert_by_score_sorted].
Qed.

Lemma In_firstn {A} (x : A) k l : In x (firstn k l) -> In x l.
Proof.
  intros H. rewrite <- (firstn_skipn k l). apply in_or_app. now left.
Qed.

Lemma StronglySorted_firstn {A} (R : A -> A -> Prop) k l :
  StronglySorted R l -> StronglySorted R (firstn k l).
Proof.
  intros H. revert k. induction H as [|x l Hs IH Hx]; intros [|k]; simpl; try constructor.
  - apply IH.
  - apply Forall_forall. intros y Hy. rewrite Forall_forall in Hx.
    apply Hx. eapply In_firstn. exact Hy.
Qed.

(** ** The loop body *)

Lemma mem_get {V} k (d : dict V) :
  PyDict.mem k d = true <-> exists v, PyDict.get k d = Some v.
Proof.
  unfold PyDict.mem. destruct (PyDict.get k d); split; eauto; try discriminate.
  intros (v & [=]).
Qed.

Lemma create_embed_cache W c self name event :
  create_embed W (set_tnx_cache c self) name event = create_embed W self name event.
Proof. reflexivity. Qed.

Lemma with_cache_same w : with_cache (RocketPool.tnx_cache (cog w)) w = w.
Proof. destruct w as [[] ?]; reflexivity. Qed.

Section HandleEvent.
  Variable W : Env.
  Implicit Types (w : world) (event : Event.t) (messages : list message).

Lemma handle_event_unmapped event messages w :
    PyDict.get (Event.address event) (RocketPool.mapping (cog w)) = None ->
    handle_event W event messages w = (Raise (KeyError (Event.address event)), w).
  Proof.
    intros H. unfold handle_event, bind, self_, lift, getitem. now rewrite H.
  Qed.

Lemma handle_event_undeclared event messages w names :
    PyDict.get (Event.address event) (RocketPool.mapping (cog w)) = Some names ->
    PyDict.mem (Event.event event) names = false ->
    handle_event W event messages w = (Ok messages, w).
  Proof.
    intros H1 H2. unfold handle_event, bind, self_, lift, getitem. now rewrite H1, H2.
  Qed.

Lemma handle_event_seen event messages w names :
    PyDict.get (Event.address event) (RocketPool.mapping (cog w)) = Some names ->
    in_cache (Event.transactionHash event) (RocketPool.tnx_cache (cog w)) = true ->
    handle_event W event messages w = (Ok messages, w).
  Proof.
    intros H1 H2. unfold handle_event, bind, self_, lift, getitem. rewrite H1, H2.
    now destruct (PyDict.mem _ _).
  Qed.

Lemma handle_event_fresh event messages w name :
    display_name (cog w) event = Some name ->
    in_cache (Event.transactionHash event) (RocketPool.tnx_cache (cog w)) = false ->
    handle_event W event messages w =
      match create_embed W (cog w) name event with
      | Ok e =>
          (Ok (messages ++ [ {| score := event_score event; embed := e; event_name := name |} ]),
           with_cache (RocketPool.tnx_cache (cog w) ++ [Event.transactionHash event]) w)
      | Raise err => (Raise err, w)
      end.
  Proof.
    unfold display_name. intros H1 H2.
    destruct (PyDict.get (Event.address event) _) as [names|] eqn:E; [|discriminate].
    unfold handle_event, bind, self_, lift, getitem. rewrite E.
    unfold PyDict.mem. rewrite H1, H2.
    destruct (create_embed W (cog w) name event); reflexivity.
  Qed.

  (** What one pass of the loop body can do: skip the entry, raise, or
      record it. *)
Lemma handle_event_outcome event messages w :
    (handle_event W event messages w = (Ok messages, w) /\
     (display_name (cog w) event = None \/
      in_cache (Event.transactionHash event) (RocketPool.tnx_cache (cog w)) = true)) \/
    (exists err, handle_event W event messages w = (Raise err, w)) \/
    (exists m,
       handle_event W event messages w =
         (Ok (messages ++ [m]),
          with_cache (RocketPool.tnx_cache (cog w) ++ [Event.transactionHash event]) w) /\
       message_of W (cog w) event m /\
       in_cache (Event.transactionHash event) (RocketPool.tnx_cache (cog w)) = false).
  Proof.
    destruct (PyDict.get (Event.address event) (RocketPool.mapping (cog w))) as [names|] eqn:E.
    - destruct (in_cache (Event.transactionHash event) (RocketPool.tnx_cache (cog w))) eqn:C.
      + rewrite (handle_event_seen _ _ _ _ E C). left. auto.
      + destruct (PyDict.get (Event.event event) names) as [name|] eqn:N.
        * assert (D : display_name (cog w) event = Some name)
            by (unfold display_name; now rewrite E).
          rewrite (handle_event_fresh _ _ _ _ D C).
          destruct (create_embed W (cog w) name event) as [e|err] eqn:CE.
          -- right; right. eexists. split; [reflexivity|]. split; [|reflexivity].
             exists name. simpl. auto.
          -- right; left. eauto.
        * rewrite (handle_event_undeclared _ _ _ _ E).
          -- left. split; [reflexivity|]. left. unfold display_name. now rewrite E.
          -- unfold PyDict.mem. now rewrite N.
    - rewrite (handle_event_unmapped _ _ _ E). right; left. eauto.
  Qed.

End HandleEvent.

Section Collect.
  Variable W : Env.

Lemma recorded_nil w (P : Event.t -> Prop) : recorded W w P [] [] w.
  Proof.
    unfold recorded. repeat split; try constructor.
    simpl. rewrite app_nil_r. symmetry. apply with_cache_same.
  Qed.

Lemma recorded_weaken w (P Q : Event.t -> Prop) evs ms w' :
    (forall ev, P ev -> Q ev) -> recorded W w P evs ms w' -> recorded W w Q evs ms w'.
  Proof.
    intros PQ (H1 & H2 & H3 & H4 & H5). repeat split; auto.
    eapply Forall_impl; eauto.
  Qed.

Lemma recorded_app w w1 w2 (P : Event.t -> Prop) evs1 ms1 evs2 ms2 :
    recorded W w P evs1 ms1 w1 -> recorded W w1 P evs2 ms2 w2 ->
    recorded W w P (evs1 ++ evs2) (ms1 ++ ms2) w2.
  Proof.
    intros (A1 & A2 & A3 & A4 & ->) (B1 & B2 & B3 & B4 & ->).
    cbn [with_cache cog set_tnx_cache RocketPool.tnx_cache] in B3.
    assert (B3' : Forall (fun ev =>
                in_cache (Event.transactionHash ev) (RocketPool.tnx_cache (cog w)) = false /\
                ~ In (Event.transactionHash ev) (map Event.transactionHash evs1)) evs2).
    { eapply Forall_impl; [|exact B3]. intros ev H. cbn beta in H.
      rewrite in_cache_app in H. apply orb_false_iff in H as [H1 H2].
      split; [assumption | now apply in_cache_false]. }
    repeat split.
    - apply Forall2_app; assumption.
    - apply Forall_app; split; assumption.
    - apply Forall_app; split; [assumption|].
      eapply Forall_impl; [|exact B3']. now intros ev [H _].
    - rewrite map_app. apply NoDup_app; [assumption|assumption|].
      intros h Hin1 Hin2. apply in_map_iff in Hin2 as (ev & <- & Hev).
      rewrite Forall_forall in B3'. destruct (B3' ev Hev) as [_ F]. contradiction.
    - unfold with_cache. cbn. now rewrite map_app, app_assoc.
  Qed.

Lemma for_each_entry_cons event rest messages w :
    for_each_entry W (event :: rest) messages w =
      match handle_event W event messages w with
      | (Ok messages, w') => for_each_entry W rest messages w'
      | (Raise err, w') => (Raise err, w')
      end.
  Proof. reflexivity. Qed.

Lemma for_each_entry_spec : forall entries messages w,
    exists evs ms,
      recorded W w (fun ev => In ev entries) evs ms (snd (for_each_entry W entries messages w)) /\
      (forall messages', fst (for_each_entry W entries messages w) = Ok messages' ->
                         messages' = messages ++ ms).
  Proof.
    induction entries as [|event rest IH]; intros messages w.
    - exists [], []. split; [apply recorded_nil|].
      simpl. intros ? [= <-]. now rewrite app_nil_r.
    - rewrite for_each_entry_cons.
      destruct (handle_event_outcome W event messages w)
        as [[E Hskip]|[(err & E)|(m & E & Hm & Hfresh)]]; rewrite E.
      + destruct (IH messages w) as (evs & ms & R & F).
        exists evs, ms. split; [|exact F].
        eapply recorded_weaken; [|exact R]. intros; now right.
      + exists [], []. split; [apply recorded_nil|]. simpl. discriminate.
      + set (w1 := with_cache _ w).
        destruct (IH (messages ++ [m]) w1) as (evs & ms & R & F).
        exists ([event] ++ evs), ([m] ++ ms). split.
        * eapply recorded_app.
          -- unfold recorded. split; [|split; [|split; [|split]]].
             ++ constructor; [exact Hm | constructor].
             ++ constructor; [now left | constructor].
             ++ constructor; [exact Hfresh | constructor].
             ++ simpl. constructor; [intros [] | constructor].
             ++ reflexivity.
          -- eapply recorded_weaken; [|exact R]. intros; now right.
        * intros messages' E'. rewrite (F _ E'). now rewrite <- app_assoc.
  Qed.
End Collect.

Section Tick.
  Variable W : Env.

Lemma for_each_filter_cons i f rest messages w :
    for_each_filter W i (f :: rest) messages w =
      match get_new_entries W i with
      | Ok entries =>
          match for_each_entry W (rev entries) messages w with
          | (Ok messages, w') => for_each_filter W (S i) rest messages w'
          | (Raise err, w') => (Raise err, w')
          end
      | Raise err => (Raise err, w)
      end.
  Proof.
    cbn [for_each_filter]. unfold bind, lift.
    destruct (get_new_entries W i); reflexivity.
  Qed.

Lemma for_each_filter_spec : forall filters i messages w,
    exists evs ms,
      recorded W w (polled_in W i (List.length filters)) evs ms
        (snd (for_each_filter W i filters messages w)) /\
      (forall messages', fst (for_each_filter W i filters messages w) = Ok messages' ->
                         messages' = messages ++ ms).
  Proof.
    induction filters as [|f rest IH]; intros i messages w.
    - exists [], []. split; [apply recorded_nil|].
      simpl. intros ? [= <-]. now rewrite app_nil_r.
    - rewrite for_each_filter_cons.
      destruct (get_new_entries W i) as [entries|err] eqn:G.
      + destruct (for_each_entry_spec W (rev entries) messages w) as (evs1 & ms1 & R1 & F1).
        destruct (for_each_entry W (rev entries) messages w) as [[messages1|err] w1].
        * destruct (IH (S i) messages1 w1) as (evs2 & ms2 & R2 & F2).
          exists (evs1 ++ evs2), (ms1 ++ ms2). split.
          -- eapply recorded_app.
             ++ eapply recorded_weaken; [|exact R1].
                intros ev Hin. exists i, entries. cbn [List.length].
                split; [lia|]. split; [assumption|]. now apply in_rev.
             ++ eapply recorded_weaken; [|exact R2].
                intros ev (j & entries' & Hj & Hg & Hin). exists j, entries'.
                cbn [List.length]. split; [lia|]. auto.
          -- intros messages' E. rewrite (F2 _ E), (F1 _ eq_refl). now rewrite app_assoc.
        * exists evs1, ms1. split; [|discriminate].
          eapply recorded_weaken; [|exact R1].
          intros ev Hin. exists i, entries. cbn [List.length].
          split; [lia|]. split; [assumption|]. now apply in_rev.
      + exists [], []. split; [apply recorded_nil | discriminate].
  Qed.

Lemma send_all_spec d o : forall batch w,
    snd (send_all W d o batch w) =
      {| cog := cog w; trace := trace w ++ map (route d o) (attempted W d o batch) |}.
  Proof.
    induction batch as [|m rest IH]; intros w.
    - simpl. rewrite app_nil_r. now destruct w.
    - cbn [send_all attempted]. unfold bind, emit, modify, lift.
      destruct (send W _ (embed m)) as [[]|err]; cbn [map].
      + rewrite IH. cbn [cog trace]. now rewrite <- app_assoc.
      + cbn [snd cog trace map]. reflexivity.
  Qed.

Lemma attempted_prefix d o : forall batch,
    exists k, attempted W d o batch = firstn k batch.
  Proof.
    induction batch as [|m rest [k IH]].
    - exists 0. reflexivity.
    - cbn [attempted]. destruct (send W _ (embed m)).
      + exists (S k). simpl. now rewrite IH.
      + exists 1. reflexivity.
  Qed.

Lemma attempted_all d o : forall batch w,
    fst (send_all W d o batch w) = Ok tt -> attempted W d o batch = batch.
  Proof.
    induction batch as [|m rest IH]; intros w; [reflexivity|].
    cbn [send_all attempted]. unfold bind, emit, modify, lift.
    destruct (send W _ (embed m)) as [[]|err]; [|discriminate].
    intros H. f_equal. eapply IH. exact H.
  Qed.

Lemma check_for_new_events_unfold w :
    check_for_new_events W w =
      if negb (RocketPool.loaded (cog w)) then (Ok tt, w)
      else
        match for_each_filter W 0 (RocketPool.events (cog w)) [] w with
        | (Raise err, w1) => (Raise err, w1)
        | (Ok messages, w1) =>
            match fetch_channel W (getenv W "DEFAULT_CHANNEL") with
            | Raise err => (Raise err, w1)
            | Ok d =>
                match fetch_channel W (getenv W "ODAO_CHANNEL") with
                | Raise err => (Raise err, w1)
                | Ok o =>
                    match send_all W d o (sorted_by_score messages) w1 with
                    | (Raise err, w2) => (Raise err, w2)
                    | (Ok _, w2) =>
                        (Ok tt, with_cache (last_n 1000 (RocketPool.tnx_cache (cog w2))) w2)
                    end
                end
            end
        end.
  Proof.
    unfold check_for_new_events, bind, self_, lift, on_self, modify.
    destruct (negb _); [reflexivity|].
    destruct (for_each_filter W 0 _ [] w) as [[messages|err] w1]; [|reflexivity].
    destruct (fetch_channel W (getenv W "DEFAULT_CHANNEL")); [|reflexivity].
    destruct (fetch_channel W (getenv W "ODAO_CHANNEL")); [|reflexivity].
    destruct (send_all W _ _ _ w1) as [[[]|err] w2]; reflexivity.
  Qed.

  (** Summary of one run of [check_for_new_events] on a loaded cog. *)
Lemma check_for_new_events_spec w :
    RocketPool.loaded (cog w) = true ->
    exists evs ms batch d o k,
      Forall2 (message_of W (cog w)) evs ms /\
      Forall (polled W (cog w)) evs /\
      Forall (fun ev => in_cache (Event.transactionHash ev)
                          (RocketPool.tnx_cache (cog w)) = false) evs /\
      NoDup (map Event.transactionHash evs) /\
      batch = firstn k (sorted_by_score ms) /\
      trace (snd (check_for_new_events W w)) = trace w ++ map (route d o) batch /\
      (fst (check_for_new_events W w) = Ok tt ->
         batch = sorted_by_score ms /\
         cog (snd (check_for_new_events W w)) =
           set_tnx_cache
             (last_n 1000 (RocketPool.tnx_cache (cog w) ++ map Event.transactionHash evs))
             (cog w)) /\
      (forall err, fst (check_for_new_events W w) = Raise err ->
         cog (snd (check_for_new_events W w)) =
           set_tnx_cache (RocketPool.tnx_cache (cog w) ++ map Event.transactionHash evs)
                         (cog w)).
  Proof.
    intros L. rewrite check_for_new_events_unfold, L. cbn [negb].
    destruct (for_each_filter_spec (RocketPool.events (cog w)) 0 [] w)
      as (evs & ms & (R1 & R2 & R3 & R4 & R5) & F).
    assert (P : Forall (polled W (cog w)) evs).
    { eapply Forall_impl; [|exact R2]. intros ev (j & entries & Hj & Hg & Hin).
      exists j, entries. split; [lia|auto]. }
    destruct (for_each_filter W 0 _ [] w) as [[messages|err] w1]; cbn [fst snd] in *.
    - specialize (F _ eq_refl). cbn [app] in F. subst messages w1.
      set (c := RocketPool.tnx_cache (cog w) ++ map Event.transactionHash evs).
      destruct (fetch_channel W (getenv W "DEFAULT_CHANNEL")) as [d|err].
      + destruct (fetch_channel W (getenv W "ODAO_CHANNEL")) as [o|err].
        * pose proof (send_all_spec d o (sorted_by_score ms) (with_cache c w)) as S.
          pose proof (attempted_all d o (sorted_by_score ms) (with_cache c w)) as A.
          destruct (attempted_prefix d o (sorted_by_score ms)) as [k K].
          destruct (send_all W d o (sorted_by_score ms) (with_cache c w)) as [[[]|err] w2];
            cbn [fst snd] in *; subst w2.
          -- exists evs, ms, (sorted_by_score ms), d, o, k.
             rewrite (A eq_refl) in *. repeat split; auto; discriminate.
          -- exists evs, ms, (attempted W d o (sorted_by_score ms)), d, o, k.
             repeat split; auto; discriminate.
        * exists evs, ms, [], "", "", 0. cbn. rewrite app_nil_r.
          repeat split; auto; discriminate.
      + exists evs, ms, [], "", "", 0. cbn. rewrite app_nil_r.
        repeat split; auto; discriminate.
    - subst w1. exists evs, ms, [], "", "", 0. cbn. rewrite app_nil_r.
      repeat split; auto; discriminate.
  Qed.
End Tick.

(** ** Rounding to binary64 *)

Local Open Scope Q_scope.

Lemma round_half_even_near q : Qabs (inject_Z (round_half_even q) - q) <= 1 # 2.
Proof.
  unfold round_half_even.
  pose proof (Qfloor_le q) as L. pose proof (Qlt_floor q) as U.
  rewrite inject_Z_plus in U. change (inject_Z 1) with 1 in U.
  set (f := Qfloor q) in *.
  apply Qabs_Qle_condition.
  destruct (q - inject_Z f ?= 1 # 2) eqn:C.
  - apply Qeq_alt in C. destruct (Z.even f); [|rewrite inject_Z_plus; change (inject_Z 1) with 1]; lra.
  - apply Qlt_alt in C. lra.
  - apply Qgt_alt in C. rewrite inject_Z_plus. change (inject_Z 1) with 1. lra.
Qed.

Lemma round_half_even_Z z : round_half_even (inject_Z z) = z.
Proof.
  unfold round_half_even. rewrite Qfloor_Z.
  assert (E : inject_Z z - inject_Z z == 0) by ring.
  rewrite E. reflexivity.
Qed.

Lemma round_half_even_comp q q' : q == q' -> round_half_even q = round_half_even q'.
Proof.
  intros H. unfold round_half_even. rewrite (Qfloor_comp _ _ H).
  assert (E : q - inject_Z (Qfloor q') == q' - inject_Z (Qfloor q')) by (rewrite H; reflexivity).
  now rewrite E.
Qed.

Lemma pow2_pos z : 0 < 2 ^ z.
Proof. apply Qpower_0_lt. reflexivity. Qed.

Lemma ilog2_le q : ~ q == 0 -> 2 ^ ilog2 q <= Qabs q.
Proof.
  intros Hq. unfold ilog2.
  set (n := Z.abs (Qnum q)). set (d := Zpos (Qden q)).
  set (k := (Z.log2 n - Z.log2 d)%Z).
  destruct (Qle_bool (2 ^ k) (Qabs q)) eqn:E.
  - now apply Qle_bool_iff.
  - clear E.
    assert (Hn : (0 < n)%Z).
    { subst n. destruct q as [[|p|p] dq]; cbn; try lia. exfalso. apply Hq. reflexivity. }
    assert (Hd : (0 < d)%Z) by (subst d; lia).
    destruct (Z.log2_spec n Hn) as [Ln _]. destruct (Z.log2_spec d Hd) as [_ Ud].
    pose proof (Z.log2_nonneg n) as An. pose proof (Z.log2_nonneg d) as Ad.
    assert (Eq : Qabs q == inject_Z n / inject_Z d).
    { destruct q as [nq dq]. subst n d. cbn [Qnum Qden Qabs].
      rewrite (Qmake_Qdiv (Z.abs nq) dq). reflexivity. }
    rewrite Eq.
    assert (Dpos : 0 < inject_Z d) by (change 0 with (inject_Z 0); rewrite <- Zlt_Qlt; exact Hd).
    apply Qle_shift_div_l; [exact Dpos|].
    apply Qle_trans with (2 ^ (k - 1) * 2 ^ (Z.log2 d + 1)).
    + apply Qmult_le_l; [apply pow2_pos|].
      change 2 with (inject_Z 2). rewrite <- Zpower_Qpower by lia.
      rewrite <- Zle_Qle. change (Z.succ (Z.log2 d)) with (Z.log2 d + 1)%Z in Ud. lia.
    + rewrite <- Qpower_plus by discriminate.
      replace (k - 1 + (Z.log2 d + 1))%Z with (Z.log2 n) by (subst k; lia).
      change 2 with (inject_Z 2). rewrite <- Zpower_Qpower by lia.
      now rewrite <- Zle_Qle.
Qed.

Lemma ilog2_lt q : ~ q == 0 -> Qabs q < 2 ^ (ilog2 q + 1).
Proof.
  intros Hq. unfold ilog2.
  set (n := Z.abs (Qnum q)). set (d := Zpos (Qden q)).
  set (k := (Z.log2 n - Z.log2 d)%Z).
  destruct (Qle_bool (2 ^ k) (Qabs q)) eqn:E.
  - clear E.
    assert (Hn : (0 < n)%Z).
    { subst n. destruct q as [[|p|p] dq]; cbn; try lia. exfalso. apply Hq. reflexivity. }
    assert (Hd : (0 < d)%Z) by (subst d; lia).
    destruct (Z.log2_spec n Hn) as [_ Un]. destruct (Z.log2_spec d Hd) as [Ld _].
    pose proof (Z.log2_nonneg n) as An. pose proof (Z.log2_nonneg d) as Ad.
    assert (Eq : Qabs q == inject_Z n / inject_Z d).
    { destruct q as [nq dq]. subst n d. cbn [Qnum Qden Qabs].
      rewrite (Qmake_Qdiv (Z.abs nq) dq). reflexivity. }
    rewrite Eq.
    assert (Dpos : 0 < inject_Z d) by (change 0 with (inject_Z 0); rewrite <- Zlt_Qlt; exact Hd).
    apply Qlt_shift_div_r; [exact Dpos|].
    apply Qlt_le_trans with (2 ^ (Z.log2 n + 1)).
    + change 2 with (inject_Z 2). rewrite <- Zpower_Qpower by lia.
      rewrite <- Zlt_Qlt. change (Z.succ (Z.log2 n)) with (Z.log2 n + 1)%Z in Un. lia.
    + replace (Z.log2 n + 1)%Z with (k + 1 + Z.log2 d)%Z by (subst k; lia).
      rewrite Qpower_plus by discriminate.
      apply Qmult_le_l; [apply pow2_pos|].
      change 2 with (inject_Z 2). rewrite <- Zpower_Qpower by lia.
      now rewrite <- Zle_Qle.
  - replace (k - 1 + 1)%Z with k by lia.
    apply Qnot_le_lt. intros H. apply Qle_bool_iff in H. congruence.
Qed.

Lemma ilog2_below q E : ~ q == 0 -> Qabs q < 2 ^ (E + 1) -> (ilog2 q <= E)%Z.
Proof.
  intros Hq H.
  assert (L : 2 ^ ilog2 q < 2 ^ (E + 1)) by (eapply Qle_lt_trans; [apply ilog2_le, Hq | exact H]).
  apply Qpower_lt_compat_l_inv in L; [lia | reflexivity].
Qed.

Lemma binary64_eq q :
  ~ q == 0 ->
  binary64 q == inject_Z (round_half_even (q / 2 ^ Z.max (ilog2 q - 52) (-1074)))
                * 2 ^ Z.max (ilog2 q - 52) (-1074).
Proof.
  intros Hq. unfold binary64.
  destruct (Qeq_bool q 0) eqn:E; [apply Qeq_bool_iff in E; contradiction|].
  apply Qred_correct.
Qed.

Lemma binary64_error q E :
  (-1022 <= E)%Z -> Qabs q < 2 ^ (E + 1) -> Qabs (binary64 q - q) <= 2 ^ (E - 53).
Proof.
  intros HE Hq.
  destruct (Qeq_dec q 0) as [Z0|NZ].
  - unfold binary64. apply Qeq_bool_iff in Z0 as B. rewrite B.
    assert (E0 : 0 - q == 0) by (rewrite Z0; ring). rewrite E0.
    apply Qlt_le_weak, pow2_pos.
  - rewrite (binary64_eq q NZ).
    set (u := Z.max (ilog2 q - 52) (-1074)).
    pose proof (pow2_pos u) as Up.
    pose proof (round_half_even_near (q / 2 ^ u)) as N.
    set (r := inject_Z (round_half_even (q / 2 ^ u))) in *.
    assert (D : r * 2 ^ u - q == (r - q / 2 ^ u) * 2 ^ u) by (field; lra).
    rewrite D, Qabs_Qmult, (Qabs_pos (2 ^ u)) by lra.
    apply Qle_trans with ((1 # 2) * 2 ^ u).
    + apply Qmult_le_r; assumption.
    + assert (Hu : (u <= E - 52)%Z).
      { pose proof (ilog2_below q E NZ Hq). subst u. lia. }
      apply Qle_trans with ((1 # 2) * 2 ^ (E - 52)).
      * apply Qmult_le_l; [reflexivity|]. apply Qpower_le_compat_l; [exact Hu | discriminate].
      * replace (E - 52)%Z with (E - 53 + 1)%Z by lia.
        rewrite Qpower_plus by discriminate. change (2 ^ 1) with 2. 
        assert (P := pow2_pos (E - 53)). lra.
Qed.

Lemma binary64_int n : (Z.abs n < 2 ^ 53)%Z -> binary64 (inject_Z n) == inject_Z n.
Proof.
  intros Hn.
  destruct (Z.eq_dec n 0) as [->|NZ]; [reflexivity|].
  assert (NQ : ~ inject_Z n == 0).
  { intros H. apply NZ. now apply (inject_Z_injective n 0). }
  rewrite (binary64_eq _ NQ).
  assert (Hi : (ilog2 (inject_Z n) <= 52)%Z).
  { apply ilog2_below; [exact NQ|].
    change (inject_Z n) with (n # 1). rewrite <- Zabs_Qabs.
    change (52 + 1)%Z with 53%Z. change (2 ^ 53) with (inject_Z (2 ^ 53)).
    change (Z.abs n # 1) with (inject_Z (Z.abs n)). now rewrite <- Zlt_Qlt. }
  set (u := Z.max (ilog2 (inject_Z n) - 52) (-1074)).
  assert (Hu : (u <= 0)%Z) by (subst u; lia).
  assert (Ediv : inject_Z n / 2 ^ u == inject_Z (n * 2 ^ (- u))).
  { rewrite inject_Z_mult, Zpower_Qpower by lia. change (inject_Z 2) with 2.
    rewrite Qpower_opp. field. assert (P := pow2_pos u). lra. }
  rewrite (round_half_even_comp _ _ Ediv), round_half_even_Z, inject_Z_mult, Zpower_Qpower by lia.
  change (inject_Z 2) with 2. rewrite Qpower_opp. field. assert (P := pow2_pos u). lra.
Qed.

(** Some values, as CPython computes them: [0.1]; [10 + 1005 / 1000], which
    prints as 11.004999999999999 and is below [11 + 5 / 1000]; [1 / 10 ** 18];
    [float(2 ** 53 + 1)], a tie that goes to the even significand. *)
Example binary64_values :
  binary64 (1 # 10) = 3602879701896397 # 36028797018963968 /\
  float_add (float_of_int 10) (true_div 1005 1000) = 3097632118700769 # 281474976710656 /\
  float_add (float_of_int 11) (true_div 5 1000) = 6195264237401539 # 562949953421312 /\
  true_div 1 E18 = 1298074214633707 # 1298074214633706907132624082305024 /\
  float_of_int (2 ^ 53 + 1) = inject_Z (2 ^ 53).
Proof. vm_compute. repeat split. Qed.

(** The score of an event whose block number is below [2^43 - 1] and whose
    transaction index is at most 1000 differs from
    [blockNumber + transactionIndex / 1000] by at most [2^-11 + 2^-53]. *)
Lemma event_score_near ev :
  (0 <= Event.blockNumber ev < 2 ^ 43 - 1)%Z ->
  (0 <= Event.transactionIndex ev <= 1000)%Z ->
  Qabs (event_score ev
        - (inject_Z (Event.blockNumber ev) + inject_Z (Event.transactionIndex ev) * (1 # 1000)))
    <= (1 # 2048) + (1 # 9007199254740992).
Proof.
  intros HB HI. unfold event_score, float_add, float_of_int, true_div.
  set (B := Event.blockNumber ev) in *. set (i := Event.transactionIndex ev) in *.
  assert (QB : 0 <= inject_Z B <= 8796093022206).
  { change 0 with (inject_Z 0). change 8796093022206 with (inject_Z (2 ^ 43 - 2)).
    rewrite <- !Zle_Qle. lia. }
  assert (QI : 0 <= inject_Z i <= 1000).
  { change 0 with (inject_Z 0). change 1000 with (inject_Z 1000).
    rewrite <- !Zle_Qle. lia. }
  assert (EB : binary64 (inject_Z B) == inject_Z B).
  { apply binary64_int. assert (2 ^ 43 < 2 ^ 53)%Z by reflexivity. lia. }
  assert (ED : inject_Z i / inject_Z 1000 == inject_Z i * (1 # 1000)) by reflexivity.
  assert (EX : Qabs (binary64 (inject_Z i / inject_Z 1000) - inject_Z i / inject_Z 1000)
               <= 1 # 9007199254740992).
  { apply (binary64_error _ 0); [lia|].
    apply Qabs_Qlt_condition. change (2 ^ (0 + 1)) with 2. rewrite ED. lra. }
  set (x := binary64 (inject_Z i / inject_Z 1000)) in *.
  set (b := binary64 (inject_Z B)) in *.
  apply Qabs_Qle_condition in EX. rewrite ED in EX.
  assert (ES : Qabs (binary64 (b + x) - (b + x)) <= 1 # 2048).
  { apply (binary64_error _ 42); [lia|].
    apply Qabs_Qlt_condition. change (2 ^ (42 + 1)) with 8796093022208. lra. }
  apply Qabs_Qle_condition in ES. apply Qabs_Qle_condition. lra.
Qed.

(** Below block [2^43 - 1], and for transaction indices below 1000, the
    score grows strictly with the pair (block number, transaction index). *)
Lemma event_score_lex_lt e1 e2 :
  (0 <= Event.blockNumber e1 < 2 ^ 43 - 1)%Z ->
  (0 <= Event.blockNumber e2 < 2 ^ 43 - 1)%Z ->
  (0 <= Event.transactionIndex e1 < 1000)%Z ->
  (0 <= Event.transactionIndex e2 < 1000)%Z ->
  (Event.blockNumber e1 < Event.blockNumber e2 \/
   Event.blockNumber e1 = Event.blockNumber e2 /\
   Event.transactionIndex e1 < Event.transactionIndex e2)%Z ->
  event_score e1 < event_score e2.
Proof.
  intros B1 B2 I1 I2 L.
  pose proof (event_score_near e1 B1 ltac:(lia)) as N1.
  pose proof (event_score_near e2 B2 ltac:(lia)) as N2.
  apply Qabs_Qle_condition in N1. apply Qabs_Qle_condition in N2.
  assert (G : (1000 * Event.blockNumber e1 + Event.transactionIndex e1 + 1
               <= 1000 * Event.blockNumber e2 + Event.transactionIndex e2)%Z) by lia.
  rewrite Zle_Qle, !inject_Z_plus, !inject_Z_mult in G.
  change (inject_Z 1000) with 1000 in G. change (inject_Z 1) with 1 in G.
  lra.
Qed.

Lemma event_score_same e1 e2 :
  Event.blockNumber e1 = Event.blockNumber e2 ->
  Event.transactionIndex e1 = Event.transactionIndex e2 ->
  event_score e1 = event_score e2.
Proof. unfold event_score. now intros -> ->. Qed.

Local Close Scope Q_scope.

(** ** Delivery order *)

Lemma Forall2_In_r {A B} (R : A -> B -> Prop) l1 l2 b :
  Forall2 R l1 l2 -> In b l2 -> exists a, In a l1 /\ R a b.
Proof.
  induction 1 as [|x y l1 l2 Hxy H IH]; simpl; [intros []|].
  intros [<-|Hin]; [eauto|].
  destruct (IH Hin) as (a & Ha & HR). eauto.
Qed.

Section Dispatch.
  Variable W : Env.

Lemma handle_event_recorded event messages w name e :
    display_name (cog w) event = Some name ->
    in_cache (Event.transactionHash event) (RocketPool.tnx_cache (cog w)) = false ->
    create_embed W (cog w) name event = Ok e ->
    handle_event W event messages w =
      (Ok (messages ++ [ {| score := event_score event; embed := e; event_name := name |} ]),
       with_cache (RocketPool.tnx_cache (cog w) ++ [Event.transactionHash event]) w).
  Proof.
    intros D C CE. rewrite (handle_event_fresh W _ _ _ _ D C). now rewrite CE.
  Qed.

  (** The sends of a run whose polling and channel lookups succeed. *)
Lemma check_for_new_events_trace w messages w1 d o :
    RocketPool.loaded (cog w) = true ->
    for_each_filter W 0 (RocketPool.events (cog w)) [] w = (Ok messages, w1) ->
    fetch_channel W (getenv W "DEFAULT_CHANNEL") = Ok d ->
    fetch_channel W (getenv W "ODAO_CHANNEL") = Ok o ->
    trace (snd (check_for_new_events W w)) =
      trace w1 ++ map (route d o) (attempted W d o (sorted_by_score messages)).
  Proof.
    intros L F D O. rewrite check_for_new_events_unfold, L, F, D, O. cbn [negb].
    pose proof (send_all_spec W d o (sorted_by_score messages) w1) as S.
    destruct (send_all W d o (sorted_by_score messages) w1) as [[[]|err] w2];
      cbn [snd] in *; subst w2; reflexivity.
  Qed.
End Dispatch.

(** ** Polls in which at most one filter returns entries *)

Section SingleFilter.
  Variable W : Env.

Lemma for_each_filter_quiet : forall filters i messages w,
    (forall j, i <= j < i + List.length filters -> get_new_entries W j = Ok []) ->
    for_each_filter W i filters messages w = (Ok messages, w).
  Proof.
    induction filters as [|f rest IH]; intros i messages w H; [reflexivity|].
    rewrite for_each_filter_cons, (H i) by (cbn [List.length]; lia).
    cbn [rev for_each_entry]. unfold ret.
    apply IH. intros j Hj. apply H. cbn [List.length]. lia.
  Qed.

Lemma for_each_filter_single : forall filters i i0 entries messages w,
    i <= i0 < i + List.length filters ->
    get_new_entries W i0 = Ok entries ->
    (forall j, i <= j < i + List.length filters -> j <> i0 -> get_new_entries W j = Ok []) ->
    for_each_filter W i filters messages w = for_each_entry W (rev entries) messages w.
  Proof.
    induction filters as [|f rest IH]; intros i i0 entries messages w Hi G H.
    - cbn [List.length] in Hi. lia.
    - rewrite for_each_filter_cons. cbn [List.length] in *.
      destruct (Nat.eq_dec i i0) as [->|Hne].
      + rewrite G.
        destruct (for_each_entry W (rev entries) messages w) as [[messages1|err] w1];
          [|reflexivity].
        apply for_each_filter_quiet. intros j Hj. apply H; lia.
      + rewrite (H i) by lia. cbn [rev for_each_entry]. unfold ret.
        apply (IH (S i) i0 entries); [lia | assumption |].
        intros j Hj Hne'. apply H; lia.
  Qed.
End SingleFilter.

(** C1 (as amended).  The sends of one run of [check_for_new_events] are
    those of a batch of messages in non-decreasing score order, each message
    built from a polled event and carrying the score of that event, the
    binary64 result of [blockNumber + transactionIndex / 1000].  In
    particular, when one filter returns two fresh, declared events of the
    same block [B], [0 <= B < 2^43 - 1], with transaction indices 2 and 5
    (in either order), the embed of index 2 is sent first and the embed of
    index 5 second. *)
Theorem C1_dispatch_in_score_order :
  (forall W w,
     exists d o batch,
       trace (snd (check_for_new_events W w)) = trace w ++ map (route d o) batch /\
       StronglySorted score_le batch /\
       Forall (fun m => exists event, polled W (cog w) event /\
                                      message_of W (cog w) event m) batch)
  /\
  (forall W w i0 addr ty args2 args5 B h2 h5 name emb2 emb5 d o (newest_first : bool),
     let e2 := {| Event.address := addr; Event.event := ty; Event.args := args2;
                  Event.blockNumber := B; Event.transactionIndex := 2;
                  Event.transactionHash := h2 |} in
     let e5 := {| Event.address := addr; Event.event := ty; Event.args := args5;
                  Event.blockNumber := B; Event.transactionIndex := 5;
                  Event.transactionHash := h5 |} in
     let channel := if PyStr.contains "odao" name then o else d in
     (0 <= B < 2 ^ 43 - 1)%Z ->
     RocketPool.loaded (cog w) = true ->
     i0 < List.length (RocketPool.events (cog w)) ->
     get_new_entries W i0 = Ok (if newest_first then [e5; e2] else [e2; e5]) ->
     (forall j, j < List.length (RocketPool.events (cog w)) -> j <> i0 ->
                get_new_entries W j = Ok []) ->
     display_name (cog w) e2 = Some name ->
     h2 <> h5 ->
     in_cache h2 (RocketPool.tnx_cache (cog w)) = false ->
     in_cache h5 (RocketPool.tnx_cache (cog w)) = false ->
     create_embed W (cog w) name e2 = Ok emb2 ->
     create_embed W (cog w) name e5 = Ok emb5 ->
     fetch_channel W (getenv W "DEFAULT_CHANNEL") = Ok d ->
     fetch_channel W (getenv W "ODAO_CHANNEL") = Ok o ->
     send W channel emb2 = Ok tt ->
     trace (snd (check_for_new_events W w)) =
       trace w ++ [Send channel emb2; Send channel emb5]).
Proof.
  split.
  - intros W w. destruct (RocketPool.loaded (cog w)) eqn:L.
    + destruct (check_for_new_events_spec W w L)
        as (evs & ms & batch & d & o & k & M & P & _ & _ & B & T & _).
      exists d, o, batch. split; [exact T|]. split.
      * subst batch. apply StronglySorted_firstn, sorted_by_score_sorted.
      * apply Forall_forall. intros m Hm. subst batch.
        apply In_firstn in Hm.
        apply (Permutation_in _ (Permutation_sym (sorted_by_score_perm ms))) in Hm.
        destruct (Forall2_In_r _ _ _ _ M Hm) as (ev & Hev & HR).
        rewrite Forall_forall in P. eauto.
    + exists "", "", []. rewrite check_for_new_events_unfold, L. cbn.
      rewrite app_nil_r. repeat constructor.
  - intros W w i0 addr ty args2 args5 B h2 h5 name emb2 emb5 d o newest_first
           e2 e5 channel HB L EV G Q D2 Hne C2 C5 CE2 CE5 FD FO S2.
    assert (D5 : display_name (cog w) e5 = Some name) by exact D2.
    assert (Lt : (event_score e2 < event_score e5)%Q)
      by (apply event_score_lex_lt; cbn; lia).
    pose proof (Qltb_lt _ _ Lt) as Lt1.
    assert (Lt2 : Qltb (event_score e5) (event_score e2) = false).
    { unfold Qltb. apply negb_false_iff, Qle_bool_iff, Qlt_le_weak, Lt. }
    set (m2 := {| score := event_score e2; embed := emb2; event_name := name |}).
    set (m5 := {| score := event_score e5; embed := emb5; event_name := name |}).
    assert (N25 : String.eqb h2 h5 = false) by now apply String.eqb_neq.
    assert (N52 : String.eqb h5 h2 = false) by (apply String.eqb_neq; congruence).
    assert (F : exists messages w1,
               for_each_filter W 0 (RocketPool.events (cog w)) [] w = (Ok messages, w1) /\
               trace w1 = trace w /\ sorted_by_score messages = [m2; m5]).
    { rewrite (for_each_filter_single W _ 0 i0 _ [] w (conj (Nat.le_0_l _) EV) G)
        by (intros j Hj; apply Q; lia).
      destruct newest_first; cbn [rev app]; rewrite for_each_entry_cons.
      - rewrite (handle_event_recorded W e2 [] w name emb2 D2 C2 CE2).
        rewrite for_each_entry_cons.
        erewrite (handle_event_recorded W e5 _ _ name emb5); [| exact D5 | | exact CE5].
        + cbv iota beta. do 2 eexists. split; [reflexivity|]. split; [reflexivity|].
          fold m2 m5. cbn [app sorted_by_score insert_by_score score m2 m5].
          now rewrite Lt2.
        + change (in_cache h5 (RocketPool.tnx_cache (cog w) ++ [h2]) = false).
          rewrite in_cache_app, C5. cbn. now rewrite N52.
      - rewrite (handle_event_recorded W e5 [] w name emb5 D5 C5 CE5).
        rewrite for_each_entry_cons.
        erewrite (handle_event_recorded W e2 _ _ name emb2); [| exact D2 | | exact CE2].
        + cbv iota beta. do 2 eexists. split; [reflexivity|]. split; [reflexivity|].
          fold m2 m5. cbn [app sorted_by_score insert_by_score score m2 m5].
          now rewrite Lt1.
        + change (in_cache h2 (RocketPool.tnx_cache (cog w) ++ [h5]) = false).
          rewrite in_cache_app, C2. cbn. now rewrite N25. }
    destruct F as (messages & w1 & F & T & SB).
    rewrite (check_for_new_events_trace W w messages w1 d o L F FD FO), SB, T.
    cbn [attempted m2 m5 event_name embed]. fold channel. rewrite S2.
    cbn [map route event_name embed]. fold channel.
    destruct (send W channel emb5); reflexivity.
Qed.

Lemma C1_witness :
  let W := Fixture.env
             (Fixture.first_filter [Fixture.deposit "0xbb" 100 5 E18; Fixture.deposit "0xaa" 100 2 E18])
             Fixture.send_ok in
  trace (snd (check_for_new_events W Fixture.started)) =
    [ Send "DEFAULT_CHANNEL" (Fixture.deposit_embed "0xaa" 100 2 E18);
      Send "DEFAULT_CHANNEL" (Fixture.deposit_embed "0xbb" 100 5 E18) ].
Proof.
  intros W.
  exact (proj2 C1_dispatch_in_score_order W Fixture.started
           0
           "0xrocketDepositPool" "DepositReceived"
           (Event.args (Fixture.deposit "0xaa" 100 2 E18))
           (Event.args (Fixture.deposit "0xbb" 100 5 E18))
           100%Z "0xaa" "0xbb" "pool_deposit_event"
           (Fixture.deposit_embed "0xaa" 100 2 E18) (Fixture.deposit_embed "0xbb" 100 5 E18)
           "DEFAULT_CHANNEL" "ODAO_CHANNEL" true
           (conj (proj1 (Z.leb_le 0 100) eq_refl) (proj1 (Z.ltb_lt 100 (2 ^ 43 - 1)) eq_refl))
           eq_refl (le_n_S _ _ (Nat.le_0_l _)) eq_refl
           (fun j _ Hj => match j as n return n <> 0 -> Fixture.first_filter _ n = Ok []
                          with O => fun H => False_ind _ (H eq_refl) | S _ => fun _ => eq_refl end Hj)
           eq_refl
           (fun H => eq_ind "0xaa" (fun s => if String.eqb s "0xaa" then True else False) I _ H)
           eq_refl eq_refl eq_refl eq_refl eq_refl eq_refl eq_refl).
Defined.

(** C1, the claim as stated fails: from block [2^46] on, the scores of
    transaction indices 2 and 5 of one block are the same binary64 number.
    The sort is stable, so the two embeds are sent in the order in which
    they were collected: when the filter returns index 2 before index 5,
    the reversed iteration collects index 5 first, and its embed is sent
    first. *)
Lemma C1_counterexample :
  let B := (2 ^ 46)%Z in
  let W := Fixture.env
             (Fixture.first_filter [Fixture.deposit "0xaa" B 2 E18; Fixture.deposit "0xbb" B 5 E18])
             Fixture.send_ok in
  event_score (Fixture.deposit "0xaa" B 2 E18) = inject_Z B /\
  event_score (Fixture.deposit "0xbb" B 5 E18) = inject_Z B /\
  fst (check_for_new_events W Fixture.started) = Ok tt /\
  trace (snd (check_for_new_events W Fixture.started)) =
    [ Send "DEFAULT_CHANNEL" (Fixture.deposit_embed "0xbb" B 5 E18);
      Send "DEFAULT_CHANNEL" (Fixture.deposit_embed "0xaa" B 2 E18) ].
Proof. vm_compute. repeat split. Qed.

(** ** Deduplication and the mapping check *)

Lemma In_last_n {A} (x : A) n l : In x (last_n n l) -> In x l.
Proof.
  unfold last_n. intros H. rewrite <- (firstn_skipn (List.length l - n) l).
  apply in_or_app. now right.
Qed.



(** The sends and the cache after any run of [check_for_new_events]: what
    was sent are messages of polled events that were declared and whose
    hash was not in the cache; what the cache holds was there before or is
    the hash of such an event. *)
Lemma check_for_new_events_summary W w :
  exists evs d o batch,
    trace (snd (check_for_new_events W w)) = trace w ++ map (route d o) batch /\
    Forall (fun m => exists event, In event evs /\ message_of W (cog w) event m) batch /\
    Forall (polled W (cog w)) evs /\
    Forall (fun ev => in_cache (Event.transactionHash ev)
                        (RocketPool.tnx_cache (cog w)) = false) evs /\
    Forall (fun ev => exists name, display_name (cog w) ev = Some name) evs /\
    (RocketPool.tnx_cache (cog (snd (check_for_new_events W w))) =
       RocketPool.tnx_cache (cog w) ++ map Event.transactionHash evs \/
     RocketPool.tnx_cache (cog (snd (check_for_new_events W w))) =
       last_n 1000 (RocketPool.tnx_cache (cog w) ++ map Event.transactionHash evs)).
Proof.
  destruct (RocketPool.loaded (cog w)) eqn:L.
  - destruct (check_for_new_events_spec W w L)
      as (evs & ms & batch & d & o & k & M & P & Fr & _ & B & T & HOk & HErr).
    exists evs, d, o, batch.
    split; [exact T|]. split; [|split; [exact P|split; [exact Fr|split]]].
    + apply Forall_forall. intros m Hm. subst batch. apply In_firstn in Hm.
      apply (Permutation_in _ (Permutation_sym (sorted_by_score_perm ms))) in Hm.
      exact (Forall2_In_r _ _ _ _ M Hm).
    + clear -M. induction M as [|ev m evs ms (name & D & _) _ IH]; constructor; eauto.
    + destruct (fst (check_for_new_events W w)) as [[]|err] eqn:R.
      * right. destruct (HOk eq_refl) as [_ ->]. reflexivity.
      * left. rewrite (HErr err eq_refl). reflexivity.
  - exists [], "", "", []. rewrite check_for_new_events_unfold, L. cbn.
    rewrite !app_nil_r. split; [reflexivity|].
    repeat (split; [constructor|]). now left.
Qed.


(** C10.  An entry whose event type is not declared in [self.mapping] for
    its contract address leaves the world, cache included, unchanged and
    appends no message, whatever its transaction hash.  For a whole run:
    every message sent and every hash that enters the cache belongs to a
    polled event whose type is declared. *)
Theorem C10_undeclared_event_is_ignored :
  (forall W w event messages,
     display_name (cog w) event = None ->
     snd (handle_event W event messages w) = w /\
     (fst (handle_event W event messages w) = Ok messages \/
      fst (handle_event W event messages w) = Raise (KeyError (Event.address event))))
  /\
  (forall W w,
     exists d o batch,
       trace (snd (check_for_new_events W w)) = trace w ++ map (route d o) batch /\
       Forall (fun m => exists event name,
                          polled W (cog w) event /\ message_of W (cog w) event m /\
                          display_name (cog w) event = Some name) batch /\
       (forall h,
          In h (RocketPool.tnx_cache (cog (snd (check_for_new_events W w)))) ->
          In h (RocketPool.tnx_cache (cog w)) \/
          exists event name,
            polled W (cog w) event /\ display_name (cog w) event = Some name /\
            Event.transactionHash event = h)).
Proof.
  split.
  - intros W w event messages D. unfold display_name in D.
    destruct (PyDict.get (Event.address event) (RocketPool.mapping (cog w))) as [names|] eqn:E.
    + rewrite (handle_event_undeclared W _ _ _ _ E); [auto|].
      unfold PyDict.mem. now rewrite D.
    + rewrite (handle_event_unmapped W _ _ _ E). auto.
  - intros W w.
    destruct (check_for_new_events_summary W w)
      as (evs & d & o & batch & T & B & P & Fr & Dec & Hc).
    rewrite Forall_forall in P, Dec.
    exists d, o, batch. split; [exact T|]. split.
    + eapply Forall_impl; [|exact B]. intros m (event & Hin & Hm).
      destruct (Dec _ Hin) as (name & D). exists event, name. auto.
    + intros h Hh.
      assert (Hin : In h (RocketPool.tnx_cache (cog w) ++ map Event.transactionHash evs)).
      { destruct Hc as [E|E]; rewrite E in Hh; [assumption | now apply In_last_n in Hh]. }
      apply in_app_or in Hin as [Hin|Hin]; [now left | right].
      apply in_map_iff in Hin as (event & <- & Hev).
      destruct (Dec _ Hev) as (name & D). exists event, name. auto.
Qed.


(** The same two polls, evaluated: the second poll sends nothing and the
    cache still holds the hash once. *)
Lemma two_polls_same_hash :
  let W1 := Fixture.env (Fixture.first_filter [Fixture.deposit "0xaa" 100 2 E18]) Fixture.send_ok in
  let W2 := Fixture.env (Fixture.first_filter [Fixture.deposit "0xaa" 101 0 E18]) Fixture.send_ok in
  let w1 := tick W1 Fixture.started in
  trace w1 = [Send "DEFAULT_CHANNEL" (Fixture.deposit_embed "0xaa" 100 2 E18)] /\
  tick W2 w1 = w1 /\
  RocketPool.tnx_cache (cog w1) = ["0xaa"].
Proof. vm_compute. repeat split. Qed.

Lemma C10_witness :
  let W := Fixture.env (Fixture.first_filter [Fixture.undeclared "0xcc"]) Fixture.send_ok in
  display_name (cog Fixture.started) (Fixture.undeclared "0xcc") = None /\
  snd (handle_event W (Fixture.undeclared "0xcc") [] Fixture.started) = Fixture.started /\
  (fst (handle_event W (Fixture.undeclared "0xcc") [] Fixture.started) = Ok [] \/
   fst (handle_event W (Fixture.undeclared "0xcc") [] Fixture.started) =
     Raise (KeyError (Event.address (Fixture.undeclared "0xcc")))).
Proof.
  intros W. split; [reflexivity|].
  exact (proj1 C10_undeclared_event_is_ignored W Fixture.started (Fixture.undeclared "0xcc") []
           eq_refl).
Defined.

(** ** Reinitialization *)

Section Init.
Variable W : Env.

(** The loops of [__init__] never touch the trace, the cache or the
    [loaded] flag, and what they do does not depend on the trace. *)
Lemma create_filters_frame address c : forall event_types self,
  exists r self',
    (forall t, create_filters W address c event_types {| cog := self; trace := t |} =
               (r, {| cog := self'; trace := t |})) /\
    RocketPool.tnx_cache self' = RocketPool.tnx_cache self /\
    RocketPool.loaded self' = RocketPool.loaded self.
Proof.
  induction event_types as [|event rest IH]; intros self.
  - exists (Ok tt), self. repeat split.
  - cbn [create_filters]. unfold bind, lift, on_self, modify.
    destruct (createFilter W c event) as [[]|err].
    + cbn [cog trace].
      destruct (IH (set_events (RocketPool.events self ++
                      [{| filter_address := address; filter_event := event |}]) self))
        as (r & self' & H & Hc & Hl).
      exists r, self'. split; [|split; assumption].
      intros t. apply H.
    + exists (Raise err), self. repeat split.
Qed.

Lemma load_sources_frame : forall srcs self,
  exists r self',
    (forall t, load_sources W srcs {| cog := self; trace := t |} =
               (r, {| cog := self'; trace := t |})) /\
    RocketPool.tnx_cache self' = RocketPool.tnx_cache self /\
    RocketPool.loaded self' = RocketPool.loaded self.
Proof.
  induction srcs as [|[name events] rest IH]; intros self.
  - exists (Ok tt), self. repeat split.
  - cbn [load_sources]. unfold bind, lift, on_self, modify, self_. cbn [cog trace].
    destruct (get_address_from_storage_contract W self name) as [address|err];
      [|exists (Raise err), self; repeat split].
    destruct (read_abi W _) as [abi|err]; [|exists (Raise err), self; repeat split].
    set (c := {| contract_address := address; contract_abi := abi |}).
    set (self1 := set_contracts _ self).
    destruct (create_filters_frame address c (PyDict.keys events) self1)
      as (r1 & self2 & H1 & Hc1 & Hl1).
    destruct r1 as [[]|err].
    + destruct (IH (set_mapping (PyDict.set address events (RocketPool.mapping self2)) self2))
        as (r & self' & H & Hc & Hl).
      exists r, self'. split; [|split].
      * intros t. rewrite H1. cbn [cog trace]. apply H.
      * rewrite Hc. cbn. exact Hc1.
      * rewrite Hl. cbn. exact Hl1.
    + exists (Raise err), self2. split; [|split; assumption].
      intros t. now rewrite H1.
Qed.

(** [__init__] behaves the same on every object: its result is fixed by
    the environment, it never touches the trace, it always leaves an empty
    cache, and when it succeeds the attributes it leaves are fixed too. *)
Lemma init_outcome :
  exists r fresh,
    forall w,
      exists self',
        __init__ W w = (r, {| cog := self'; trace := trace w |}) /\
        RocketPool.tnx_cache self' = [] /\
        RocketPool.loaded self' = true /\
        (r = Ok tt -> self' = fresh).
Proof.
  unfold __init__, bind, lift, on_self, modify. cbn [cog trace].
  destruct (connect W) as [[]|err].
  2:{ exists (Raise err), blank. intros w. eexists. split; [reflexivity|].
      repeat split. discriminate. }
  destruct (load_config W) as [config|err].
  2:{ exists (Raise err), blank. intros w. eexists. split; [reflexivity|].
      repeat split. discriminate. }
  destruct (read_abi W _) as [abi|err].
  2:{ exists (Raise err), blank. intros w. eexists. split; [reflexivity|].
      repeat split. discriminate. }
  set (start := {| RocketPool.loaded := true; RocketPool.tnx_cache := [];
                   RocketPool.contracts := []; RocketPool.events := [];
                   RocketPool.mapping := [];
                   RocketPool.storage_contract :=
                     {| contract_address := storage_address config; contract_abi := abi |} |}).
  destruct (load_sources_frame (PyDict.items (sources config)) start)
    as (r & self' & H & Hc & Hl).
  exists r, self'. intros w. exists self'.
  split; [|repeat split; assumption].
  apply (H (trace w)).
Qed.

End Init.

Lemma setup_outcome W r fresh :
  (forall w, exists self',
      __init__ W w = (r, {| cog := self'; trace := trace w |}) /\
      RocketPool.tnx_cache self' = [] /\
      RocketPool.loaded self' = true /\
      (r = Ok tt -> self' = fresh)) ->
  match r with
  | Ok _ => setup W = Ok {| cog := fresh; trace := [] |}
  | Raise err => setup W = Raise err
  end.
Proof.
  intros H. unfold setup.
  destruct (H {| cog := blank; trace := [] |}) as (self' & E & _ & _ & F).
  rewrite E. destruct r as [[]|err]; [|reflexivity].
  now rewrite (F eq_refl).
Qed.

(** [reinitialize] in terms of what [setup] would do in the same
    environment. *)
Lemma reinitialize_ok W w w0 :
  setup W = Ok w0 ->
  reinitialize W w = (Ok tt, {| cog := cog w0; trace := trace w |}).
Proof.
  destruct (init_outcome W) as (r & fresh & H).
  pose proof (setup_outcome W r fresh H) as S.
  intros E. unfold reinitialize.
  destruct (H w) as (self' & I & _ & _ & F). rewrite I.
  destruct r as [[]|err]; [|congruence].
  rewrite S in E. injection E as <-. now rewrite (F eq_refl).
Qed.

Lemma reinitialize_failed W w err :
  setup W = Raise err ->
  fst (reinitialize W w) = Ok tt /\
  RocketPool.loaded (cog (snd (reinitialize W w))) = false /\
  RocketPool.tnx_cache (cog (snd (reinitialize W w))) = [] /\
  trace (snd (reinitialize W w)) = trace w ++ [LogException err].
Proof.
  destruct (init_outcome W) as (r & fresh & H).
  pose proof (setup_outcome W r fresh H) as S.
  intros E. unfold reinitialize.
  destruct (H w) as (self' & I & C & _ & _). rewrite I.
  destruct r as [[]|err']; [congruence|].
  rewrite S in E. injection E as ->.
  unfold bind, on_self, emit, modify. cbn. auto.
Qed.

Lemma reinitialize_cache W w :
  fst (reinitialize W w) = Ok tt /\
  RocketPool.tnx_cache (cog (snd (reinitialize W w))) = [].
Proof.
  destruct (setup W) as [w0|err] eqn:S.
  - rewrite (reinitialize_ok W w w0 S). cbn. split; [reflexivity|].
    destruct (init_outcome W) as (r & fresh & H).
    pose proof (setup_outcome W r fresh H) as S'.
    destruct (H w) as (self' & _ & C & _ & F).
    destruct r as [[]|err]; [|congruence].
    rewrite S in S'. injection S' as ->. cbn. now rewrite <- (F eq_refl).
  - destruct (reinitialize_failed W w err S) as (A & _ & C & _). auto.
Qed.

Lemma setup_loaded W w0 : setup W = Ok w0 -> RocketPool.loaded (cog w0) = true.
Proof.
  destruct (init_outcome W) as (r & fresh & H).
  pose proof (setup_outcome W r fresh H) as S.
  destruct (H {| cog := blank; trace := [] |}) as (self' & _ & _ & L & F).
  intros E. destruct r as [[]|err]; [|congruence].
  rewrite S in E. injection E as <-. cbn. now rewrite <- (F eq_refl).
Qed.

Lemma setup_cache W w0 : setup W = Ok w0 -> RocketPool.tnx_cache (cog w0) = [].
Proof.
  destruct (init_outcome W) as (r & fresh & H).
  pose proof (setup_outcome W r fresh H) as S.
  destruct (H {| cog := blank; trace := [] |}) as (self' & _ & C & _ & F).
  intros E. destruct r as [[]|err]; [|congruence].
  rewrite S in E. injection E as <-. cbn. now rewrite <- (F eq_refl).
Qed.

(** ** One tick *)

Lemma run_loop_loaded_ok W w :
  RocketPool.loaded (cog w) = true ->
  fst (check_for_new_events W w) = Ok tt ->
  run_loop W w = (Ok tt, snd (check_for_new_events W w)).
Proof.
  intros L R. unfold run_loop. rewrite L.
  destruct (check_for_new_events W w) as [[[]|err] w']; [reflexivity | discriminate].
Qed.

Lemma run_loop_loaded_raise W w err :
  RocketPool.loaded (cog w) = true ->
  fst (check_for_new_events W w) = Raise err ->
  run_loop W w =
    reinitialize W
      {| cog := set_loaded false (cog (snd (check_for_new_events W w)));
         trace := trace (snd (check_for_new_events W w)) ++ [LogException err] |}.
Proof.
  intros L R. unfold run_loop. rewrite L.
  destruct (check_for_new_events W w) as [[[]|err'] w']; cbn [fst snd] in *; [discriminate|].
  injection R as ->. reflexivity.
Qed.

Lemma run_loop_unloaded W w :
  RocketPool.loaded (cog w) = false -> run_loop W w = reinitialize W w.
Proof. intros L. unfold run_loop. now rewrite L. Qed.

(** C4 (as amended).  [run_loop] never raises.  A constructed cog starts
    loaded.  A tick on a loaded cog whose check completes is just that
    check.  A tick on a loaded cog whose check raises logs the exception
    and runs the constructor again in the same tick; a tick on a cog that is
    not loaded only runs the constructor.  When the constructor succeeds
    the cog ends the tick loaded, with exactly the attributes a fresh
    construction from the configuration gives; when it raises, that
    exception is logged too and the cog ends the tick not loaded. *)
Theorem C4_supervisor :
  (forall W w, fst (run_loop W w) = Ok tt) /\
  (forall W w0, setup W = Ok w0 -> RocketPool.loaded (cog w0) = true) /\
  (forall W w,
     RocketPool.loaded (cog w) = true ->
     fst (check_for_new_events W w) = Ok tt ->
     tick W w = snd (check_for_new_events W w) /\
     RocketPool.loaded (cog (tick W w)) = true) /\
  (forall W w err,
     RocketPool.loaded (cog w) = true ->
     fst (check_for_new_events W w) = Raise err ->
     (forall w0, setup W = Ok w0 ->
        cog (tick W w) = cog w0 /\
        RocketPool.loaded (cog (tick W w)) = true /\
        trace (tick W w) = trace (snd (check_for_new_events W w)) ++ [LogException err]) /\
     (forall err2, setup W = Raise err2 ->
        RocketPool.loaded (cog (tick W w)) = false /\
        trace (tick W w) =
          trace (snd (check_for_new_events W w)) ++ [LogException err; LogException err2])) /\
  (forall W w,
     RocketPool.loaded (cog w) = false ->
     (forall w0, setup W = Ok w0 ->
        cog (tick W w) = cog w0 /\
        RocketPool.loaded (cog (tick W w)) = true /\
        trace (tick W w) = trace w) /\
     (forall err2, setup W = Raise err2 ->
        RocketPool.loaded (cog (tick W w)) = false /\
        trace (tick W w) = trace w ++ [LogException err2])).
Proof.
  split; [|split; [|split; [|split]]].
  - intros W w. destruct (RocketPool.loaded (cog w)) eqn:L.
    + destruct (fst (check_for_new_events W w)) as [[]|err] eqn:R.
      * now rewrite (run_loop_loaded_ok W w L R).
      * rewrite (run_loop_loaded_raise W w err L R). apply reinitialize_cache.
    + rewrite (run_loop_unloaded W w L). apply reinitialize_cache.
  - apply setup_loaded.
  - intros W w L R. unfold tick. rewrite (run_loop_loaded_ok W w L R). cbn [snd].
    split; [reflexivity|].
    destruct (check_for_new_events_spec W w L)
      as (evs & ms & batch & d & o & k & _ & _ & _ & _ & _ & _ & HOk & _).
    destruct (HOk R) as [_ ->]. exact L.
  - intros W w err L R. unfold tick. rewrite (run_loop_loaded_raise W w err L R). split.
    + intros w0 S. rewrite (reinitialize_ok W _ w0 S). cbn.
      repeat split. apply (setup_loaded W w0 S).
    + intros err2 S.
      destruct (reinitialize_failed W
                  {| cog := set_loaded false (cog (snd (check_for_new_events W w)));
                     trace := trace (snd (check_for_new_events W w)) ++ [LogException err] |}
                  err2 S) as (_ & Lf & _ & T).
      split; [exact Lf|]. rewrite T. cbn. now rewrite <- app_assoc.
  - intros W w L. unfold tick. rewrite (run_loop_unloaded W w L). split.
    + intros w0 S. rewrite (reinitialize_ok W _ w0 S). cbn.
      repeat split. apply (setup_loaded W w0 S).
    + intros err2 S. destruct (reinitialize_failed W w err2 S) as (_ & Lf & _ & T). auto.
Qed.

(** C4, the claim as stated fails: a loaded cog that has delivered one
    deposit meets a transport error while polling.  At the end of that
    same tick the cog is loaded again and already rebuilt (its attributes
    are those of a fresh construction, the cache is empty); the tick after
    it polls and does not rebuild, although the configuration on disk has
    changed in the meantime. *)
Lemma C4_counterexample :
  let W_deposit := Fixture.env (Fixture.first_filter [Fixture.deposit "0xaa" 100 2 E18])
                               Fixture.send_ok in
  let W_error := Fixture.env Fixture.transport_error Fixture.send_ok in
  let W_next := Fixture.env_cfg Fixture.cfg2 Fixture.no_entries Fixture.send_ok in
  let w := tick W_deposit Fixture.started in
  RocketPool.loaded (cog w) = true /\
  RocketPool.tnx_cache (cog w) = ["0xaa"] /\
  fst (check_for_new_events W_error w) = Raise (ExternalError "ConnectionClosed") /\
  RocketPool.loaded (cog (tick W_error w)) = true /\
  cog (tick W_error w) = cog Fixture.started /\
  trace (tick W_error w) = trace w ++ [LogException (ExternalError "ConnectionClosed")] /\
  tick W_next (tick W_error w) = tick W_error w /\
  (exists w2, setup W_next = Ok w2 /\ cog w2 <> cog (tick W_error w)).
Proof.
  vm_compute. repeat split.
  eexists. split; [reflexivity|]. discriminate.
Qed.

Lemma C4_witness :
  let W_deposit := Fixture.env (Fixture.first_filter [Fixture.deposit "0xaa" 100 2 E18])
                               Fixture.send_ok in
  let W_error := Fixture.env Fixture.transport_error Fixture.send_ok in
  let w := tick W_deposit Fixture.started in
  RocketPool.loaded (cog w) = true /\
  fst (check_for_new_events W_error w) = Raise (ExternalError "ConnectionClosed") /\
  setup W_error = Ok Fixture.started /\
  cog (tick W_error w) = cog Fixture.started /\
  RocketPool.loaded (cog (tick W_error w)) = true /\
  trace (tick W_error w) =
    trace (snd (check_for_new_events W_error w)) ++ [LogException (ExternalError "ConnectionClosed")].
Proof.
  intros W_deposit W_error w.
  split; [reflexivity|]. split; [reflexivity|]. split; [reflexivity|].
  exact (proj1 (proj1 (proj2 (proj2 (proj2 C4_supervisor)))
                  W_error w (ExternalError "ConnectionClosed") eq_refl eq_refl)
               Fixture.started eq_refl).
Defined.

(** ** Polling an empty source *)

Lemma check_for_new_events_idle W w :
  (forall i, i < List.length (RocketPool.events (cog w)) -> get_new_entries W i = Ok []) ->
  List.length (RocketPool.tnx_cache (cog w)) <= 1000 ->
  snd (check_for_new_events W w) = w.
Proof.
  intros Q B. rewrite check_for_new_events_unfold.
  destruct (negb (RocketPool.loaded (cog w))); [reflexivity|].
  rewrite (for_each_filter_quiet W _ 0 [] w) by (intros j Hj; apply Q; lia).
  destruct (fetch_channel W (getenv W "DEFAULT_CHANNEL")); [|reflexivity].
  destruct (fetch_channel W (getenv W "ODAO_CHANNEL")); [|reflexivity].
  cbn [sorted_by_score send_all ret snd].
  rewrite (last_n_short _ _ B). apply with_cache_same.
Qed.

(** C8.  When every filter returns no entries and the cache holds at most
    1000 hashes, a run of [check_for_new_events] leaves the world as it was:
    nothing is sent and the cache is unchanged; so does a second run after
    it. *)
Theorem C8_empty_poll_is_idle :
  (forall W w,
     (forall i, i < List.length (RocketPool.events (cog w)) -> get_new_entries W i = Ok []) ->
     List.length (RocketPool.tnx_cache (cog w)) <= 1000 ->
     trace (snd (check_for_new_events W w)) = trace w /\
     RocketPool.tnx_cache (cog (snd (check_for_new_events W w))) = RocketPool.tnx_cache (cog w) /\
     snd (check_for_new_events W w) = w)
  /\
  (forall W1 W2 w,
     (forall i, i < List.length (RocketPool.events (cog w)) -> get_new_entries W1 i = Ok []) ->
     (forall i, i < List.length (RocketPool.events (cog w)) -> get_new_entries W2 i = Ok []) ->
     List.length (RocketPool.tnx_cache (cog w)) <= 1000 ->
     let w1 := snd (check_for_new_events W1 w) in
     trace (snd (check_for_new_events W2 w1)) = trace w /\
     RocketPool.tnx_cache (cog (snd (check_for_new_events W2 w1))) = RocketPool.tnx_cache (cog w) /\
     snd (check_for_new_events W2 w1) = w).
Proof.
  split.
  - intros W w Q B. now rewrite (check_for_new_events_idle W w Q B).
  - intros W1 W2 w Q1 Q2 B w1. subst w1.
    rewrite (check_for_new_events_idle W1 w Q1 B).
    now rewrite (check_for_new_events_idle W2 w Q2 B).
Qed.

Lemma C8_witness :
  let w := tick (Fixture.env (Fixture.first_filter [Fixture.deposit "0xaa" 100 2 E18])
                             Fixture.send_ok) Fixture.started in
  let w1 := snd (check_for_new_events Fixture.quiet w) in
  RocketPool.tnx_cache (cog w) = ["0xaa"] /\
  trace (snd (check_for_new_events Fixture.quiet w1)) = trace w /\
  RocketPool.tnx_cache (cog (snd (check_for_new_events Fixture.quiet w1))) =
    RocketPool.tnx_cache (cog w) /\
  snd (check_for_new_events Fixture.quiet w1) = w.
Proof.
  intros w w1. split; [reflexivity|].
  apply (proj2 C8_empty_poll_is_idle Fixture.quiet Fixture.quiet w).
  - intros i _. reflexivity.
  - intros i _. reflexivity.
  - change (1 <= 1000). lia.
Defined.

(** ** Recovery forgets the cache *)

Lemma tick_recovers W w err w0 :
  RocketPool.loaded (cog w) = true ->
  fst (check_for_new_events W w) = Raise err ->
  setup W = Ok w0 ->
  cog (tick W w) = cog w0 /\
  RocketPool.loaded (cog (tick W w)) = true /\
  trace (tick W w) = trace (snd (check_for_new_events W w)) ++ [LogException err].
Proof.
  intros L R S. unfold tick.
  rewrite (run_loop_loaded_raise W w err L R), (reinitialize_ok W _ w0 S). cbn.
  repeat split. apply (setup_loaded W w0 S).
Qed.

(** C9.  Reinitialization always leaves an empty cache.  So after a tick
    in which the check raised and the constructor succeeded, an event whose
    transaction hash was in the cache before the failure is recorded and
    its embed sent when a filter returns it (provided its type is declared
    and the embed and the channels can be built). *)
Theorem C9_reinit_forgets_seen_hashes :
  (forall W w, RocketPool.tnx_cache (cog (snd (reinitialize W w))) = []) /\
  (forall W1 W2 w w0 err i0 event name emb d o,
     RocketPool.loaded (cog w) = true ->
     In (Event.transactionHash event) (RocketPool.tnx_cache (cog w)) ->
     fst (check_for_new_events W1 w) = Raise err ->
     setup W1 = Ok w0 ->
     let w1 := tick W1 w in
     i0 < List.length (RocketPool.events (cog w1)) ->
     get_new_entries W2 i0 = Ok [event] ->
     (forall j, j < List.length (RocketPool.events (cog w1)) -> j <> i0 ->
                get_new_entries W2 j = Ok []) ->
     display_name (cog w1) event = Some name ->
     create_embed W2 (cog w1) name event = Ok emb ->
     fetch_channel W2 (getenv W2 "DEFAULT_CHANNEL") = Ok d ->
     fetch_channel W2 (getenv W2 "ODAO_CHANNEL") = Ok o ->
     RocketPool.loaded (cog w1) = true /\
     RocketPool.tnx_cache (cog w1) = [] /\
     trace (snd (check_for_new_events W2 w1)) =
       trace w1 ++ [Send (if PyStr.contains "odao" name then o else d) emb]).
Proof.
  split; [intros W w; apply reinitialize_cache|].
  intros W1 W2 w w0 err i0 event name emb d o L Seen R S w1 Hi G Q D CE FD FO.
  destruct (tick_recovers W1 w err w0 L R S) as (Hc & Hl & _). fold w1 in Hc, Hl.
  assert (C : RocketPool.tnx_cache (cog w1) = [])
    by (rewrite Hc; apply (setup_cache W1 w0 S)).
  split; [exact Hl|]. split; [exact C|].
  assert (F : for_each_filter W2 0 (RocketPool.events (cog w1)) [] w1 =
              (Ok [ {| score := event_score event; embed := emb; event_name := name |} ],
               with_cache (RocketPool.tnx_cache (cog w1) ++ [Event.transactionHash event]) w1)).
  { rewrite (for_each_filter_single W2 _ 0 i0 [event] [] w1 (conj (Nat.le_0_l _) Hi) G)
      by (intros j Hj; apply Q; lia).
    cbn [rev app]. rewrite for_each_entry_cons.
    rewrite (handle_event_recorded W2 event [] w1 name emb D); [reflexivity| |exact CE].
    now rewrite C. }
  rewrite (check_for_new_events_trace W2 w1 _ _ d o Hl F FD FO).
  cbn [sorted_by_score insert_by_score attempted event_name embed with_cache trace].
  destruct (send W2 _ emb); reflexivity.
Qed.

Lemma C9_witness :
  let W_deposit := Fixture.env (Fixture.first_filter [Fixture.deposit "0xaa" 100 2 E18])
                               Fixture.send_ok in
  let W1 := Fixture.env Fixture.transport_error Fixture.send_ok in
  let W2 := Fixture.env (Fixture.first_filter [Fixture.deposit "0xaa" 101 0 E18])
                        Fixture.send_ok in
  let w := tick W_deposit Fixture.started in
  let w1 := tick W1 w in
  In "0xaa" (RocketPool.tnx_cache (cog w)) /\
  RocketPool.loaded (cog w1) = true /\
  RocketPool.tnx_cache (cog w1) = [] /\
  trace (snd (check_for_new_events W2 w1)) =
    trace w1 ++ [Send "DEFAULT_CHANNEL" (Fixture.deposit_embed "0xaa" 101 0 E18)].
Proof.
  intros W_deposit W1 W2 w w1.
  assert (Seen : In "0xaa" (RocketPool.tnx_cache (cog w))) by (left; reflexivity).
  split; [exact Seen|].
  apply (proj2 C9_reinit_forgets_seen_hashes W1 W2 w Fixture.started
           (ExternalError "ConnectionClosed") 0 (Fixture.deposit "0xaa" 101 0 E18)
           "pool_deposit_event" (Fixture.deposit_embed "0xaa" 101 0 E18)
           "DEFAULT_CHANNEL" "ODAO_CHANNEL");
    try reflexivity.
  - exact Seen.
  - change (0 < 2). lia.
  - intros [|j] _ Hj; [contradiction Hj|]; reflexivity.
Defined.

(** ** A failing send *)

Lemma send_all_stops W d o : forall pre m post w err,
  Forall (fun x => send W (channel_of d o x) (embed x) = Ok tt) pre ->
  send W (channel_of d o m) (embed m) = Raise err ->
  send_all W d o (pre ++ m :: post) w =
    (Raise err, {| cog := cog w; trace := trace w ++ map (route d o) (pre ++ [m]) |}).
Proof.
  induction pre as [|x pre IH]; intros m post w err Hpre Hm.
  - cbn [app send_all]. unfold bind, emit, modify, lift. fold (channel_of d o m).
    rewrite Hm. reflexivity.
  - inversion Hpre as [|? ? Hx Hpre']; subst.
    cbn [app send_all]. unfold bind at 1 2. unfold emit, modify, lift.
    fold (channel_of d o x). rewrite Hx.
    rewrite (IH m post _ err Hpre' Hm). cbn [cog trace map].
    now rewrite <- app_assoc.
Qed.

(** C5 (as amended).  The dispatch loop does not catch a failing send.
    When the sends of the messages before [m] succeed and the send of [m]
    raises, the loop has attempted exactly those messages and [m]; the
    messages after [m] are never attempted.  The exception leaves
    [check_for_new_events] (the cache is not trimmed), and [run_loop] logs
    it. *)
Theorem C5_send_failure_aborts_dispatch :
  (forall W d o pre m post w err,
     Forall (fun x => send W (channel_of d o x) (embed x) = Ok tt) pre ->
     send W (channel_of d o m) (embed m) = Raise err ->
     send_all W d o (pre ++ m :: post) w =
       (Raise err, {| cog := cog w; trace := trace w ++ map (route d o) (pre ++ [m]) |}))
  /\
  (forall W w messages w1 d o pre m post err,
     RocketPool.loaded (cog w) = true ->
     for_each_filter W 0 (RocketPool.events (cog w)) [] w = (Ok messages, w1) ->
     fetch_channel W (getenv W "DEFAULT_CHANNEL") = Ok d ->
     fetch_channel W (getenv W "ODAO_CHANNEL") = Ok o ->
     sorted_by_score messages = pre ++ m :: post ->
     Forall (fun x => send W (channel_of d o x) (embed x) = Ok tt) pre ->
     send W (channel_of d o m) (embed m) = Raise err ->
     check_for_new_events W w =
       (Raise err, {| cog := cog w1; trace := trace w1 ++ map (route d o) (pre ++ [m]) |}) /\
     exists rest, trace (tick W w) =
       trace w1 ++ map (route d o) (pre ++ [m]) ++ LogException err :: rest).
Proof.
  split; [apply send_all_stops|].
  intros W w messages w1 d o pre m post err L F FD FO SB Hpre Hm.
  assert (E : check_for_new_events W w =
              (Raise err, {| cog := cog w1;
                             trace := trace w1 ++ map (route d o) (pre ++ [m]) |})).
  { rewrite check_for_new_events_unfold, L, F, FD, FO, SB. cbn [negb].
    now rewrite (send_all_stops W d o pre m post w1 err Hpre Hm). }
  split; [exact E|].
  unfold tick. rewrite (run_loop_loaded_raise W w err L) by now rewrite E.
  rewrite E. cbn [snd cog trace].
  destruct (setup W) as [w0|err2] eqn:S.
  - rewrite (reinitialize_ok W _ w0 S). cbn. exists []. now rewrite <- app_assoc.
  - destruct (reinitialize_failed W
                {| cog := set_loaded false (cog w1);
                   trace := (trace w1 ++ map (route d o) (pre ++ [m])) ++ [LogException err] |}
                err2 S) as (_ & _ & _ & T).
    rewrite T. cbn. exists [LogException err2]. now rewrite <- !app_assoc.
Qed.

(** C5, the claim as stated fails: two deposits are polled, Discord
    refuses the embed of the first in score order and would accept the
    second; only the first send is attempted, the exception is logged, and
    the second embed is never sent. *)
Lemma C5_counterexample :
  let W := Fixture.env
             (Fixture.first_filter [Fixture.deposit "0xaa" 100 2 E18; Fixture.deposit "0xbb" 100 5 E18])
             (Fixture.send_fails_on "0xaa") in
  send W "DEFAULT_CHANNEL" (Fixture.deposit_embed "0xbb" 100 5 E18) = Ok tt /\
  fst (check_for_new_events W Fixture.started) = Raise (ExternalError "discord.HTTPException") /\
  trace (tick W Fixture.started) =
    [ Send "DEFAULT_CHANNEL" (Fixture.deposit_embed "0xaa" 100 2 E18);
      LogException (ExternalError "discord.HTTPException") ].
Proof. vm_compute. repeat split. Qed.

Lemma C5_witness :
  let W := Fixture.env Fixture.no_entries (Fixture.send_fails_on "0xaa") in
  let first := {| score := event_score (Fixture.deposit "0xaa" 100 2 E18);
                  embed := Fixture.deposit_embed "0xaa" 100 2 E18;
                  event_name := "pool_deposit_event" |} in
  let second := {| score := event_score (Fixture.deposit "0xbb" 100 5 E18);
                   embed := Fixture.deposit_embed "0xbb" 100 5 E18;
                   event_name := "pool_deposit_event" |} in
  send W (channel_of "DEFAULT_CHANNEL" "ODAO_CHANNEL" first) (embed first) =
    Raise (ExternalError "discord.HTTPException") /\
  send_all W "DEFAULT_CHANNEL" "ODAO_CHANNEL" ([] ++ first :: [second]) Fixture.started =
    (Raise (ExternalError "discord.HTTPException"),
     {| cog := cog Fixture.started;
        trace := trace Fixture.started
                 ++ map (route "DEFAULT_CHANNEL" "ODAO_CHANNEL") ([] ++ [first]) |}).
Proof.
  intros W first second. split; [reflexivity|].
  exact (proj1 C5_send_failure_aborts_dispatch W "DEFAULT_CHANNEL" "ODAO_CHANNEL"
           [] first [second] Fixture.started (ExternalError "discord.HTTPException")
           (Forall_nil _) eq_refl).
Defined.

(** ** Newest first *)

Section NewestFirst.
Variable W : Env.

Lemma for_each_entry_app : forall a b messages w,
  for_each_entry W (a ++ b) messages w =
    match for_each_entry W a messages w with
    | (Ok messages', w') => for_each_entry W b messages' w'
    | (Raise err, w') => (Raise err, w')
    end.
Proof.
  induction a as [|x a IH]; intros b messages w; [reflexivity|].
  cbn [app]. rewrite !for_each_entry_cons.
  destruct (handle_event W x messages w) as [[messages1|err] w1]; [apply IH | reflexivity].
Qed.

(** A run of the inner loop changes nothing of the world but the cache,
    which only grows at its end. *)
Lemma for_each_entry_grows entries messages w :
  exists added,
    snd (for_each_entry W entries messages w) =
      with_cache (RocketPool.tnx_cache (cog w) ++ added) w /\
    (forall h, In h added -> exists ev, In ev entries /\ Event.transactionHash ev = h).
Proof.
  destruct (for_each_entry_spec W entries messages w) as (evs & ms & (_ & P & _ & _ & E) & _).
  exists (map Event.transactionHash evs). split; [exact E|].
  intros h Hh. apply in_map_iff in Hh as (ev & <- & Hev).
  rewrite Forall_forall in P. eauto.
Qed.

(** Entries whose hash is in the cache can be left out of a batch. *)
Lemma for_each_entry_skip_seen h : forall entries messages w,
  in_cache h (RocketPool.tnx_cache (cog w)) = true ->
  (forall x, In x entries -> has_hash h x = true ->
             PyDict.mem (Event.address x) (RocketPool.mapping (cog w)) = true) ->
  for_each_entry W entries messages w =
    for_each_entry W (filter (fun x => negb (has_hash h x)) entries) messages w.
Proof.
  induction entries as [|x rest IH]; intros messages w C Hm; [reflexivity|].
  cbn [filter]. destruct (has_hash h x) eqn:Hx; cbn [negb].
  - rewrite for_each_entry_cons.
    assert (M := Hm x (or_introl eq_refl) Hx).
    apply mem_get in M as (names & M).
    unfold has_hash in Hx. apply String.eqb_eq in Hx.
    rewrite (handle_event_seen W x messages w names M) by now rewrite Hx.
    apply IH; [exact C|]. intros y Hy. apply Hm. now right.
  - rewrite !for_each_entry_cons.
    destruct (handle_event_outcome W x messages w)
      as [[E _]|[(err & E)|(m & E & _ & _)]]; rewrite E.
    + apply IH; [exact C|]. intros y Hy. apply Hm. now right.
    + reflexivity.
    + apply IH.
      * cbn [with_cache cog set_tnx_cache RocketPool.tnx_cache]. now rewrite in_cache_app, C.
      * intros y Hy. apply Hm. now right.
Qed.

Lemma filter_rev_comm {A} (f : A -> bool) l : filter f (rev l) = rev (filter f l).
Proof.
  induction l as [|x l IH]; [reflexivity|].
  cbn [rev filter]. rewrite filter_app, IH. cbn [filter].
  destruct (f x); cbn [rev]; [reflexivity | now rewrite app_nil_r].
Qed.

Lemma newest_occurrence_wins l1 e l2 messages w name :
  display_name (cog w) e = Some name ->
  (forall x, In x l1 -> has_hash (Event.transactionHash e) x = true ->
             PyDict.mem (Event.address x) (RocketPool.mapping (cog w)) = true) ->
  for_each_entry W (rev (l1 ++ e :: l2)) messages w =
    for_each_entry W
      (rev (filter (fun x => negb (has_hash (Event.transactionHash e) x)) l1 ++ e :: l2))
      messages w.
Proof.
  intros D Hm.
  rewrite !rev_app_distr. cbn [rev]. rewrite <- !app_assoc. cbn [app].
  rewrite !(for_each_entry_app (rev l2)).
  destruct (for_each_entry_grows (rev l2) messages w) as (added & E2 & _).
  destruct (for_each_entry W (rev l2) messages w) as [[messages2|err] w2]; [|reflexivity].
  cbn [snd] in E2.
  rewrite !for_each_entry_cons.
  assert (D2 : display_name (cog w2) e = Some name) by (rewrite E2; exact D).
  assert (Hm2 : forall x, In x (rev l1) -> has_hash (Event.transactionHash e) x = true ->
                  PyDict.mem (Event.address x) (RocketPool.mapping (cog w2)) = true).
  { intros x Hx. rewrite E2. apply Hm. now apply in_rev. }
  rewrite <- filter_rev_comm.
  destruct (handle_event_outcome W e messages2 w2)
    as [[E [Hn|C]]|[(err & E)|(m & E & _ & _)]]; rewrite E.
  - congruence.
  - now apply for_each_entry_skip_seen.
  - reflexivity.
  - apply for_each_entry_skip_seen.
    + cbn [with_cache cog set_tnx_cache RocketPool.tnx_cache]. rewrite in_cache_app.
      cbn [in_cache existsb]. rewrite String.eqb_refl. now rewrite orb_true_r.
    + exact Hm2.
Qed.

Lemma newest_occurrence_recorded l1 e l2 messages w name emb messages2 w2 :
  display_name (cog w) e = Some name ->
  in_cache (Event.transactionHash e) (RocketPool.tnx_cache (cog w)) = false ->
  (forall x, In x l2 -> has_hash (Event.transactionHash e) x = false) ->
  create_embed W (cog w) name e = Ok emb ->
  for_each_entry W (rev l2) messages w = (Ok messages2, w2) ->
  for_each_entry W (rev (l1 ++ e :: l2)) messages w =
    for_each_entry W (rev l1)
      (messages2 ++ [ {| score := event_score e; embed := emb; event_name := name |} ])
      (with_cache (RocketPool.tnx_cache (cog w2) ++ [Event.transactionHash e]) w2).
Proof.
  intros D C H2 CE F2.
  rewrite rev_app_distr. cbn [rev]. rewrite <- app_assoc. cbn [app].
  rewrite for_each_entry_app, F2, for_each_entry_cons.
  destruct (for_each_entry_grows (rev l2) messages w) as (added & E2 & Hadd).
  rewrite F2 in E2. cbn [snd] in E2.
  rewrite (handle_event_recorded W e messages2 w2 name emb); [reflexivity | | |].
  - rewrite E2. exact D.
  - rewrite E2. cbn [with_cache cog set_tnx_cache RocketPool.tnx_cache].
    rewrite in_cache_app, C. cbn [orb].
    apply in_cache_false. intros Hin.
    destruct (Hadd _ Hin) as (ev & Hev & Hh).
    apply in_rev in Hev. specialize (H2 _ Hev).
    unfold has_hash in H2. apply String.eqb_neq in H2. contradiction.
  - rewrite E2. exact CE.
Qed.

End NewestFirst.

(** C7 (as amended).  Each filter's batch is handled in the reverse of
    the order in which the filter returned it.  Deduplication is by
    transaction hash: for a declared entry [e] of a batch, the entries that
    the filter returned before [e] with the hash of [e] have no effect (the
    run is the run on the batch without them); and when no entry returned
    after [e] carries its hash and the hash is not yet cached, [e] is the one
    recorded: its message and its hash are appended before any earlier entry
    is looked at. *)
Theorem C7_newest_first_within_batch :
  (forall W i f rest messages w,
     for_each_filter W i (f :: rest) messages w =
       match get_new_entries W i with
       | Ok entries =>
           match for_each_entry W (rev entries) messages w with
           | (Ok messages', w') => for_each_filter W (S i) rest messages' w'
           | (Raise err, w') => (Raise err, w')
           end
       | Raise err => (Raise err, w)
       end)
  /\
  (forall W l1 e l2 messages w name,
     display_name (cog w) e = Some name ->
     (forall x, In x l1 -> has_hash (Event.transactionHash e) x = true ->
                PyDict.mem (Event.address x) (RocketPool.mapping (cog w)) = true) ->
     for_each_entry W (rev (l1 ++ e :: l2)) messages w =
       for_each_entry W
         (rev (filter (fun x => negb (has_hash (Event.transactionHash e) x)) l1 ++ e :: l2))
         messages w)
  /\
  (forall W l1 e l2 messages w name emb messages2 w2,
     display_name (cog w) e = Some name ->
     in_cache (Event.transactionHash e) (RocketPool.tnx_cache (cog w)) = false ->
     (forall x, In x l2 -> has_hash (Event.transactionHash e) x = false) ->
     create_embed W (cog w) name e = Ok emb ->
     for_each_entry W (rev l2) messages w = (Ok messages2, w2) ->
     for_each_entry W (rev (l1 ++ e :: l2)) messages w =
       for_each_entry W (rev l1)
         (messages2 ++ [ {| score := event_score e; embed := emb; event_name := name |} ])
         (with_cache (RocketPool.tnx_cache (cog w2) ++ [Event.transactionHash e]) w2)).
Proof.
  split; [exact for_each_filter_cons|].
  split; [exact newest_occurrence_wins | exact newest_occurrence_recorded].
Qed.

(** C7, the claim as stated fails: the same deposit (same contract, event
    type and arguments) is returned twice by one filter, first as mined in
    transaction 0xaa and then, after a reorg, in transaction 0xbb.  The
    dedup check does not discard the older version: both embeds are sent and
    both hashes are cached. *)
Lemma C7_counterexample :
  let old_version := Fixture.deposit "0xaa" 100 2 E18 in
  let new_version := Fixture.deposit "0xbb" 101 0 E18 in
  let W := Fixture.env (Fixture.first_filter [old_version; new_version]) Fixture.send_ok in
  Event.address old_version = Event.address new_version /\
  Event.event old_version = Event.event new_version /\
  Event.args old_version = Event.args new_version /\
  trace (snd (check_for_new_events W Fixture.started)) =
    [ Send "DEFAULT_CHANNEL" (Fixture.deposit_embed "0xaa" 100 2 E18);
      Send "DEFAULT_CHANNEL" (Fixture.deposit_embed "0xbb" 101 0 E18) ] /\
  RocketPool.tnx_cache (cog (snd (check_for_new_events W Fixture.started))) = ["0xbb"; "0xaa"].
Proof. vm_compute. repeat split. Qed.

Lemma C7_witness :
  let old_version := Fixture.deposit "0xaa" 100 2 E18 in
  let new_version := Fixture.deposit "0xaa" 101 0 E18 in
  let W := Fixture.env (Fixture.first_filter [old_version; new_version]) Fixture.send_ok in
  display_name (cog Fixture.started) new_version = Some "pool_deposit_event" /\
  for_each_entry W (rev ([old_version] ++ new_version :: [])) [] Fixture.started =
    for_each_entry W (rev ([] ++ new_version :: [])) [] Fixture.started.
Proof.
  intros old_version new_version W. split; [reflexivity|].
  apply (proj1 (proj2 C7_newest_first_within_batch) W [old_version] new_version []
           [] Fixture.started "pool_deposit_event" eq_refl).
  intros x [<-|[]] _. reflexivity.
Defined.

(** ** Every declared entry of a completed poll is in the cache *)

Lemma for_each_entry_complete W : forall entries messages w messages' w',
  for_each_entry W entries messages w = (Ok messages', w') ->
  forall ev name,
    In ev entries -> display_name (cog w) ev = Some name ->
    in_cache (Event.transactionHash ev) (RocketPool.tnx_cache (cog w')) = true.
Proof.
  induction entries as [|event rest IH]; intros messages w messages' w' H ev name Hin D;
    [destruct Hin|].
  rewrite for_each_entry_cons in H.
  destruct (handle_event_outcome W event messages w)
    as [[E Hskip]|[(err & E)|(m & E & _ & _)]]; rewrite E in H; [| discriminate |].
  - destruct Hin as [<-|Hin]; [|exact (IH _ _ _ _ H ev name Hin D)].
    destruct Hskip as [Hnone|Hseen]; [congruence|].
    destruct (for_each_entry_grows W rest messages w) as (added & G & _).
    rewrite H in G. cbn [snd] in G. subst w'.
    cbn [with_cache cog set_tnx_cache RocketPool.tnx_cache].
    now rewrite in_cache_app, Hseen.
  - destruct Hin as [<-|Hin]; [|exact (IH _ _ _ _ H ev name Hin D)].
    destruct (for_each_entry_grows W rest (messages ++ [m])
                (with_cache (RocketPool.tnx_cache (cog w) ++ [Event.transactionHash event]) w))
      as (added & G & _).
    rewrite H in G. cbn [snd] in G. subst w'.
    cbn [with_cache cog set_tnx_cache RocketPool.tnx_cache].
    rewrite !in_cache_app. cbn [in_cache existsb]. rewrite String.eqb_refl.
    now rewrite !orb_true_r.
Qed.

Lemma for_each_filter_complete W : forall filters i messages w messages' w',
  for_each_filter W i filters messages w = (Ok messages', w') ->
  forall ev name,
    polled_in W i (List.length filters) ev -> display_name (cog w) ev = Some name ->
    in_cache (Event.transactionHash ev) (RocketPool.tnx_cache (cog w')) = true.
Proof.
  induction filters as [|f rest IH]; intros i messages w messages' w' H ev name P D.
  - destruct P as (j & _ & Hj & _). cbn [List.length] in Hj. lia.
  - rewrite for_each_filter_cons in H.
    destruct (get_new_entries W i) as [entries|err] eqn:G; [|discriminate].
    destruct (for_each_entry W (rev entries) messages w) as [[messages1|err] w1] eqn:FE;
      [|discriminate].
    destruct (for_each_entry_grows W (rev entries) messages w) as (added & Gr & _).
    rewrite FE in Gr. cbn [snd] in Gr.
    destruct P as (j & entries' & Hj & Hg & Hin). cbn [List.length] in Hj.
    destruct (Nat.eq_dec j i) as [->|Hne].
    + rewrite G in Hg. injection Hg as <-.
      pose proof (for_each_entry_complete W _ _ _ _ _ FE ev name
                    (proj1 (in_rev _ _) Hin) D) as C.
      destruct (for_each_filter_spec W rest (S i) messages1 w1)
        as (evs & ms & (_ & _ & _ & _ & E) & _).
      rewrite H in E. cbn [snd] in E. subst w'.
      cbn [with_cache cog set_tnx_cache RocketPool.tnx_cache].
      now rewrite in_cache_app, C.
    + apply (IH (S i) messages1 w1 messages' w' H ev name).
      * exists j, entries'. split; [lia|auto].
      * subst w1. exact D.
Qed.

Lemma Forall2_In_l {A B} (R : A -> B -> Prop) l1 l2 a :
  Forall2 R l1 l2 -> In a l1 -> exists b, In b l2 /\ R a b.
Proof.
  induction 1 as [|x y l1 l2 Hxy H IH]; simpl; [intros []|].
  intros [<-|Hin]; [eauto|].
  destruct (IH Hin) as (b & Hb & HR). eauto.
Qed.

(** A completed run leaves the last 1000 entries of the cache that the
    collection loops built. *)
Lemma check_for_new_events_ok W w :
  RocketPool.loaded (cog w) = true ->
  fst (check_for_new_events W w) = Ok tt ->
  exists ms w1,
    for_each_filter W 0 (RocketPool.events (cog w)) [] w = (Ok ms, w1) /\
    RocketPool.tnx_cache (cog (snd (check_for_new_events W w))) =
      last_n 1000 (RocketPool.tnx_cache (cog w1)).
Proof.
  intros L. rewrite check_for_new_events_unfold, L. cbn [negb].
  destruct (for_each_filter W 0 _ [] w) as [[ms|err] w1]; [|discriminate].
  destruct (fetch_channel W (getenv W "DEFAULT_CHANNEL")) as [d|err]; [|discriminate].
  destruct (fetch_channel W (getenv W "ODAO_CHANNEL")) as [o|err]; [|discriminate].
  pose proof (send_all_spec W d o (sorted_by_score ms) w1) as S.
  destruct (send_all W d o (sorted_by_score ms) w1) as [[[]|err] w2]; [|discriminate].
  intros _. exists ms, w1. split; [reflexivity|].
  cbn [snd] in *. subst w2. reflexivity.
Qed.

(** C3.  After every tick of [run_loop] the cache holds at most 1000
    hashes.  When the tick's [check_for_new_events] completes, the
    collection loops have extended the old cache by the hashes [appended]:
    distinct hashes that were not cached, each the hash of a polled,
    declared event, and with the old cache covering every polled, declared
    event.  The new cache is what remains of the old cache followed by
    [appended] after dropping entries from the front (the oldest), and
    nothing is dropped unless more than 1000 would remain.  On every other
    path (the cog was not loaded, or the check raised) the cache is
    empty. *)
Theorem C3_cache_bounded_fifo : forall W w,
  List.length (RocketPool.tnx_cache (cog (tick W w))) <= 1000 /\
  ((RocketPool.loaded (cog w) = true /\
    fst (check_for_new_events W w) = Ok tt /\
    exists ms appended dropped,
      for_each_filter W 0 (RocketPool.events (cog w)) [] w =
        (Ok ms, with_cache (RocketPool.tnx_cache (cog w) ++ appended) w) /\
      NoDup appended /\
      (forall h, In h appended ->
         in_cache h (RocketPool.tnx_cache (cog w)) = false /\
         exists ev name,
           polled W (cog w) ev /\ display_name (cog w) ev = Some name /\
           Event.transactionHash ev = h) /\
      (forall ev name,
         polled W (cog w) ev -> display_name (cog w) ev = Some name ->
         In (Event.transactionHash ev) (RocketPool.tnx_cache (cog w) ++ appended)) /\
      RocketPool.tnx_cache (cog w) ++ appended =
        dropped ++ RocketPool.tnx_cache (cog (tick W w)) /\
      List.length (RocketPool.tnx_cache (cog (tick W w))) =
        Nat.min 1000 (List.length (RocketPool.tnx_cache (cog w) ++ appended)))
   \/
   ((RocketPool.loaded (cog w) = false \/
     exists err, fst (check_for_new_events W w) = Raise err) /\
    RocketPool.tnx_cache (cog (tick W w)) = [])).
Proof.
  intros W w. unfold tick.
  destruct (RocketPool.loaded (cog w)) eqn:L.
  - destruct (fst (check_for_new_events W w)) as [[]|err] eqn:R.
    + rewrite (run_loop_loaded_ok W w L R). cbn [snd].
      destruct (check_for_new_events_ok W w L R) as (ms & w1 & F & C).
      destruct (for_each_filter_spec W (RocketPool.events (cog w)) 0 [] w)
        as (evs & ms' & (M & P & Fr & N & E) & _).
      rewrite F in E. cbn [snd] in E. subst w1.
      cbn [with_cache cog set_tnx_cache RocketPool.tnx_cache] in C. rewrite C.
      set (all := RocketPool.tnx_cache (cog w) ++ map Event.transactionHash evs).
      split; [apply last_n_length|]. left. split; [reflexivity|]. split; [reflexivity|].
      exists ms, (map Event.transactionHash evs), (firstn (List.length all - 1000) all).
      split; [exact F|]. split; [exact N|]. split; [|split; [|split]].
      * intros h Hh. apply in_map_iff in Hh as (ev & <- & Hev).
        rewrite Forall_forall in Fr, P. split; [apply Fr, Hev|].
        destruct (Forall2_In_l _ _ _ _ M Hev) as (m & _ & name & D & _).
        exists ev, name. split; [|split; [exact D | reflexivity]].
        destruct (P _ Hev) as (j & entries & Hj & Hg & Hin).
        exists j, entries. split; [lia|auto].
      * intros ev name (j & entries & Hj & Hg & Hin) D.
        apply in_cache_true.
        change all with (RocketPool.tnx_cache (cog (with_cache all w))).
        apply (for_each_filter_complete W _ 0 [] w ms _ F ev name); [|exact D].
        exists j, entries. split; [lia|auto].
      * symmetry. apply last_n_suffix.
      * apply last_n_exact_length.
    + rewrite (run_loop_loaded_raise W w err L R).
      rewrite (proj2 (reinitialize_cache W _)). cbn. split; [lia|].
      right. split; [right; eauto | reflexivity].
  - rewrite (run_loop_unloaded W w L), (proj2 (reinitialize_cache W _)).
    cbn. split; [lia|]. right. auto.
Qed.

(** ** Argument enrichment *)

Section Enrich.
Variable W : Env.

(** The [str()] of a float does not look like a hex string. *)
Hypothesis float_repr_not_hex : forall q, PyStr.startswith "0x" (float_repr W q) = false.

Variables (k : string).
Hypothesis scaled_key : PyStr.any_in ["amount"; "value"] (PyStr.lower k) = true.

Lemma not_scaled_neq k' :
  PyStr.any_in ["amount"; "value"] (PyStr.lower k') = false -> k <> k'.
Proof. intros H ->. congruence. Qed.

Lemma enrich_item_other args k2 v2 args2 :
  k2 <> k ->
  enrich_item W args (k2, v2) = Ok args2 ->
  PyDict.get k args2 = PyDict.get k args.
Proof.
  intros Hne. unfold enrich_item, rbind.
  destruct (PyStr.any_in ["amount"; "value"] (PyStr.lower k2)) eqn:K2.
  - destruct (div_e18 v2) as [scaled|] eqn:D; [|discriminate].
    assert (N : PyStr.startswith "0x" (py_str W v2) = false).
    { destruct v2; try discriminate; cbn [py_str].
      - apply str_int_no_0x.
      - destruct b; reflexivity.
      - apply float_repr_not_hex. }
    rewrite N. intros [= <-]. apply get_set_other. congruence.
  - destruct (PyStr.startswith "0x" (py_str W v2)).
    + destruct (if isAddress W v2 then ens_name W v2 else Ok (Some ""));
        [|discriminate].
      intros [= <-]. apply get_set_other.
      apply not_scaled_neq.
      destruct (PyStr.any_in ["amount"; "value"] (PyStr.lower (k2 ++ "_fancy"))) eqn:F;
        [|reflexivity].
      apply keyword_fancy in F. congruence.
    + now intros [= <-].
Qed.

Lemma enrich_item_self args v args2 :
  enrich_item W args (k, VInt v) = Ok args2 ->
  PyDict.get k args2 = Some (VFloat (true_div v E18)).
Proof.
  unfold enrich_item, rbind. rewrite scaled_key. cbn [div_e18 py_str].
  rewrite str_int_no_0x. intros [= <-]. apply get_set_same.
Qed.

Lemma enrich_items_others : forall items args args',
  ~ In k (map fst items) ->
  enrich_items W items args = Ok args' ->
  PyDict.get k args' = PyDict.get k args.
Proof.
  induction items as [|[k2 v2] rest IH]; intros args args' Hn; cbn [enrich_items].
  - now intros [= <-].
  - unfold rbind. destruct (enrich_item W args (k2, v2)) as [args1|] eqn:E; [|discriminate].
    intros R. cbn [map fst] in Hn.
    rewrite (IH args1 args') by (auto; intros ?; apply Hn; now right).
    eapply enrich_item_other; [|exact E]. intros ->. apply Hn. now left.
Qed.

Lemma enrich_items_scaled v : forall items args args',
  NoDup (map fst items) ->
  In (k, VInt v) items ->
  enrich_items W items args = Ok args' ->
  PyDict.get k args' = Some (VFloat (true_div v E18)).
Proof.
  induction items as [|[k2 v2] rest IH]; intros args args' Hnd Hin; [destruct Hin|].
  cbn [enrich_items]. unfold rbind.
  destruct (enrich_item W args (k2, v2)) as [args1|] eqn:E; [|discriminate].
  intros R. cbn [map fst] in Hnd. inversion Hnd as [|? ? Hnotin Hnd']; subst.
  destruct Hin as [[= -> ->]|Hin].
  - rewrite (enrich_items_others rest args1 args' Hnotin R).
    eapply enrich_item_self. exact E.
  - eapply IH; eassumption.
Qed.

End Enrich.

Lemma In_set {V} k v k0 v0 (d : dict V) :
  In (k, v) (PyDict.set k0 v0 d) -> (k = k0 /\ v = v0) \/ In (k, v) d.
Proof.
  induction d as [|[k1 v1] d IH]; cbn [PyDict.set].
  - intros [[= <- <-]|[]]. now left.
  - destruct (String.eqb k0 k1) eqn:E.
    + apply String.eqb_eq in E. subst k1.
      intros [[= <- <-]|H]; [now left | right; now right].
    + intros [H|H]; [right; now left|].
      destruct (IH H); [now left | right; now right].
Qed.

Lemma enrich_items_total W : forall items args,
  Forall (plain_item W) items ->
  exists args', enrich_items W items args = Ok args'.
Proof.
  induction items as [|[k v] rest IH]; intros args H; [eexists; reflexivity|].
  inversion H as [|? ? [Hk Ha] Hrest]; subst. cbn [fst snd] in *.
  cbn [enrich_items]. unfold rbind.
  assert (E : exists args1, enrich_item W args (k, v) = Ok args1).
  { unfold enrich_item, rbind.
    destruct (PyStr.any_in ["amount"; "value"] (PyStr.lower k)).
    - destruct (Hk eq_refl) as [n ->]. cbn [div_e18 py_str].
      rewrite str_int_no_0x. eauto.
    - destruct (PyStr.startswith "0x" (py_str W v)); [|eauto].
      destruct (isAddress W v); [|eauto].
      destruct (Ha eq_refl eq_refl) as [name ->]. eauto. }
  destruct E as [args1 ->]. apply IH, Hrest.
Qed.

(** C6.  For every key of the event's arguments whose lower-cased name
    contains "amount" or "value" and whose value is the integer [v], the
    argument dict that [create_embed] hands to the description template
    holds [v / 10 ** 18] under that key; for [v = 10 ** 18] this is 1.
    (The [str()] of a float is assumed not to start with "0x".)  The
    enrichment does return a dict for an event whose display name contains
    none of "minipool", "proposal", "odao", when the values under such keys
    are integers and ENS answers for the hex strings that are addresses. *)
Theorem C6_amounts_are_scaled :
  (forall W self event_name event k v embed args',
     (forall q, PyStr.startswith "0x" (float_repr W q) = false) ->
     PyStr.any_in ["amount"; "value"] (PyStr.lower k) = true ->
     PyDict.get k (PyDict.of_items (Event.args event)) = Some (VInt v) ->
     prepare_args W self event_name event = Ok (embed, args') ->
     PyDict.get k args' = Some (VFloat (true_div v E18)))
  /\
  (forall W self event_name event k embed args',
     (forall q, PyStr.startswith "0x" (float_repr W q) = false) ->
     PyStr.any_in ["amount"; "value"] (PyStr.lower k) = true ->
     PyDict.get k (PyDict.of_items (Event.args event)) = Some (VInt 1000000000000000000) ->
     prepare_args W self event_name event = Ok (embed, args') ->
     PyDict.get k args' = Some (VFloat 1))
  /\
  (forall W self event_name event,
     PyStr.contains "minipool" event_name = false ->
     PyStr.contains "proposal" event_name = false ->
     PyStr.contains "odao" event_name = false ->
     Forall (plain_item W) (PyDict.of_items (Event.args event)) ->
     exists embed args', prepare_args W self event_name event = Ok (embed, args')).
Proof.
  assert (A : forall W self event_name event k v embed args',
     (forall q, PyStr.startswith "0x" (float_repr W q) = false) ->
     PyStr.any_in ["amount"; "value"] (PyStr.lower k) = true ->
     PyDict.get k (PyDict.of_items (Event.args event)) = Some (VInt v) ->
     prepare_args W self event_name event = Ok (embed, args') ->
     PyDict.get k args' = Some (VFloat (true_div v E18))).
  { intros W self event_name event k v embed args' HF HK HG.
    assert (Set_ : forall k0 v0 (d : dict value),
               PyStr.any_in ["amount"; "value"] (PyStr.lower k0) = false ->
               PyDict.get k (PyDict.set k0 v0 d) = PyDict.get k d).
    { intros k0 v0 d H0. apply get_set_other. now apply not_scaled_neq. }
    unfold prepare_args, rbind.
    destruct (if PyStr.contains "minipool" event_name then _ else _) as [embed0|];
      [|discriminate].
    set (args0 := PyDict.of_items (Event.args event)) in *.
    destruct (if PyStr.contains "proposal" event_name then _ else _) as [args1|] eqn:E1;
      [|discriminate].
    assert (P1 : PyDict.get k args1 = Some (VInt v) /\ NoDup (PyDict.keys args1)).
    { destruct (PyStr.contains "proposal" event_name).
      - destruct (get_proposal_info W self event) as [[[message votesFor] votesAgainst]|];
          [|discriminate].
        injection E1 as <-. split.
        + rewrite !Set_ by reflexivity. exact HG.
        + apply NoDup_keys_set, NoDup_keys_set, NoDup_keys_of_items.
      - injection E1 as <-. split; [exact HG | apply NoDup_keys_of_items]. }
    clear E1. destruct P1 as [G1 N1].
    set (args2 := match PyDict.get "supported" args1 with
                  | Some supported =>
                      PyDict.set "decision"
                        (VStr (if truthy supported then "for" else "against")) args1
                  | None => args1
                  end).
    assert (P2 : PyDict.get k args2 = Some (VInt v) /\ NoDup (PyDict.keys args2)).
    { subst args2. destruct (PyDict.get "supported" args1).
      - split; [rewrite Set_ by reflexivity; exact G1 | now apply NoDup_keys_set].
      - now split. }
    destruct P2 as [G2 N2].
    destruct (enrich_items W (PyDict.items args2) args2) as [args3|] eqn:E3; [|discriminate].
    assert (G3 : PyDict.get k args3 = Some (VFloat (true_div v E18))).
    { eapply (enrich_items_scaled W HF k HK v); [exact N2 | | exact E3].
      apply get_In, G2. }
    destruct (PyStr.contains "odao" event_name).
    - destruct (filter _ odao_keys) as [|key rest].
      + now intros [= _ <-].
      + destruct (getitem key args3) as [member|]; [|discriminate].
        destruct (get_dao_member_name W self member) as [name|]; [|discriminate].
        destruct (negb (String.eqb name "")).
        * intros [= _ <-]. now rewrite Set_ by reflexivity.
        * destruct (getitem (key ++ "_fancy") args3) as [fancy|]; [|discriminate].
          intros [= _ <-]. now rewrite Set_ by reflexivity.
    - now intros [= _ <-]. }
  split; [exact A|]. split.
  - intros W self event_name event k embed args' HF HK HG HP.
    apply (A W self event_name event k _ embed args' HF HK HG HP).
  - intros W self event_name event NM NP NO HP.
    unfold prepare_args, rbind. rewrite NM, NP, NO.
    set (args0 := PyDict.of_items (Event.args event)) in *.
    set (args2 := match PyDict.get "supported" args0 with
                  | Some supported =>
                      PyDict.set "decision"
                        (VStr (if truthy supported then "for" else "against")) args0
                  | None => args0
                  end).
    assert (P2 : Forall (plain_item W) (PyDict.items args2)).
    { subst args2. unfold PyDict.items. destruct (PyDict.get "supported" args0); [|exact HP].
      apply Forall_forall. intros [k0 v0] Hin.
      apply In_set in Hin as [[-> ->]|Hin].
      - split; cbn [fst snd py_str]; [discriminate|].
        destruct (truthy v); discriminate.
      - rewrite Forall_forall in HP. now apply HP. }
    destruct (enrich_items_total W _ args2 P2) as [args3 ->]. eauto.
Qed.

Lemma C6_witness :
  let event := Fixture.deposit "0xaa" 100 2 1000000000000000000 in
  PyDict.get "amount" (PyDict.of_items (Event.args event)) = Some (VInt 1000000000000000000) /\
  (exists embed args',
     prepare_args Fixture.quiet (cog Fixture.started) "pool_deposit_event" event
       = Ok (embed, args') /\
     PyDict.get "amount" args' = Some (VFloat 1)).
Proof.
  intros event. split; [reflexivity|].
  destruct (prepare_args Fixture.quiet (cog Fixture.started) "pool_deposit_event" event)
    as [[embed args']|err] eqn:P; [|discriminate P].
  exists embed, args'. split; [reflexivity|].
  exact (proj1 (proj2 C6_amounts_are_scaled) Fixture.quiet (cog Fixture.started)
           "pool_deposit_event" event "amount" embed args'
           (fun q => eq_refl) eq_refl eq_refl P).
Defined.

(* ================================================================== *)
(** * Further properties of the cog *)

(** ** What a completed run delivers *)

(** X1.  When [check_for_new_events] completes on a loaded cog, the events
    it recorded were polled, carry pairwise distinct hashes that were not
    cached, each has its message, the embeds sent are exactly these
    messages, each once, in score order, and the cache is the old cache
    followed by the recorded hashes, cut to its last 1000 entries. *)
Theorem completed_run_delivers_each_recorded_event_once W w :
  RocketPool.loaded (cog w) = true ->
  fst (check_for_new_events W w) = Ok tt ->
  exists evs ms batch d o,
    Forall2 (message_of W (cog w)) evs ms /\
    Forall (polled W (cog w)) evs /\
    Forall (fun ev => in_cache (Event.transactionHash ev)
                        (RocketPool.tnx_cache (cog w)) = false) evs /\
    NoDup (map Event.transactionHash evs) /\
    Permutation ms batch /\
    StronglySorted score_le batch /\
    trace (snd (check_for_new_events W w)) = trace w ++ map (route d o) batch /\
    cog (snd (check_for_new_events W w)) =
      set_tnx_cache
        (last_n 1000 (RocketPool.tnx_cache (cog w) ++ map Event.transactionHash evs))
        (cog w).
Proof.
  intros L R.
  destruct (check_for_new_events_spec W w L)
    as (evs & ms & batch & d & o & k & M & P & Fr & N & _ & T & HOk & _).
  destruct (HOk R) as [B C].
  exists evs, ms, batch, d, o. repeat split; try assumption.
  - rewrite B. apply sorted_by_score_perm.
  - rewrite B. apply sorted_by_score_sorted.
Qed.

Lemma completed_run_witness :
  let W := Fixture.env
             (Fixture.first_filter [Fixture.deposit "0xbb" 100 5 E18; Fixture.deposit "0xaa" 100 2 E18])
             Fixture.send_ok in
  fst (check_for_new_events W Fixture.started) = Ok tt /\
  exists evs ms batch d o,
    Forall2 (message_of W (cog Fixture.started)) evs ms /\
    Forall (polled W (cog Fixture.started)) evs /\
    Forall (fun ev => in_cache (Event.transactionHash ev)
                        (RocketPool.tnx_cache (cog Fixture.started)) = false) evs /\
    NoDup (map Event.transactionHash evs) /\
    Permutation ms batch /\
    StronglySorted score_le batch /\
    trace (snd (check_for_new_events W Fixture.started)) =
      trace Fixture.started ++ map (route d o) batch /\
    cog (snd (check_for_new_events W Fixture.started)) =
      set_tnx_cache
        (last_n 1000 (RocketPool.tnx_cache (cog Fixture.started)
                        ++ map Event.transactionHash evs))
        (cog Fixture.started).
Proof.
  intros W. split; [reflexivity|].
  exact (completed_run_delivers_each_recorded_event_once W Fixture.started eq_refl eq_refl).
Defined.

(** ** The cache never holds a hash twice *)

Lemma NoDup_last_n {A} n (l : list A) : NoDup l -> NoDup (last_n n l).
Proof.
  intros H. rewrite <- (last_n_suffix n l) in H.
  now apply NoDup_app_remove_l in H.
Qed.

Lemma NoDup_cache_extended (c : list string) (evs : list Event.t) :
  NoDup c ->
  NoDup (map Event.transactionHash evs) ->
  Forall (fun ev => in_cache (Event.transactionHash ev) c = false) evs ->
  NoDup (c ++ map Event.transactionHash evs).
Proof.
  intros Hc He Hf. apply NoDup_app; [assumption | assumption |].
  intros h Hin1 Hin2. apply in_map_iff in Hin2 as (ev & <- & Hev).
  rewrite Forall_forall in Hf. specialize (Hf _ Hev).
  apply in_cache_false in Hf. contradiction.
Qed.

Lemma check_for_new_events_keeps_NoDup W w :
  NoDup (RocketPool.tnx_cache (cog w)) ->
  NoDup (RocketPool.tnx_cache (cog (snd (check_for_new_events W w)))).
Proof.
  intros H. destruct (RocketPool.loaded (cog w)) eqn:L.
  - destruct (check_for_new_events_spec W w L)
      as (evs & ms & batch & d & o & k & _ & _ & Fr & N & _ & _ & HOk & HErr).
    pose proof (NoDup_cache_extended _ evs H N Fr) as E.
    destruct (fst (check_for_new_events W w)) as [[]|err] eqn:R.
    + destruct (HOk eq_refl) as [_ ->]. cbn. now apply NoDup_last_n.
    + rewrite (HErr err eq_refl). exact E.
  - rewrite check_for_new_events_unfold, L. exact H.
Qed.

(** The cache after a tick: bounded, and duplicate-free when it was. *)
Lemma tick_cache_invariant W w :
  List.length (RocketPool.tnx_cache (cog (tick W w))) <= 1000 /\
  (NoDup (RocketPool.tnx_cache (cog w)) -> NoDup (RocketPool.tnx_cache (cog (tick W w)))).
Proof.
  unfold tick. destruct (RocketPool.loaded (cog w)) eqn:L.
  - destruct (fst (check_for_new_events W w)) as [[]|err] eqn:R.
    + rewrite (run_loop_loaded_ok W w L R). cbn [snd]. split.
      * destruct (check_for_new_events_spec W w L)
          as (evs & ms & batch & d & o & k & _ & _ & _ & _ & _ & _ & HOk & _).
        destruct (HOk R) as [_ ->]. apply last_n_length.
      * apply check_for_new_events_keeps_NoDup.
    + rewrite (run_loop_loaded_raise W w err L R).
      rewrite (proj2 (reinitialize_cache W _)). cbn. split; [lia | constructor].
  - rewrite (run_loop_unloaded W w L), (proj2 (reinitialize_cache W _)).
    cbn. split; [lia | constructor].
Qed.

(** X2.  In every state that a constructed cog reaches by any sequence of
    ticks, whatever the outside does, the cache holds at most 1000 hashes
    and no hash twice. *)
Theorem reachable_cache_is_bounded_and_duplicate_free W0 w0 :
  setup W0 = Ok w0 ->
  forall Ws,
    List.length (RocketPool.tnx_cache (cog (ticks Ws w0))) <= 1000 /\
    NoDup (RocketPool.tnx_cache (cog (ticks Ws w0))).
Proof.
  intros S.
  assert (I0 : List.length (RocketPool.tnx_cache (cog w0)) <= 1000 /\
               NoDup (RocketPool.tnx_cache (cog w0))).
  { rewrite (setup_cache W0 w0 S). cbn. split; [lia | constructor]. }
  clear S. intros Ws. revert w0 I0. induction Ws as [|W Ws IH]; intros w0 I0.
  - exact I0.
  - change (ticks (W :: Ws) w0) with (ticks Ws (tick W w0)).
    apply IH. destruct (tick_cache_invariant W w0) as [B N].
    split; [exact B | apply N, I0].
Qed.

Lemma reachable_cache_witness :
  let W1 := Fixture.env (Fixture.first_filter [Fixture.deposit "0xaa" 100 2 E18]) Fixture.send_ok in
  let W2 := Fixture.env Fixture.transport_error Fixture.send_ok in
  let W3 := Fixture.env (Fixture.first_filter [Fixture.deposit "0xaa" 101 0 E18;
                                               Fixture.deposit "0xbb" 101 1 E18])
                        Fixture.send_ok in
  setup Fixture.quiet = Ok Fixture.started /\
  List.length (RocketPool.tnx_cache (cog (ticks [W1; W2; W3] Fixture.started))) <= 1000 /\
  NoDup (RocketPool.tnx_cache (cog (ticks [W1; W2; W3] Fixture.started))).
Proof.
  intros W1 W2 W3. split; [reflexivity|].
  exact (reachable_cache_is_bounded_and_duplicate_free Fixture.quiet Fixture.started eq_refl
           [W1; W2; W3]).
Defined.

(** ** An embed that cannot be built *)

(** X3.  When one filter returns a batch in which some declared entry,
    whose hash is neither cached nor carried by an entry returned after it,
    has an embed that cannot be built, the run raises and sends nothing:
    also the entries whose embeds were built are not delivered. *)
Theorem failed_embed_aborts_the_run W w i0 l1 e l2 name err :
  RocketPool.loaded (cog w) = true ->
  i0 < List.length (RocketPool.events (cog w)) ->
  get_new_entries W i0 = Ok (l1 ++ e :: l2) ->
  (forall j, j < List.length (RocketPool.events (cog w)) -> j <> i0 ->
             get_new_entries W j = Ok []) ->
  display_name (cog w) e = Some name ->
  in_cache (Event.transactionHash e) (RocketPool.tnx_cache (cog w)) = false ->
  (forall x, In x l2 -> has_hash (Event.transactionHash e) x = false) ->
  create_embed W (cog w) name e = Raise err ->
  (exists err', fst (check_for_new_events W w) = Raise err') /\
  trace (snd (check_for_new_events W w)) = trace w.
Proof.
  intros L Hi G Q D C H2 CE.
  rewrite check_for_new_events_unfold, L. cbn [negb].
  rewrite (for_each_filter_single W _ 0 i0 _ [] w (conj (Nat.le_0_l _) Hi) G)
    by (intros j Hj; apply Q; lia).
  rewrite rev_app_distr. cbn [rev]. rewrite <- app_assoc. cbn [app].
  rewrite for_each_entry_app.
  destruct (for_each_entry_grows W (rev l2) [] w) as (added & E2 & Hadd).
  destruct (for_each_entry W (rev l2) [] w) as [[messages2|err2] w2]; cbn [snd] in E2.
  - rewrite for_each_entry_cons.
    assert (F : handle_event W e messages2 w2 = (Raise err, w2)).
    { rewrite (handle_event_fresh W e messages2 w2 name).
      - replace (create_embed W (cog w2) name e) with (create_embed W (cog w) name e)
          by (rewrite E2; reflexivity).
        now rewrite CE.
      - rewrite E2. exact D.
      - rewrite E2. cbn [with_cache cog set_tnx_cache RocketPool.tnx_cache].
        rewrite in_cache_app, C. cbn [orb].
        apply in_cache_false. intros Hin.
        destruct (Hadd _ Hin) as (ev & Hev & Hh).
        apply in_rev in Hev. specialize (H2 _ Hev).
        unfold has_hash in H2. apply String.eqb_neq in H2. contradiction. }
    rewrite F. cbn [fst snd]. split; [eauto | now rewrite E2].
  - cbn [fst snd]. split; [eauto | now rewrite E2].
Qed.

(** ** Entries that were all delivered before *)

Lemma for_each_entry_replayed W : forall entries messages w,
  Forall (fun ev => replayed (cog w) ev = true) entries ->
  for_each_entry W entries messages w = (Ok messages, w).
Proof.
  induction entries as [|x rest IH]; intros messages w H; [reflexivity|].
  inversion H as [|? ? Hx Hrest]; subst.
  unfold replayed in Hx. apply andb_true_iff in Hx as [C M].
  apply mem_get in M as (names & M).
  rewrite for_each_entry_cons, (handle_event_seen W x messages w names M C).
  apply IH, Hrest.
Qed.

Lemma for_each_filter_replayed W : forall filters i messages w,
  (forall j, i <= j < i + List.length filters ->
     exists entries, get_new_entries W j = Ok entries /\
                     Forall (fun ev => replayed (cog w) ev = true) entries) ->
  for_each_filter W i filters messages w = (Ok messages, w).
Proof.
  induction filters as [|f rest IH]; intros i messages w H; [reflexivity|].
  rewrite for_each_filter_cons.
  destruct (H i) as (entries & G & R); [cbn [List.length]; lia|].
  rewrite G, (for_each_entry_replayed W (rev entries) messages w).
  - apply IH. intros j Hj. apply H. cbn [List.length]. lia.
  - apply Forall_rev, R.
Qed.

(** X4.  A run in which every filter answers, and every entry returned
    carries a cached hash and comes from a contract of [self.mapping],
    changes nothing when the cache holds at most 1000 hashes: no send, same
    cache, same cog. *)
Theorem replayed_entries_change_nothing W w :
  (forall j, j < List.length (RocketPool.events (cog w)) ->
     exists entries, get_new_entries W j = Ok entries /\
                     Forall (fun ev => replayed (cog w) ev = true) entries) ->
  List.length (RocketPool.tnx_cache (cog w)) <= 1000 ->
  snd (check_for_new_events W w) = w.
Proof.
  intros H B. rewrite check_for_new_events_unfold.
  destruct (negb (RocketPool.loaded (cog w))); [reflexivity|].
  rewrite (for_each_filter_replayed W _ 0 [] w) by (intros j Hj; apply H; lia).
  destruct (fetch_channel W (getenv W "DEFAULT_CHANNEL")); [|reflexivity].
  destruct (fetch_channel W (getenv W "ODAO_CHANNEL")); [|reflexivity].
  cbn [sorted_by_score send_all ret snd].
  rewrite (last_n_short _ _ B). apply with_cache_same.
Qed.

(** ** A batch of new, declared, distinct entries *)

Lemma for_each_entry_all_new W : forall entries ms messages w,
  Forall2 (fun ev m => message_for W (cog w) ev = Some m) entries ms ->
  NoDup (map Event.transactionHash entries) ->
  Forall (fun ev => in_cache (Event.transactionHash ev)
                      (RocketPool.tnx_cache (cog w)) = false) entries ->
  for_each_entry W entries messages w =
    (Ok (messages ++ ms),
     with_cache (RocketPool.tnx_cache (cog w) ++ map Event.transactionHash entries) w).
Proof.
  induction entries as [|x rest IH]; intros ms messages w M N F.
  - inversion M; subst. cbn. rewrite !app_nil_r. now rewrite with_cache_same.
  - inversion M as [|? m ? ms' Hx Hrest]; subst.
    inversion N as [|? ? Hnotin N']; subst.
    inversion F as [|? ? Fx F']; subst.
    unfold message_for in Hx.
    destruct (display_name (cog w) x) as [name|] eqn:D; [|discriminate].
    destruct (create_embed W (cog w) name x) as [e|] eqn:CE; [|discriminate].
    injection Hx as <-.
    rewrite for_each_entry_cons, (handle_event_recorded W x messages w name e D Fx CE).
    rewrite (IH ms').
    + cbn [with_cache cog set_tnx_cache RocketPool.tnx_cache trace map].
      now rewrite <- !app_assoc.
    + exact Hrest.
    + exact N'.
    + cbn [with_cache cog set_tnx_cache RocketPool.tnx_cache].
      rewrite Forall_forall in F' |- *. intros ev Hev.
      rewrite in_cache_app, (F' _ Hev). cbn [orb in_cache existsb].
      rewrite orb_false_r. apply String.eqb_neq. intros Heq.
      apply Hnotin. rewrite <- Heq. now apply in_map.
Qed.

Lemma send_all_all_ok W d o : forall batch w,
  Forall (fun m => send W (channel_of d o m) (embed m) = Ok tt) batch ->
  send_all W d o batch w =
    (Ok tt, {| cog := cog w; trace := trace w ++ map (route d o) batch |}).
Proof.
  induction batch as [|m rest IH]; intros w H.
  - cbn. rewrite app_nil_r. now destruct w.
  - inversion H as [|? ? Hm Hrest]; subst.
    cbn [send_all]. unfold bind at 1 2. unfold emit, modify, lift.
    fold (channel_of d o m). rewrite Hm, (IH _ Hrest). cbn [cog trace map].
    now rewrite <- app_assoc.
Qed.

(** X5.  When one filter returns entries that are all declared, all have
    an embed, and carry pairwise distinct hashes none of which is cached,
    none is lost: with both channels available the run attempts the sends
    of the messages of all of them in score order, and when no send raises
    it completes with every hash cached (newest entry first). *)
Theorem new_entries_are_all_recorded W w i0 entries ms d o :
  RocketPool.loaded (cog w) = true ->
  i0 < List.length (RocketPool.events (cog w)) ->
  get_new_entries W i0 = Ok entries ->
  (forall j, j < List.length (RocketPool.events (cog w)) -> j <> i0 ->
             get_new_entries W j = Ok []) ->
  Forall2 (fun ev m => message_for W (cog w) ev = Some m) entries ms ->
  NoDup (map Event.transactionHash entries) ->
  Forall (fun ev => in_cache (Event.transactionHash ev)
                      (RocketPool.tnx_cache (cog w)) = false) entries ->
  fetch_channel W (getenv W "DEFAULT_CHANNEL") = Ok d ->
  fetch_channel W (getenv W "ODAO_CHANNEL") = Ok o ->
  trace (snd (check_for_new_events W w)) =
    trace w ++ map (route d o) (attempted W d o (sorted_by_score (rev ms))) /\
  (Forall (fun m => send W (channel_of d o m) (embed m) = Ok tt) ms ->
   check_for_new_events W w =
     (Ok tt,
      {| cog := set_tnx_cache
                  (last_n 1000 (RocketPool.tnx_cache (cog w)
                                  ++ rev (map Event.transactionHash entries)))
                  (cog w);
         trace := trace w ++ map (route d o) (sorted_by_score (rev ms)) |})).
Proof.
  intros L Hi G Q M N F FD FO.
  assert (E : for_each_filter W 0 (RocketPool.events (cog w)) [] w =
              (Ok (rev ms),
               with_cache (RocketPool.tnx_cache (cog w)
                             ++ rev (map Event.transactionHash entries)) w)).
  { rewrite (for_each_filter_single W _ 0 i0 _ [] w (conj (Nat.le_0_l _) Hi) G)
      by (intros j Hj; apply Q; lia).
    rewrite (for_each_entry_all_new W (rev entries) (rev ms) [] w).
    - now rewrite map_rev.
    - clear -M. induction M; cbn [rev]; [constructor|].
      apply Forall2_app; [assumption | now repeat constructor].
    - rewrite map_rev. apply NoDup_rev, N.
    - apply Forall_rev, F. }
  split.
  - now rewrite (check_for_new_events_trace W w _ _ d o L E FD FO).
  - intros S. rewrite check_for_new_events_unfold, L, E, FD, FO. cbn [negb].
    assert (S' : Forall (fun m => send W (channel_of d o m) (embed m) = Ok tt)
                        (sorted_by_score (rev ms))).
    { eapply Permutation_Forall; [apply sorted_by_score_perm|].
      apply Forall_rev, S. }
    rewrite (send_all_all_ok W d o _ _ S'). reflexivity.
Qed.

Lemma new_entries_witness :
  let entries := [Fixture.deposit "0xbb" 100 5 E18; Fixture.deposit "0xaa" 100 2 E18] in
  let W := Fixture.env (Fixture.first_filter entries) Fixture.send_ok in
  let m_bb := {| score := event_score (Fixture.deposit "0xbb" 100 5 E18);
                 embed := Fixture.deposit_embed "0xbb" 100 5 E18;
                 event_name := "pool_deposit_event" |} in
  let m_aa := {| score := event_score (Fixture.deposit "0xaa" 100 2 E18);
                 embed := Fixture.deposit_embed "0xaa" 100 2 E18;
                 event_name := "pool_deposit_event" |} in
  NoDup (map Event.transactionHash entries) /\
  check_for_new_events W Fixture.started =
    (Ok tt,
     {| cog := set_tnx_cache
                 (last_n 1000 (RocketPool.tnx_cache (cog Fixture.started)
                                 ++ rev (map Event.transactionHash entries)))
                 (cog Fixture.started);
        trace := trace Fixture.started
                 ++ map (route "DEFAULT_CHANNEL" "ODAO_CHANNEL")
                        (sorted_by_score (rev [m_bb; m_aa])) |}).
Proof.
  intros entries W m_bb m_aa.
  assert (N : NoDup (map Event.transactionHash entries)).
  { repeat constructor; cbn; intuition discriminate. }
  split; [exact N|].
  apply (proj2 (new_entries_are_all_recorded W Fixture.started 0 entries [m_bb; m_aa]
                  "DEFAULT_CHANNEL" "ODAO_CHANNEL" eq_refl
                  (Nat.lt_0_succ _) eq_refl
                  (fun j _ Hj => match j as n return n <> 0 -> Fixture.first_filter _ n = Ok []
                                 with O => fun H => False_ind _ (H eq_refl)
                                 | S _ => fun _ => eq_refl end Hj)
                  (Forall2_cons (R := fun ev m => message_for W (cog Fixture.started) ev = Some m)
                     (Fixture.deposit "0xbb" 100 5 E18) m_bb eq_refl
                     (Forall2_cons (R := fun ev m => message_for W (cog Fixture.started) ev = Some m)
                        (Fixture.deposit "0xaa" 100 2 E18) m_aa eq_refl (Forall2_nil _)))
                  N
                  (Forall_cons _ eq_refl (Forall_cons _ eq_refl (Forall_nil _)))
                  eq_refl eq_refl)).
  repeat constructor.
Defined.

Lemma failed_embed_witness :
  let bad := {| Event.address := "0xrocketDAONodeTrustedProposals";
                Event.event := "ProposalVoted";
                Event.args := [];
                Event.blockNumber := 100;
                Event.transactionIndex := 7;
                Event.transactionHash := "0xcc" |} in
  let W := Fixture.env (Fixture.first_filter [bad; Fixture.deposit "0xaa" 100 2 E18])
                       Fixture.send_ok in
  create_embed W (cog Fixture.started) "odao_proposal_vote_event" bad
    = Raise (KeyError "proposalID") /\
  (exists err', fst (check_for_new_events W Fixture.started) = Raise err') /\
  trace (snd (check_for_new_events W Fixture.started)) = trace Fixture.started.
Proof.
  intros bad W. split; [reflexivity|].
  apply (failed_embed_aborts_the_run W Fixture.started 0 [] bad
           [Fixture.deposit "0xaa" 100 2 E18] "odao_proposal_vote_event"
           (KeyError "proposalID") eq_refl (Nat.lt_0_succ _) eq_refl).
  - intros [|j] _ Hj; [contradiction Hj; reflexivity | reflexivity].
  - reflexivity.
  - reflexivity.
  - intros x [<-|[]]. reflexivity.
  - reflexivity.
Defined.

Lemma replayed_entries_witness :
  let W1 := Fixture.env (Fixture.first_filter [Fixture.deposit "0xaa" 100 2 E18]) Fixture.send_ok in
  let W2 := Fixture.env (Fixture.first_filter [Fixture.deposit "0xaa" 101 0 E18]) Fixture.send_ok in
  let w1 := tick W1 Fixture.started in
  RocketPool.tnx_cache (cog w1) = ["0xaa"] /\
  snd (check_for_new_events W2 w1) = w1.
Proof.
  intros W1 W2 w1. split; [reflexivity|].
  apply (replayed_entries_change_nothing W2 w1).
  - intros [|j] _.
    + eexists. split; [reflexivity|]. repeat constructor.
    + eexists. split; [reflexivity|]. constructor.
  - change (1 <= 1000). lia.
Defined.

(** ** The score as a sort key *)

(** X6.  For block numbers below [2^43 - 1] and transaction indices below
    1000 the score orders events as the pair (block number, transaction
    index) does.  The bound on the block number is needed: a binary64
    number has 53 significant bits, and in block [2^46] transaction
    indices 2 and 5 have the same score. *)
Theorem event_score_lexicographic :
  (forall e1 e2,
     (0 <= Event.blockNumber e1 < 2 ^ 43 - 1)%Z ->
     (0 <= Event.blockNumber e2 < 2 ^ 43 - 1)%Z ->
     (0 <= Event.transactionIndex e1 < 1000)%Z ->
     (0 <= Event.transactionIndex e2 < 1000)%Z ->
     ((event_score e1 < event_score e2)%Q <->
      (Event.blockNumber e1 < Event.blockNumber e2 \/
       (Event.blockNumber e1 = Event.blockNumber e2 /\
        Event.transactionIndex e1 < Event.transactionIndex e2))%Z))
  /\
  (forall e1 e2,
     Event.blockNumber e1 = (2 ^ 46)%Z -> Event.blockNumber e2 = (2 ^ 46)%Z ->
     Event.transactionIndex e1 = 2%Z -> Event.transactionIndex e2 = 5%Z ->
     event_score e1 = event_score e2).
Proof.
  split.
  - intros e1 e2 B1 B2 I1 I2. split.
    + intros Lt.
      destruct (Z.lt_trichotomy (Event.blockNumber e1) (Event.blockNumber e2))
        as [HB|[HB|HB]]; [now left | |].
      * destruct (Z.lt_trichotomy (Event.transactionIndex e1) (Event.transactionIndex e2))
          as [HI|[HI|HI]]; [now right | |].
        -- rewrite (event_score_same e1 e2 HB HI) in Lt. now apply Qlt_irrefl in Lt.
        -- assert (Gt : (event_score e2 < event_score e1)%Q)
             by (apply event_score_lex_lt; auto).
           destruct (Qlt_irrefl _ (Qlt_trans _ _ _ Lt Gt)).
      * assert (Gt : (event_score e2 < event_score e1)%Q)
          by (apply event_score_lex_lt; auto).
        destruct (Qlt_irrefl _ (Qlt_trans _ _ _ Lt Gt)).
    + now apply event_score_lex_lt.
  - intros e1 e2 B1 B2 I1 I2. unfold event_score. rewrite B1, B2, I1, I2.
    vm_compute. reflexivity.
Qed.

Lemma event_score_witness :
  let e1 := Fixture.deposit "0xaa" 100 999 E18 in
  let e2 := Fixture.deposit "0xbb" 101 0 E18 in
  (0 <= Event.blockNumber e1 < 2 ^ 43 - 1)%Z /\
  (0 <= Event.blockNumber e2 < 2 ^ 43 - 1)%Z /\
  (0 <= Event.transactionIndex e1 < 1000)%Z /\
  (0 <= Event.transactionIndex e2 < 1000)%Z /\
  (event_score e1 < event_score e2)%Q.
Proof.
  intros e1 e2.
  assert (B1 : (0 <= Event.blockNumber e1 < 2 ^ 43 - 1)%Z) by (cbn; lia).
  assert (B2 : (0 <= Event.blockNumber e2 < 2 ^ 43 - 1)%Z) by (cbn; lia).
  assert (H1 : (0 <= Event.transactionIndex e1 < 1000)%Z) by (cbn; lia).
  assert (H2 : (0 <= Event.transactionIndex e2 < 1000)%Z) by (cbn; lia).
  split; [exact B1|]. split; [exact B2|]. split; [exact H1|]. split; [exact H2|].
  apply (proj2 (proj1 event_score_lexicographic e1 e2 B1 B2 H1 H2)).
  left. cbn. lia.
Defined.

(** ** What the constructor builds *)

Lemma mem_set_same {V} k v (d : dict V) : PyDict.mem k (PyDict.set k v d) = true.
Proof. unfold PyDict.mem. now rewrite get_set_same. Qed.

Lemma mem_set_mono {V} k k' v (d : dict V) :
  PyDict.mem k d = true -> PyDict.mem k (PyDict.set k' v d) = true.
Proof.
  destruct (String.eqb k k') eqn:E.
  - apply String.eqb_eq in E. subst. intros _. apply mem_set_same.
  - apply String.eqb_neq in E. unfold PyDict.mem. now rewrite get_set_other.
Qed.

Section Constructor.
Variable W : Env.

Lemma create_filters_ok address c : forall event_types w w',
  create_filters W address c event_types w = (Ok tt, w') ->
  w' = {| cog := set_events
                   (RocketPool.events (cog w)
                      ++ map (fun event => {| filter_address := address;
                                              filter_event := event |}) event_types)
                   (cog w);
          trace := trace w |}.
Proof.
  induction event_types as [|event rest IH]; intros w w'.
  - cbn. intros [= <-]. rewrite app_nil_r. now destruct w as [[] ?].
  - cbn [create_filters]. unfold bind, lift, on_self, modify.
    destruct (createFilter W c event) as [[]|err]; [|discriminate].
    intros H. apply IH in H. rewrite H. cbn. now rewrite <- app_assoc.
Qed.

Lemma load_sources_ok : forall srcs w w',
  load_sources W srcs w = (Ok tt, w') ->
  RocketPool.storage_contract (cog w') = RocketPool.storage_contract (cog w) /\
  (forall a, PyDict.mem a (RocketPool.mapping (cog w)) = true ->
             PyDict.mem a (RocketPool.mapping (cog w')) = true) /\
  (forall a, PyDict.mem a (RocketPool.contracts (cog w)) = true ->
             PyDict.mem a (RocketPool.contracts (cog w')) = true) /\
  exists new,
    RocketPool.events (cog w') = RocketPool.events (cog w) ++ new /\
    Forall2 (filter_matches W (cog w)) new
            (flat_map (fun src => map (pair (fst src)) (PyDict.keys (snd src))) srcs) /\
    Forall (fun f => PyDict.mem (filter_address f) (RocketPool.mapping (cog w')) = true /\
                     PyDict.mem (filter_address f) (RocketPool.contracts (cog w')) = true)
           new.
Proof.
  induction srcs as [|[name events] rest IH]; intros w w'.
  - cbn. intros [= <-]. repeat split; auto.
    exists []. rewrite app_nil_r. repeat split; constructor.
  - cbn [load_sources]. unfold bind at 1. unfold self_.
    unfold bind at 1. unfold lift.
    destruct (get_address_from_storage_contract W (cog w) name) as [address|] eqn:GA;
      [|discriminate].
    unfold bind at 1.
    destruct (read_abi W _) as [abi|]; [|discriminate].
    unfold bind at 1. unfold on_self at 1. unfold modify.
    unfold bind at 1.
    set (c := {| contract_address := address; contract_abi := abi |}).
    set (w1 := {| cog := set_contracts _ (cog w); trace := trace w |}).
    destruct (create_filters W address c (PyDict.keys events) w1) as [[[]|] w2] eqn:CF;
      [|discriminate].
    apply create_filters_ok in CF.
    unfold bind at 1. unfold on_self, modify.
    set (w3 := {| cog := set_mapping _ (cog w2); trace := trace w2 |}).
    intros H. destruct (IH w3 w' H) as (SC & MM & MC & new & EV & FM & FK).
    subst w3 w2 w1. cbn in SC, MM, MC, EV.
    split; [exact SC|]. split; [|split].
    + intros a Ha. apply MM. now apply mem_set_mono.
    + intros a Ha. apply MC. now apply mem_set_mono.
    + exists (map (fun event => {| filter_address := address; filter_event := event |})
                  (PyDict.keys events) ++ new).
      split; [now rewrite EV, <- app_assoc|]. split.
      * cbn [flat_map fst snd]. apply Forall2_app; [|exact FM].
        clear -GA. induction (PyDict.keys events) as [|event l IHl]; cbn [map]; constructor.
        -- split; [exact GA | reflexivity].
        -- exact IHl.
      * apply Forall_app. split; [|exact FK].
        apply Forall_forall. intros f Hf. apply in_map_iff in Hf as (event & <- & _).
        cbn [filter_address]. split; [apply MM | apply MC]; apply mem_set_same.
Qed.

End Constructor.

(** X7.  A constructor that succeeds leaves one filter per configured
    (contract, event type) pair, in configuration order, each on the address
    that the storage contract gives for the contract's name; and the address
    of every filter is a key of [self.mapping] and of [self.contracts], so
    the loop body's lookup by the address of a filter never misses. *)
Theorem setup_builds_configured_filters W w0 c :
  setup W = Ok w0 ->
  load_config W = Ok c ->
  Forall2 (filter_matches W (cog w0)) (RocketPool.events (cog w0)) (configured_pairs c) /\
  Forall (fun f => PyDict.mem (filter_address f) (RocketPool.mapping (cog w0)) = true /\
                   PyDict.mem (filter_address f) (RocketPool.contracts (cog w0)) = true)
         (RocketPool.events (cog w0)).
Proof.
  unfold setup, __init__. unfold bind, lift, on_self, modify. cbn [cog trace].
  destruct (connect W) as [[]|]; [|discriminate].
  intros S LC. rewrite LC in S.
  destruct (read_abi W _) as [abi|]; [|discriminate].
  match type of S with
  | match load_sources W ?srcs ?w with _ => _ end = _ =>
      destruct (load_sources W srcs w) as [[[]|] w'] eqn:LS; [|discriminate];
      apply load_sources_ok in LS
  end.
  injection S as <-.
  destruct LS as (SC & _ & _ & new & EV & FM & FK).
  cbn [cog RocketPool.events set_storage_contract set_mapping set_events set_contracts
       set_tnx_cache set_loaded app] in EV.
  rewrite EV. split; [|exact FK].
  unfold configured_pairs, PyDict.items in *.
  eapply Forall2_impl; [|exact FM].
  intros f p [GA FE]. split; [|exact FE].
  unfold get_address_from_storage_contract in *. now rewrite SC.
Qed.

Lemma setup_filters_witness :
  setup Fixture.quiet = Ok Fixture.started /\
  load_config Fixture.quiet = Ok Fixture.cfg /\
  Forall2 (filter_matches Fixture.quiet (cog Fixture.started))
          (RocketPool.events (cog Fixture.started)) (configured_pairs Fixture.cfg) /\
  Forall (fun f =>
            PyDict.mem (filter_address f) (RocketPool.mapping (cog Fixture.started)) = true /\
            PyDict.mem (filter_address f) (RocketPool.contracts (cog Fixture.started)) = true)
         (RocketPool.events (cog Fixture.started)).
Proof.
  split; [reflexivity|]. split; [reflexivity|].
  exact (setup_builds_configured_filters Fixture.quiet Fixture.started Fixture.cfg
           eq_refl eq_refl).
Defined.

(** ** More on strings *)

Lemma endswith_app suffix : forall a, endswith suffix (a ++ suffix) = true.
Proof.
  induction a as [|c a IH].
  - cbn [append]. destruct suffix; cbn [endswith]; now rewrite String.eqb_refl.
  - cbn [append endswith]. rewrite IH. apply orb_true_r.
Qed.

Lemma list_ascii_of_string_app a b :
  list_ascii_of_string (a ++ b) = list_ascii_of_string a ++ list_ascii_of_string b.
Proof. induction a; cbn; congruence. Qed.

Lemma append_inv_tail a b s : (a ++ s = b ++ s)%string -> a = b.
Proof.
  intros H. apply (f_equal list_ascii_of_string) in H.
  rewrite !list_ascii_of_string_app in H. apply app_inv_tail in H.
  apply (f_equal string_of_list_ascii) in H.
  now rewrite !string_of_list_ascii_of_string in H.
Qed.

(** ** What the enrichment loop writes *)

Section Frame.
Variable W : Env.

(** One pass of the loop body writes at most [args[arg_key]], when the key
    is amount-like, and [args[arg_key + "_fancy"]], when the value is a hex
    string. *)
Lemma enrich_item_frame args k2 v2 args2 K :
  enrich_item W args (k2, v2) = Ok args2 ->
  (K = k2 -> PyStr.any_in ["amount"; "value"] (PyStr.lower k2) = false) ->
  (K = (k2 ++ "_fancy")%string -> PyStr.startswith "0x" (py_str W v2) = false) ->
  PyDict.get K args2 = PyDict.get K args.
Proof.
  intros E H1 H2. unfold enrich_item, rbind in E.
  assert (S1 : forall scaled,
             PyStr.any_in ["amount"; "value"] (PyStr.lower k2) = true ->
             PyDict.get K (PyDict.set k2 scaled args) = PyDict.get K args).
  { intros scaled Hk. apply get_set_other. intros ->.
    rewrite H1 in Hk by reflexivity. discriminate. }
  assert (S2 : forall link (d : dict value),
             PyStr.startswith "0x" (py_str W v2) = true ->
             PyDict.get K (PyDict.set (k2 ++ "_fancy") link d) = PyDict.get K d).
  { intros link d Hs. apply get_set_other. intros ->.
    rewrite H2 in Hs by reflexivity. discriminate. }
  destruct (PyStr.any_in ["amount"; "value"] (PyStr.lower k2)) eqn:Hk.
  - destruct (div_e18 v2) as [scaled|]; [|discriminate].
    destruct (PyStr.startswith "0x" (py_str W v2)) eqn:Hs.
    + destruct (if isAddress W v2 then ens_name W v2 else Ok (Some ""));
        [|discriminate].
      injection E as <-. now rewrite S2, S1.
    + injection E as <-. now rewrite S1.
  - destruct (PyStr.startswith "0x" (py_str W v2)) eqn:Hs.
    + destruct (if isAddress W v2 then ens_name W v2 else Ok (Some ""));
        [|discriminate].
      injection E as <-. now rewrite S2.
    + now injection E as <-.
Qed.

Lemma enrich_items_frame K : forall items args args',
  enrich_items W items args = Ok args' ->
  (forall k2 v2, In (k2, v2) items ->
     (K = k2 -> PyStr.any_in ["amount"; "value"] (PyStr.lower k2) = false) /\
     (K = (k2 ++ "_fancy")%string -> PyStr.startswith "0x" (py_str W v2) = false)) ->
  PyDict.get K args' = PyDict.get K args.
Proof.
  induction items as [|[k2 v2] rest IH]; intros args args' E H.
  - now injection E as <-.
  - cbn [enrich_items] in E. unfold rbind in E.
    destruct (enrich_item W args (k2, v2)) as [args1|] eqn:E1; [|discriminate].
    rewrite (IH args1 args' E) by (intros; apply H; now right).
    destruct (H k2 v2 (or_introl eq_refl)) as [H1 H2].
    exact (enrich_item_frame args k2 v2 args1 K E1 H1 H2).
Qed.

(** The loop never removes a key. *)
Lemma enrich_item_keeps_keys args item args2 K :
  enrich_item W args item = Ok args2 ->
  PyDict.mem K args = true -> PyDict.mem K args2 = true.
Proof.
  destruct item as [k2 v2]. unfold enrich_item, rbind. intros E M.
  destruct (PyStr.any_in ["amount"; "value"] (PyStr.lower k2)).
  - destruct (div_e18 v2) as [scaled|]; [|discriminate].
    destruct (PyStr.startswith "0x" (py_str W v2)).
    + destruct (if isAddress W v2 then ens_name W v2 else Ok (Some ""));
        [|discriminate].
      injection E as <-. now apply mem_set_mono, mem_set_mono.
    + injection E as <-. now apply mem_set_mono.
  - destruct (PyStr.startswith "0x" (py_str W v2)).
    + destruct (if isAddress W v2 then ens_name W v2 else Ok (Some ""));
        [|discriminate].
      injection E as <-. now apply mem_set_mono.
    + now injection E as <-.
Qed.

Lemma enrich_items_keeps_keys K : forall items args args',
  enrich_items W items args = Ok args' ->
  PyDict.mem K args = true -> PyDict.mem K args' = true.
Proof.
  induction items as [|item rest IH]; intros args args' E M.
  - now injection E as <-.
  - cbn [enrich_items] in E. unfold rbind in E.
    destruct (enrich_item W args item) as [args1|] eqn:E1; [|discriminate].
    eapply IH; [exact E|]. eapply enrich_item_keeps_keys; eassumption.
Qed.

(** The pass for a hex string leaves its link. *)
Lemma enrich_item_link args k v args2 :
  (forall q, PyStr.startswith "0x" (float_repr W q) = false) ->
  PyStr.startswith "0x" (py_str W v) = true ->
  enrich_item W args (k, v) = Ok args2 ->
  PyStr.any_in ["amount"; "value"] (PyStr.lower k) = false /\
  PyDict.get (k ++ "_fancy") args2 = Some (VStr (etherscan_search W (link_name W v) v)).
Proof.
  intros HF Hs. unfold enrich_item, rbind. rewrite Hs.
  destruct (PyStr.any_in ["amount"; "value"] (PyStr.lower k)).
  - destruct v; cbn [div_e18 py_str] in *; try discriminate.
    + now rewrite str_int_no_0x in Hs.
    + destruct b; discriminate.
    + now rewrite HF in Hs.
  - unfold link_name.
    destruct (isAddress W v) eqn:IA.
    + destruct (ens_name W v) as [[name|]|] eqn:EN; [| |discriminate].
      * intros [= <-]. split; [reflexivity|]. cbn [bool_of_ostring].
        destruct (String.eqb name "") eqn:Ne; cbn [negb]; apply get_set_same.
      * intros [= <-]. split; [reflexivity|]. cbn. apply get_set_same.
    + intros [= <-]. split; [reflexivity|]. cbn. apply get_set_same.
Qed.

Lemma enrich_items_link k v : forall items args args',
  (forall q, PyStr.startswith "0x" (float_repr W q) = false) ->
  NoDup (map fst items) ->
  In (k, v) items ->
  PyStr.startswith "0x" (py_str W v) = true ->
  enrich_items W items args = Ok args' ->
  PyDict.get (k ++ "_fancy") args' = Some (VStr (etherscan_search W (link_name W v) v)).
Proof.
  induction items as [|[k2 v2] rest IH]; intros args args' HF Hnd Hin Hs E; [destruct Hin|].
  cbn [enrich_items] in E. unfold rbind in E.
  destruct (enrich_item W args (k2, v2)) as [args1|] eqn:E1; [|discriminate].
  cbn [map fst] in Hnd. inversion Hnd as [|? ? Hnotin Hnd']; subst.
  destruct Hin as [[= -> ->]|Hin].
  - destruct (enrich_item_link args k v args1 HF Hs E1) as (Hk & G).
    rewrite <- G.
    apply (enrich_items_frame (k ++ "_fancy") rest args1 args' E).
    intros k3 v3 Hin3. split.
    + intros <-.
      destruct (PyStr.any_in ["amount"; "value"] (PyStr.lower (k ++ "_fancy"))) eqn:F;
        [|reflexivity].
      apply keyword_fancy in F. congruence.
    + intros Heq. apply append_inv_tail in Heq. subst k3.
      exfalso. apply Hnotin. change k with (fst (k, v3)). now apply in_map.
  - eapply IH; eassumption.
Qed.

End Frame.

Lemma In_get {V} k v (d : dict V) :
  NoDup (PyDict.keys d) -> In (k, v) d -> PyDict.get k d = Some v.
Proof.
  induction d as [|[k1 v1] d IH]; intros Hnd Hin; [destruct Hin|].
  cbn [PyDict.keys map fst] in Hnd. inversion Hnd as [|? ? Hnotin Hnd']; subst.
  cbn [PyDict.get]. destruct Hin as [[= -> ->]|Hin].
  - now rewrite String.eqb_refl.
  - destruct (String.eqb k k1) eqn:E.
    + apply String.eqb_eq in E. subst k1. exfalso. apply Hnotin.
      change k with (fst (k, v)). now apply in_map.
    + now apply IH.
Qed.

(** ** The stages of [create_embed] *)

(** The argument dict before the loop: the event's arguments, then the
    proposal's message and vote graph, then the decision. *)
Lemma prepare_args_stages W self event_name event embed args' :
  prepare_args W self event_name event = Ok (embed, args') ->
  exists args1 args2 args3,
    (args1 = PyDict.of_items (Event.args event) \/
     exists message graph,
       args1 = PyDict.set "vote_graph" graph
                 (PyDict.set "message" message (PyDict.of_items (Event.args event)))) /\
    args2 = match PyDict.get "supported" args1 with
            | Some supported =>
                PyDict.set "decision"
                  (VStr (if truthy supported then "for" else "against")) args1
            | None => args1
            end /\
    enrich_items W (PyDict.items args2) args2 = Ok args3 /\
    (args' = args3 \/ exists fancy, args' = PyDict.set "member_fancy" fancy args3) /\
    Embed.title embed = "" /\ Embed.description embed = "" /\
    (Embed.fields embed = [] \/
     exists pubkey,
       PyStr.contains "minipool" event_name = true /\
       Embed.fields embed =
         [ {| field_name := "validator";
              field_value := "[" ++ short_hex W pubkey
                                 ++ "](https://prater.beaconcha.in/validator/"
                                 ++ py_str W pubkey ++ ")";
              field_inline := false |} ]).
Proof.
  unfold prepare_args, rbind.
  destruct (if PyStr.contains "minipool" event_name then _ else _) as [embed0|] eqn:E0;
    [|discriminate].
  destruct (if PyStr.contains "proposal" event_name then _ else _) as [args1|] eqn:E1;
    [|discriminate].
  match goal with
  | |- context [enrich_items W (PyDict.items ?a) ?a] => set (args2 := a)
  end.
  destruct (enrich_items W (PyDict.items args2) args2) as [args3|] eqn:E3; [|discriminate].
  intros H. exists args1, args2, args3.
  assert (A1 : args1 = PyDict.of_items (Event.args event) \/
               exists message graph,
                 args1 = PyDict.set "vote_graph" graph
                           (PyDict.set "message" message
                              (PyDict.of_items (Event.args event)))).
  { destruct (PyStr.contains "proposal" event_name).
    - destruct (get_proposal_info W self event) as [[[message votesFor] votesAgainst]|];
        [|discriminate].
      injection E1 as <-. right. eauto.
    - injection E1 as <-. now left. }
  assert (A4 : embed = embed0 /\
               (args' = args3 \/ exists fancy, args' = PyDict.set "member_fancy" fancy args3)).
  { destruct (PyStr.contains "odao" event_name).
    - destruct (filter _ odao_keys) as [|key rest].
      + injection H as <- <-. auto.
      + destruct (getitem key args3) as [member|]; [|discriminate].
        destruct (get_dao_member_name W self member) as [name|]; [|discriminate].
        destruct (negb (String.eqb name "")).
        * injection H as <- <-. eauto.
        * destruct (getitem (key ++ "_fancy") args3) as [fancy|]; [|discriminate].
          injection H as <- <-. eauto.
    - injection H as <- <-. auto. }
  destruct A4 as [-> A4].
  split; [exact A1|]. split; [reflexivity|]. split; [exact E3|]. split; [exact A4|].
  destruct (PyStr.contains "minipool" event_name).
  - destruct (get_pubkey_from_minipool W self event) as [pubkey|]; [|discriminate].
    injection E0 as <-. cbn. repeat split. right. eauto.
  - injection E0 as <-. cbn. auto.
Qed.


(** X9.  For an argument of the event whose value prints as a hex string
    (its key being none of [message], [vote_graph], [decision], [member]),
    the dict handed to the template holds under [key + "_fancy"] the
    markdown link to the explorer search for that value.  The link is
    labelled [link_name]: the ENS name when the value is an address for
    which the registry has a non-empty name, and the shortened hex in every
    other case. *)
Theorem hex_argument_gets_a_link W self event_name event k v embed args' :
  (forall q, PyStr.startswith "0x" (float_repr W q) = false) ->
  ~ In k ["message"; "vote_graph"; "decision"; "member"] ->
  PyDict.get k (PyDict.of_items (Event.args event)) = Some v ->
  PyStr.startswith "0x" (py_str W v) = true ->
  prepare_args W self event_name event = Ok (embed, args') ->
  PyDict.get (k ++ "_fancy") args' = Some (VStr (etherscan_search W (link_name W v) v)).
Proof.
  intros HF Hk HG Hs HP.
  destruct (prepare_args_stages W self event_name event embed args' HP)
    as (args1 & args2 & args3 & A1 & A2 & A3 & A4 & _).
  assert (K1 : k <> "message") by (intros ->; apply Hk; cbn; auto).
  assert (K2 : k <> "vote_graph") by (intros ->; apply Hk; cbn; auto).
  assert (K3 : k <> "decision") by (intros ->; apply Hk; cbn; auto).
  assert (K4 : k <> "member") by (intros ->; apply Hk; cbn; auto 6).
  assert (P1 : PyDict.get k args1 = Some v /\ NoDup (PyDict.keys args1)).
  { destruct A1 as [->|(message & graph & ->)].
    - split; [exact HG | apply NoDup_keys_of_items].
    - split; [now rewrite !get_set_other by assumption|].
      apply NoDup_keys_set, NoDup_keys_set, NoDup_keys_of_items. }
  destruct P1 as [G1 N1].
  assert (P2 : PyDict.get k args2 = Some v /\ NoDup (PyDict.keys args2)).
  { rewrite A2. destruct (PyDict.get "supported" args1).
    - split; [now rewrite get_set_other by assumption | now apply NoDup_keys_set].
    - now split. }
  destruct P2 as [G2 N2].
  pose proof (enrich_items_link W k v _ _ _ HF N2 (get_In _ _ _ G2) Hs A3) as G3.
  destruct A4 as [->|(fancy & ->)]; [exact G3|].
  rewrite get_set_other; [exact G3|].
  intros Heq. apply (append_inv_tail k "member" "_fancy") in Heq. contradiction.
Qed.

(** X10.  An event with an argument [from] whose value does not print as a
    hex string, and without an argument [from_fancy], cannot be rendered:
    when the enrichment and both templates succeed, [create_embed] raises
    [KeyError('from_fancy')]. *)
Theorem sender_without_link_raises W self event_name event v embed args' title description :
  PyDict.get "from" (PyDict.of_items (Event.args event)) = Some v ->
  PyStr.startswith "0x" (py_str W v) = false ->
  PyDict.mem "from_fancy" (PyDict.of_items (Event.args event)) = false ->
  prepare_args W self event_name event = Ok (embed, args') ->
  translate W ("rocketpool." ++ event_name ++ ".title") [] = Ok title ->
  translate W ("rocketpool." ++ event_name ++ ".description") args' = Ok description ->
  create_embed W self event_name event = Raise (KeyError "from_fancy").
Proof.
  intros HG Hs HM HP HT HD.
  destruct (prepare_args_stages W self event_name event embed args' HP)
    as (args1 & args2 & args3 & A1 & A2 & A3 & A4 & _).
  assert (M0 : PyDict.get "from_fancy" (PyDict.of_items (Event.args event)) = None).
  { unfold PyDict.mem in HM. now destruct (PyDict.get "from_fancy" _). }
  assert (P1 : PyDict.get "from" args1 = Some v /\ PyDict.get "from_fancy" args1 = None /\
               NoDup (PyDict.keys args1)).
  { destruct A1 as [->|(message & graph & ->)].
    - repeat split; auto using NoDup_keys_of_items.
    - rewrite !get_set_other by discriminate. repeat split; auto.
      apply NoDup_keys_set, NoDup_keys_set, NoDup_keys_of_items. }
  destruct P1 as (G1 & F1 & N1).
  assert (P2 : PyDict.get "from" args2 = Some v /\ PyDict.get "from_fancy" args2 = None /\
               NoDup (PyDict.keys args2)).
  { rewrite A2. destruct (PyDict.get "supported" args1).
    - rewrite !get_set_other by discriminate. repeat split; auto.
      now apply NoDup_keys_set.
    - auto. }
  destruct P2 as (G2 & F2 & N2).
  assert (F3 : PyDict.get "from_fancy" args3 = None).
  { rewrite <- F2. apply (enrich_items_frame W "from_fancy" _ _ _ A3).
    intros k2 v2 Hin. split.
    - now intros <-.
    - intros Heq. apply (append_inv_tail "from" k2 "_fancy") in Heq. subst k2.
      rewrite (In_get _ _ _ N2 Hin) in G2. injection G2 as ->. exact Hs. }
  assert (M3 : PyDict.mem "from" args3 = true).
  { apply (enrich_items_keeps_keys W "from" _ _ _ A3).
    unfold PyDict.mem. now rewrite G2. }
  assert (P4 : PyDict.get "from_fancy" args' = None /\ PyDict.mem "from" args' = true).
  { destruct A4 as [->|(fancy & ->)]; [auto|].
    rewrite get_set_other by discriminate. split; [exact F3 | now apply mem_set_mono]. }
  destruct P4 as [F4 M4].
  unfold create_embed, rbind. rewrite HP, HT, HD, M4.
  unfold getitem. now rewrite F4.
Qed.

(** X11.  Every embed that [create_embed] returns has the translated
    title and description of the event's display name and carries, in this
    order: the validator field (only for minipool events), the linked
    transaction hash, the sender (only when the arguments have [from]) and,
    last, the linked block number. *)
Theorem embed_fields_layout W self event_name event e :
  create_embed W self event_name event = Ok e ->
  exists args' validator sender,
    translate W ("rocketpool." ++ event_name ++ ".title") [] = Ok (Embed.title e) /\
    translate W ("rocketpool." ++ event_name ++ ".description") args'
      = Ok (Embed.description e) /\
    Embed.fields e =
      validator
      ++ [ {| field_name := "Transaction Hash";
              field_value := "[" ++ short_hex W (VStr (Event.transactionHash event))
                                 ++ "](https://goerli.etherscan.io/tx/"
                                 ++ Event.transactionHash event ++ ")";
              field_inline := true |} ]
      ++ sender
      ++ [ {| field_name := "Block Number";
              field_value := "[" ++ str_int (Event.blockNumber event)
                                 ++ "](https://goerli.etherscan.io/block/"
                                 ++ str_int (Event.blockNumber event) ++ ")";
              field_inline := true |} ] /\
    (validator = [] \/
     PyStr.contains "minipool" event_name = true /\
     exists value, validator = [ {| field_name := "validator"; field_value := value;
                                    field_inline := false |} ]) /\
    (PyDict.mem "from" args' = false /\ sender = [] \/
     exists fancy,
       PyDict.get "from_fancy" args' = Some fancy /\
       sender = [ {| field_name := "Sender Address"; field_value := py_str W fancy;
                     field_inline := true |} ]).
Proof.
  unfold create_embed, rbind.
  destruct (prepare_args W self event_name event) as [[embed args']|] eqn:HP; [|discriminate].
  destruct (prepare_args_stages W self event_name event embed args' HP)
    as (_ & _ & _ & _ & _ & _ & _ & _ & _ & HFld).
  destruct (translate W _ []) as [title|] eqn:HT; [|discriminate].
  destruct (translate W _ args') as [description|] eqn:HD; [|discriminate].
  assert (V : exists validator,
             Embed.fields embed = validator /\
             (validator = [] \/
              PyStr.contains "minipool" event_name = true /\
              exists value, validator = [ {| field_name := "validator"; field_value := value;
                                             field_inline := false |} ])).
  { destruct HFld as [->|(pubkey & HM & ->)]; eexists; split; try reflexivity; eauto. }
  destruct V as (validator & HV & HVc).
  destruct (PyDict.mem "from" args') eqn:MF.
  - unfold getitem. destruct (PyDict.get "from_fancy" args') as [fancy|] eqn:GF; [|discriminate].
    intros [= <-]. exists args', validator,
      [ {| field_name := "Sender Address"; field_value := py_str W fancy;
           field_inline := true |} ].
    cbn. rewrite HV, <- !app_assoc. repeat split; eauto.
  - intros [= <-]. exists args', validator, [].
    cbn. rewrite HV, <- !app_assoc. repeat split; eauto.
Qed.


Lemma hex_argument_witness :
  let event := Fixture.deposit "0xaa" 100 2 E18 in
  let sender := VStr "0x00000000219ab540356cBB839Cbe05303d7705Fa" in
  PyDict.get "from" (PyDict.of_items (Event.args event)) = Some sender /\
  isAddress Fixture.named sender = true /\
  ens_name Fixture.named sender = Ok (Some "depositcontract.eth") /\
  exists embed args',
    prepare_args Fixture.named (cog Fixture.started) "pool_deposit_event" event
      = Ok (embed, args') /\
    PyDict.get "from_fancy" args' =
      Some (VStr ("[depositcontract.eth](https://goerli.etherscan.io/search?q="
                  ++ "0x00000000219ab540356cBB839Cbe05303d7705Fa)")).
Proof.
  intros event sender. split; [reflexivity|]. split; [reflexivity|]. split; [reflexivity|].
  destruct (prepare_args Fixture.named (cog Fixture.started) "pool_deposit_event" event)
    as [[embed args']|err] eqn:P; [|discriminate P].
  exists embed, args'. split; [reflexivity|].
  exact (hex_argument_gets_a_link Fixture.named (cog Fixture.started)
           "pool_deposit_event" event "from" sender embed args'
           (fun q => eq_refl)
           (fun H => match H with
                     | or_introl E => eq_ind "message" (fun s => if String.eqb s "from" then False else True) I _ E
                     | or_intror (or_introl E) => eq_ind "vote_graph" (fun s => if String.eqb s "from" then False else True) I _ E
                     | or_intror (or_intror (or_introl E)) => eq_ind "decision" (fun s => if String.eqb s "from" then False else True) I _ E
                     | or_intror (or_intror (or_intror (or_introl E))) => eq_ind "member" (fun s => if String.eqb s "from" then False else True) I _ E
                     | or_intror (or_intror (or_intror (or_intror F))) => F
                     end)
           eq_refl eq_refl P).
Defined.

Lemma sender_without_link_witness :
  let event := Fixture.odd_sender "0xee" in
  PyDict.get "from" (PyDict.of_items (Event.args event)) = Some (VInt 5) /\
  create_embed Fixture.quiet (cog Fixture.started) "pool_deposit_event" event
    = Raise (KeyError "from_fancy").
Proof.
  intros event. split; [reflexivity|].
  destruct (prepare_args Fixture.quiet (cog Fixture.started) "pool_deposit_event" event)
    as [[embed args']|err] eqn:P; [|discriminate P].
  exact (sender_without_link_raises Fixture.quiet (cog Fixture.started)
           "pool_deposit_event" event (VInt 5) embed args'
           "rocketpool.pool_deposit_event.title" "rocketpool.pool_deposit_event.description"
           eq_refl eq_refl eq_refl P eq_refl eq_refl).
Defined.

Lemma embed_fields_witness :
  let event := Fixture.deposit "0xaa" 100 2 E18 in
  create_embed Fixture.quiet (cog Fixture.started) "pool_deposit_event" event
    = Ok (Fixture.deposit_embed "0xaa" 100 2 E18) /\
  List.length (Embed.fields (Fixture.deposit_embed "0xaa" 100 2 E18)) = 3 /\
  exists args' validator sender,
    translate Fixture.quiet ("rocketpool." ++ "pool_deposit_event" ++ ".title") []
      = Ok (Embed.title (Fixture.deposit_embed "0xaa" 100 2 E18)) /\
    translate Fixture.quiet ("rocketpool." ++ "pool_deposit_event" ++ ".description") args'
      = Ok (Embed.description (Fixture.deposit_embed "0xaa" 100 2 E18)) /\
    Embed.fields (Fixture.deposit_embed "0xaa" 100 2 E18) =
      validator
      ++ [ {| field_name := "Transaction Hash";
              field_value := "[" ++ short_hex Fixture.quiet (VStr (Event.transactionHash event))
                                 ++ "](https://goerli.etherscan.io/tx/"
                                 ++ Event.transactionHash event ++ ")";
              field_inline := true |} ]
      ++ sender
      ++ [ {| field_name := "Block Number";
              field_value := "[" ++ str_int (Event.blockNumber event)
                                 ++ "](https://goerli.etherscan.io/block/"
                                 ++ str_int (Event.blockNumber event) ++ ")";
              field_inline := true |} ] /\
    (validator = [] \/
     PyStr.contains "minipool" "pool_deposit_event" = true /\
     exists value, validator = [ {| field_name := "validator"; field_value := value;
                                    field_inline := false |} ]) /\
    (PyDict.mem "from" args' = false /\ sender = [] \/
     exists fancy,
       PyDict.get "from_fancy" args' = Some fancy /\
       sender = [ {| field_name := "Sender Address"; field_value := py_str Fixture.quiet fancy;
                     field_inline := true |} ]).
Proof.
  intros event. split; [reflexivity|]. split; [reflexivity|].
  exact (embed_fields_layout Fixture.quiet (cog Fixture.started) "pool_deposit_event" event
           (Fixture.deposit_embed "0xaa" 100 2 E18) eq_refl).
Defined.

(** ** Channels *)

(** X12.  The sends of a run go to the channels looked up in this run: a
    message whose display name contains "odao" to the channel of
    [ODAO_CHANNEL], every other message to the channel of
    [DEFAULT_CHANNEL].  When a channel lookup raises on a loaded cog, the
    run raises and nothing is sent. *)
Theorem sends_go_to_the_fetched_channels :
  (forall W w d o,
     fetch_channel W (getenv W "DEFAULT_CHANNEL") = Ok d ->
     fetch_channel W (getenv W "ODAO_CHANNEL") = Ok o ->
     exists batch,
       trace (snd (check_for_new_events W w)) = trace w ++ map (route d o) batch /\
       Forall (fun m => exists event, polled W (cog w) event /\
                                      message_of W (cog w) event m) batch)
  /\
  (forall W w err,
     RocketPool.loaded (cog w) = true ->
     fetch_channel W (getenv W "DEFAULT_CHANNEL") = Raise err \/
     fetch_channel W (getenv W "ODAO_CHANNEL") = Raise err ->
     (exists err', fst (check_for_new_events W w) = Raise err') /\
     trace (snd (check_for_new_events W w)) = trace w).
Proof.
  split.
  - intros W w d o FD FO.
    destruct (RocketPool.loaded (cog w)) eqn:L.
    + destruct (for_each_filter_spec W (RocketPool.events (cog w)) 0 [] w)
        as (evs & ms & (M & P & _ & _ & E) & F).
      destruct (for_each_filter W 0 (RocketPool.events (cog w)) [] w)
        as [[messages|err] w1] eqn:FF; cbn [fst snd] in *.
      * specialize (F _ eq_refl). cbn [app] in F. subst messages.
        exists (attempted W d o (sorted_by_score ms)). split.
        -- rewrite (check_for_new_events_trace W w _ _ d o L FF FD FO). now rewrite E.
        -- apply Forall_forall. intros m Hm.
           destruct (attempted_prefix W d o (sorted_by_score ms)) as [k K].
           rewrite K in Hm. apply In_firstn in Hm.
           apply (Permutation_in _ (Permutation_sym (sorted_by_score_perm ms))) in Hm.
           destruct (Forall2_In_r _ _ _ _ M Hm) as (ev & Hev & HR).
           rewrite Forall_forall in P. destruct (P _ Hev) as (j & entries & Hj & Hg & Hin).
           exists ev. split; [|exact HR]. exists j, entries. split; [lia | auto].
      * exists []. rewrite check_for_new_events_unfold, L, FF. cbn.
        rewrite E, app_nil_r. cbn. split; [reflexivity | constructor].
    + exists []. rewrite check_for_new_events_unfold, L. cbn.
      rewrite app_nil_r. split; [reflexivity | constructor].
  - intros W w err L H. rewrite check_for_new_events_unfold, L. cbn [negb].
    destruct (for_each_filter_spec W (RocketPool.events (cog w)) 0 [] w)
      as (evs & ms & (_ & _ & _ & _ & E) & _).
    destruct (for_each_filter W 0 (RocketPool.events (cog w)) [] w)
      as [[messages|err1] w1]; cbn [snd] in E; subst w1.
    + destruct (fetch_channel W (getenv W "DEFAULT_CHANNEL")) as [d|errd].
      * destruct H as [H|H]; [discriminate|]. rewrite H. cbn. eauto.
      * cbn. eauto.
    + cbn. eauto.
Qed.

Lemma fetched_channels_witness :
  let W := Fixture.env (Fixture.first_filter [Fixture.vote "0xdd" true;
                                              Fixture.deposit "0xaa" 100 2 E18])
                       Fixture.send_ok in
  fetch_channel W (getenv W "DEFAULT_CHANNEL") = Ok "DEFAULT_CHANNEL" /\
  fetch_channel W (getenv W "ODAO_CHANNEL") = Ok "ODAO_CHANNEL" /\
  exists batch,
    trace (snd (check_for_new_events W Fixture.started)) =
      trace Fixture.started ++ map (route "DEFAULT_CHANNEL" "ODAO_CHANNEL") batch /\
    Forall (fun m => exists event, polled W (cog Fixture.started) event /\
                                   message_of W (cog Fixture.started) event m) batch.
Proof.
  intros W. split; [reflexivity|]. split; [reflexivity|].
  exact (proj1 sends_go_to_the_fetched_channels W Fixture.started
           "DEFAULT_CHANNEL" "ODAO_CHANNEL" eq_refl eq_refl).
Defined.

(** ** Secondary lookups of [create_embed] *)

Section Lookups.
Variable W : Env.

(** [prepare_args], stage by stage, with what each branch looked up. *)
Lemma prepare_args_unfolded self event_name event embed args' :
  prepare_args W self event_name event = Ok (embed, args') ->
  exists args1 args2 args3,
    (if PyStr.contains "proposal" event_name
     then exists message votesFor votesAgainst,
            get_proposal_info W self event = Ok (message, votesFor, votesAgainst) /\
            args1 = PyDict.set "vote_graph" (VStr (barh W votesFor votesAgainst))
                      (PyDict.set "message" message (PyDict.of_items (Event.args event)))
     else args1 = PyDict.of_items (Event.args event)) /\
    args2 = match PyDict.get "supported" args1 with
            | Some supported =>
                PyDict.set "decision"
                  (VStr (if truthy supported then "for" else "against")) args1
            | None => args1
            end /\
    enrich_items W (PyDict.items args2) args2 = Ok args3 /\
    (if PyStr.contains "odao" event_name
     then match filter (fun key => PyDict.mem key args3) odao_keys with
          | key :: _ =>
              exists member id,
                PyDict.get key args3 = Some member /\
                get_dao_member_name W self member = Ok id /\
                if negb (String.eqb id "")
                then args' = PyDict.set "member_fancy"
                               (VStr (etherscan_search W id member)) args3
                else exists fancy,
                       PyDict.get (key ++ "_fancy") args3 = Some fancy /\
                       args' = PyDict.set "member_fancy" fancy args3
          | [] => args' = args3
          end
     else args' = args3) /\
    (if PyStr.contains "minipool" event_name
     then exists pubkey,
            get_pubkey_from_minipool W self event = Ok pubkey /\
            Embed.fields embed =
              [ {| field_name := "validator";
                   field_value := "[" ++ short_hex W pubkey
                                      ++ "](https://prater.beaconcha.in/validator/"
                                      ++ py_str W pubkey ++ ")";
                   field_inline := false |} ]
     else Embed.fields embed = []).
Proof.
  unfold prepare_args, rbind.
  destruct (if PyStr.contains "minipool" event_name then _ else _) as [embed0|] eqn:E0;
    [|discriminate].
  destruct (if PyStr.contains "proposal" event_name then _ else _) as [args1|] eqn:E1;
    [|discriminate].
  match goal with
  | |- context [enrich_items W (PyDict.items ?a) ?a] => set (args2 := a)
  end.
  destruct (enrich_items W (PyDict.items args2) args2) as [args3|] eqn:E3; [|discriminate].
  intros H. exists args1, args2, args3.
  split; [|split; [reflexivity|split; [exact E3|]]].
  - destruct (PyStr.contains "proposal" event_name).
    + destruct (get_proposal_info W self event) as [[[message votesFor] votesAgainst]|];
        [|discriminate].
      injection E1 as <-. eauto.
    + now injection E1 as <-.
  - assert (A4 : embed = embed0 /\
                 (if PyStr.contains "odao" event_name
                  then match filter (fun key => PyDict.mem key args3) odao_keys with
                       | key :: _ =>
                           exists member id,
                             PyDict.get key args3 = Some member /\
                             get_dao_member_name W self member = Ok id /\
                             if negb (String.eqb id "")
                             then args' = PyDict.set "member_fancy"
                                            (VStr (etherscan_search W id member)) args3
                             else exists fancy,
                                    PyDict.get (key ++ "_fancy") args3 = Some fancy /\
                                    args' = PyDict.set "member_fancy" fancy args3
                       | [] => args' = args3
                       end
                  else args' = args3)).
    { destruct (PyStr.contains "odao" event_name).
      - destruct (filter _ odao_keys) as [|key rest].
        + injection H as <- <-. auto.
        + unfold getitem in H.
          destruct (PyDict.get key args3) as [member|] eqn:GM; [|discriminate].
          destruct (get_dao_member_name W self member) as [id|] eqn:GN; [|discriminate].
          destruct (negb (String.eqb id "")) eqn:NE.
          * injection H as <- <-. split; [reflexivity|].
            exists member, id. rewrite NE. auto.
          * destruct (PyDict.get (key ++ "_fancy") args3) as [fancy|] eqn:GF;
              [|discriminate].
            injection H as <- <-. split; [reflexivity|].
            exists member, id. rewrite NE. eauto.
      - injection H as <- <-. auto. }
    destruct A4 as [-> A4]. split; [exact A4|].
    destruct (PyStr.contains "minipool" event_name).
    + destruct (get_pubkey_from_minipool W self event) as [pubkey|] eqn:GP; [|discriminate].
      injection E0 as <-. eauto.
    + now injection E0 as <-.
Qed.

End Lookups.

(** A key that is neither amount-like, nor a link key, nor one of the keys
    set before the loop keeps the value the event gave it, up to the end of
    the loop. *)
Lemma plain_key_through_stages W self event_name event args1 args2 args3 K :
  (if PyStr.contains "proposal" event_name
   then exists message votesFor votesAgainst,
          get_proposal_info W self event = Ok (message, votesFor, votesAgainst) /\
          args1 = PyDict.set "vote_graph" (VStr (barh W votesFor votesAgainst))
                    (PyDict.set "message" message (PyDict.of_items (Event.args event)))
   else args1 = PyDict.of_items (Event.args event)) ->
  args2 = match PyDict.get "supported" args1 with
          | Some supported =>
              PyDict.set "decision"
                (VStr (if truthy supported then "for" else "against")) args1
          | None => args1
          end ->
  enrich_items W (PyDict.items args2) args2 = Ok args3 ->
  PyStr.any_in ["amount"; "value"] (PyStr.lower K) = false ->
  endswith "_fancy" K = false ->
  ~ In K ["message"; "vote_graph"; "decision"] ->
  NoDup (PyDict.keys args2) /\
  PyDict.get K args2 = PyDict.get K (PyDict.of_items (Event.args event)) /\
  PyDict.get K args3 = PyDict.get K (PyDict.of_items (Event.args event)).
Proof.
  intros A1 A2 A3 HK HE HN.
  assert (K1 : K <> "message") by (intros ->; apply HN; cbn; auto).
  assert (K2 : K <> "vote_graph") by (intros ->; apply HN; cbn; auto).
  assert (K3 : K <> "decision") by (intros ->; apply HN; cbn; auto).
  assert (P1 : PyDict.get K args1 = PyDict.get K (PyDict.of_items (Event.args event)) /\
               NoDup (PyDict.keys args1)).
  { destruct (PyStr.contains "proposal" event_name).
    - destruct A1 as (message & vf & va & _ & ->).
      split; [now rewrite !get_set_other by assumption|].
      apply NoDup_keys_set, NoDup_keys_set, NoDup_keys_of_items.
    - subst args1. split; [reflexivity | apply NoDup_keys_of_items]. }
  destruct P1 as [G1 N1].
  assert (P2 : PyDict.get K args2 = PyDict.get K args1 /\ NoDup (PyDict.keys args2)).
  { rewrite A2. destruct (PyDict.get "supported" args1).
    - split; [now rewrite get_set_other by assumption | now apply NoDup_keys_set].
    - now split. }
  destruct P2 as [G2 N2].
  split; [exact N2|]. split; [now rewrite G2|].
  rewrite <- G1, <- G2.
  apply (enrich_items_frame W K _ _ _ A3).
  intros k2 v2 _. split.
  - now intros <-.
  - intros ->. now rewrite endswith_app in HE.
Qed.

(** X13.  For an event whose display name contains "proposal", the dict
    handed to the template holds the proposal's message as the contract of
    the event's address returns it for the event's [proposalID], and the bar
    graph of the votes for and against in whole tokens (the votes divided by
    10 ** 18, rounded down). *)
Theorem proposal_arguments W self event_name event embed args' :
  PyStr.contains "proposal" event_name = true ->
  prepare_args W self event_name event = Ok (embed, args') ->
  exists contract proposalID message votesFor votesAgainst,
    PyDict.get (Event.address event) (RocketPool.contracts self) = Some contract /\
    PyDict.get "proposalID" (Event.args event) = Some proposalID /\
    getMessage W contract proposalID = Ok message /\
    getVotesFor W contract proposalID = Ok votesFor /\
    getVotesAgainst W contract proposalID = Ok votesAgainst /\
    PyDict.get "message" args' = Some message /\
    PyDict.get "vote_graph" args' =
      Some (VStr (barh W (votesFor / E18) (votesAgainst / E18))).
Proof.
  intros HPr HP.
  destruct (prepare_args_unfolded W self event_name event embed args' HP)
    as (args1 & args2 & args3 & A1 & A2 & A3 & A4 & _).
  rewrite HPr in A1. destruct A1 as (message & vf & va & GI & ->).
  unfold get_proposal_info, rbind, getitem in GI.
  destruct (PyDict.get (Event.address event) (RocketPool.contracts self)) as [contract|];
    [|discriminate].
  destruct (PyDict.get "proposalID" (Event.args event)) as [proposalID|]; [|discriminate].
  destruct (getMessage W contract proposalID) as [message'|] eqn:GM; [|discriminate].
  destruct (getVotesFor W contract proposalID) as [votesFor|] eqn:GF; [|discriminate].
  destruct (getVotesAgainst W contract proposalID) as [votesAgainst|] eqn:GA; [|discriminate].
  injection GI as -> <- <-.
  exists contract, proposalID, message, votesFor, votesAgainst.
  repeat (split; [reflexivity || assumption|]).
  set (args1 := PyDict.set "vote_graph" _ _) in *.
  assert (G2 : forall K, K = "message" \/ K = "vote_graph" ->
                         PyDict.get K args2 = PyDict.get K args1).
  { intros K HK. rewrite A2. destruct (PyDict.get "supported" args1); [|reflexivity].
    apply get_set_other. destruct HK as [->| ->]; discriminate. }
  assert (G3 : forall K, K = "message" \/ K = "vote_graph" ->
                         PyDict.get K args3 = PyDict.get K args2).
  { intros K HK. apply (enrich_items_frame W K _ _ _ A3).
    intros k2 v2 _. split.
    - intros <-. destruct HK as [->| ->]; reflexivity.
    - intros Heq. pose proof (endswith_app "_fancy" k2) as En.
      rewrite <- Heq in En. destruct HK as [->| ->]; discriminate. }
  assert (G4 : forall K, K = "message" \/ K = "vote_graph" ->
                         PyDict.get K args' = PyDict.get K args3).
  { intros K HK. destruct (PyStr.contains "odao" event_name); [|now rewrite A4].
    destruct (filter _ odao_keys) as [|key rest]; [now rewrite A4|].
    destruct A4 as (member & id & _ & _ & A4).
    destruct (negb (String.eqb id "")).
    - rewrite A4. apply get_set_other. destruct HK as [->| ->]; discriminate.
    - destruct A4 as (fancy & _ & ->).
      apply get_set_other. destruct HK as [->| ->]; discriminate. }
  split.
  - rewrite G4, G3, G2 by auto. subst args1.
    rewrite get_set_other by discriminate. apply get_set_same.
  - rewrite G4, G3, G2 by auto. subst args1. apply get_set_same.
Qed.

(** X14.  An embed built for an event whose display name contains
    "minipool" starts with the validator field, linking the public key
    that the contract of the event's address returns for the event's
    [minipool] argument.  Without that contract in [self.contracts] the
    embed cannot be built ([KeyError] of the address), nor without the
    argument ([KeyError('minipool')]). *)
Theorem minipool_validator_field :
  (forall W self event_name event e,
     PyStr.contains "minipool" event_name = true ->
     create_embed W self event_name event = Ok e ->
     exists contract minipool pubkey rest,
       PyDict.get (Event.address event) (RocketPool.contracts self) = Some contract /\
       PyDict.get "minipool" (Event.args event) = Some minipool /\
       getMinipoolPubkey W contract minipool = Ok pubkey /\
       Embed.fields e =
         {| field_name := "validator";
            field_value := "[" ++ short_hex W pubkey
                               ++ "](https://prater.beaconcha.in/validator/"
                               ++ py_str W pubkey ++ ")";
            field_inline := false |} :: rest)
  /\
  (forall W self event_name event,
     PyStr.contains "minipool" event_name = true ->
     (PyDict.get (Event.address event) (RocketPool.contracts self) = None ->
      create_embed W self event_name event = Raise (KeyError (Event.address event))) /\
     (forall contract,
        PyDict.get (Event.address event) (RocketPool.contracts self) = Some contract ->
        PyDict.get "minipool" (Event.args event) = None ->
        create_embed W self event_name event = Raise (KeyError "minipool"))).
Proof.
  split.
  - intros W self event_name event e HM HC.
    unfold create_embed, rbind in HC.
    destruct (prepare_args W self event_name event) as [[embed args']|] eqn:HP;
      [|discriminate].
    destruct (prepare_args_unfolded W self event_name event embed args' HP)
      as (_ & _ & _ & _ & _ & _ & _ & HV).
    rewrite HM in HV. destruct HV as (pubkey & GP & HF).
    unfold get_pubkey_from_minipool, rbind, getitem in GP.
    destruct (PyDict.get (Event.address event) (RocketPool.contracts self)) as [contract|];
      [|discriminate].
    destruct (PyDict.get "minipool" (Event.args event)) as [minipool|]; [|discriminate].
    destruct (translate W _ []) as [title|]; [|discriminate].
    destruct (translate W _ args') as [description|]; [|discriminate].
    exists contract, minipool, pubkey.
    destruct (PyDict.mem "from" args').
    + destruct (getitem "from_fancy" args') as [fancy|]; [|discriminate].
      injection HC as <-. cbn. rewrite HF. cbn. eauto.
    + injection HC as <-. cbn. rewrite HF. cbn. eauto.
  - intros W self event_name event HM. split.
    + intros HN. unfold create_embed, prepare_args, rbind. rewrite HM.
      unfold get_pubkey_from_minipool, rbind, getitem. now rewrite HN.
    + intros contract HS HN. unfold create_embed, prepare_args, rbind. rewrite HM.
      unfold get_pubkey_from_minipool, rbind, getitem. now rewrite HS, HN.
Qed.

(** X15.  For an event whose display name contains "odao", the member is
    the value of the first of [nodeAddress], [canceller], [executer],
    [proposer], [voter] among the event's arguments.  Its member id is asked
    of the contract that the storage contract names rocketDAONodeTrusted;
    [member_fancy] is the link labelled with that id, or, when the id is
    empty and the member prints as a hex string, the very link that the
    loop stored under the member's key + "_fancy": the one labelled
    [link_name], the member's ENS name if it has one. *)
Theorem odao_member_link W self event_name event embed args' key rest :
  (forall q, PyStr.startswith "0x" (float_repr W q) = false) ->
  PyStr.contains "odao" event_name = true ->
  filter (fun key => PyDict.mem key (PyDict.of_items (Event.args event))) odao_keys
    = key :: rest ->
  prepare_args W self event_name event = Ok (embed, args') ->
  exists member address abi id,
    PyDict.get key (PyDict.of_items (Event.args event)) = Some member /\
    getAddress W (RocketPool.storage_contract self) "rocketDAONodeTrusted" = Ok address /\
    read_abi W "./contracts/rocketDAONodeTrusted.abi" = Ok abi /\
    getMemberID W {| contract_address := address; contract_abi := abi |} member = Ok id /\
    (id <> "" ->
     PyDict.get "member_fancy" args' = Some (VStr (etherscan_search W id member))) /\
    (id = "" -> PyStr.startswith "0x" (py_str W member) = true ->
     PyDict.get "member_fancy" args' = PyDict.get (key ++ "_fancy") args' /\
     PyDict.get "member_fancy" args' =
       Some (VStr (etherscan_search W (link_name W member) member))).
Proof.
  intros HF HO HK HP.
  assert (Plain : forall K, In K odao_keys ->
            PyStr.any_in ["amount"; "value"] (PyStr.lower K) = false /\
            endswith "_fancy" K = false /\
            ~ In K ["message"; "vote_graph"; "decision"]).
  { intros K HIn. cbn in HIn.
    destruct HIn as [<-|[<-|[<-|[<-|[<-|[]]]]]];
      (split; [reflexivity|split; [reflexivity|]]); cbn; intuition discriminate. }
  destruct (prepare_args_unfolded W self event_name event embed args' HP)
    as (args1 & args2 & args3 & A1 & A2 & A3 & A4 & _).
  assert (Same : forall K, In K odao_keys ->
            PyDict.get K args2 = PyDict.get K (PyDict.of_items (Event.args event)) /\
            PyDict.get K args3 = PyDict.get K (PyDict.of_items (Event.args event))).
  { intros K HIn. destruct (Plain K HIn) as (P1 & P2 & P3).
    now destruct (plain_key_through_stages W self event_name event args1 args2 args3 K
                    A1 A2 A3 P1 P2 P3) as (_ & G2 & G3). }
  assert (N2 : NoDup (PyDict.keys args2)).
  { destruct (Plain "voter") as (P1 & P2 & P3); [cbn; auto 6|].
    now destruct (plain_key_through_stages W self event_name event args1 args2 args3 "voter"
                    A1 A2 A3 P1 P2 P3) as (N2 & _). }
  assert (Flt : filter (fun key => PyDict.mem key args3) odao_keys = key :: rest).
  { rewrite <- HK. apply filter_ext_in. intros K HIn.
    unfold PyDict.mem. now rewrite (proj2 (Same K HIn)). }
  rewrite HO, Flt in A4. destruct A4 as (member & id & GM & GN & A4).
  assert (KIn : In key odao_keys).
  { assert (H : In key (key :: rest)) by now left.
    rewrite <- HK in H. now apply filter_In in H. }
  destruct (Same key KIn) as [S2 S3].
  unfold get_dao_member_name, get_address_from_storage_contract, rbind in GN.
  destruct (getAddress W (RocketPool.storage_contract self) "rocketDAONodeTrusted")
    as [address|] eqn:GA; [|discriminate].
  destruct (read_abi W "./contracts/rocketDAONodeTrusted.abi") as [abi|] eqn:RA;
    [|discriminate].
  exists member, address, abi, id.
  split; [now rewrite <- S3|]. split; [reflexivity|]. split; [reflexivity|].
  split; [exact GN|]. split.
  - intros Hne. apply String.eqb_neq in Hne. rewrite Hne in A4. cbn [negb] in A4.
    rewrite A4. apply get_set_same.
  - intros -> Hs. cbn in A4. destruct A4 as (fancy & GF & ->).
    rewrite get_set_same.
    assert (Hin : In (key, member) args2).
    { apply get_In. rewrite S2, <- S3. exact GM. }
    pose proof (enrich_items_link W key member _ _ _ HF N2 Hin Hs A3) as G.
    rewrite G in GF. injection GF as <-. split; [|reflexivity].
    rewrite get_set_other; [now rewrite G|].
    intros Heq. apply (append_inv_tail key "member" "_fancy") in Heq. subst key.
    cbn in KIn. intuition discriminate.
Qed.

Lemma proposal_arguments_witness :
  let event := Fixture.vote "0xdd" true in
  PyStr.contains "proposal" "odao_proposal_vote_event" = true /\
  exists embed args' contract proposalID message votesFor votesAgainst,
    prepare_args Fixture.quiet (cog Fixture.started) "odao_proposal_vote_event" event
      = Ok (embed, args') /\
    PyDict.get (Event.address event) (RocketPool.contracts (cog Fixture.started))
      = Some contract /\
    PyDict.get "proposalID" (Event.args event) = Some proposalID /\
    getMessage Fixture.quiet contract proposalID = Ok message /\
    getVotesFor Fixture.quiet contract proposalID = Ok votesFor /\
    getVotesAgainst Fixture.quiet contract proposalID = Ok votesAgainst /\
    PyDict.get "message" args' = Some message /\
    PyDict.get "vote_graph" args' =
      Some (VStr (barh Fixture.quiet (votesFor / E18) (votesAgainst / E18))).
Proof.
  intros event. split; [reflexivity|].
  destruct (prepare_args Fixture.quiet (cog Fixture.started) "odao_proposal_vote_event" event)
    as [[embed args']|err] eqn:P; [|discriminate P].
  destruct (proposal_arguments Fixture.quiet (cog Fixture.started)
              "odao_proposal_vote_event" event embed args' eq_refl P)
    as (contract & proposalID & message & vf & va & H).
  exists embed, args', contract, proposalID, message, vf, va.
  split; [reflexivity | exact H].
Defined.

Lemma minipool_witness :
  let event := {| Event.address := "0xrocketDepositPool";
                  Event.event := "DepositReceived";
                  Event.args := [ ("minipool", VStr "0xminipool") ];
                  Event.blockNumber := 100;
                  Event.transactionIndex := 0;
                  Event.transactionHash := "0xff" |} in
  PyStr.contains "minipool" "minipool_deposit_event" = true /\
  exists e contract minipool pubkey rest,
    create_embed Fixture.quiet (cog Fixture.started) "minipool_deposit_event" event = Ok e /\
    PyDict.get (Event.address event) (RocketPool.contracts (cog Fixture.started))
      = Some contract /\
    PyDict.get "minipool" (Event.args event) = Some minipool /\
    getMinipoolPubkey Fixture.quiet contract minipool = Ok pubkey /\
    Embed.fields e =
      {| field_name := "validator";
         field_value := "[" ++ short_hex Fixture.quiet pubkey
                            ++ "](https://prater.beaconcha.in/validator/"
                            ++ py_str Fixture.quiet pubkey ++ ")";
         field_inline := false |} :: rest.
Proof.
  intros event. split; [reflexivity|].
  destruct (create_embed Fixture.quiet (cog Fixture.started) "minipool_deposit_event" event)
    as [e|err] eqn:C; [|discriminate C].
  destruct (proj1 minipool_validator_field Fixture.quiet (cog Fixture.started)
              "minipool_deposit_event" event e eq_refl C)
    as (contract & minipool & pubkey & rest & H).
  exists e, contract, minipool, pubkey, rest. split; [reflexivity | exact H].
Defined.

Lemma odao_member_witness :
  let event := Fixture.vote "0xdd" true in
  let member := VStr "0x2354628919e1D53D2a69cF700Cc53C4093977B94" in
  filter (fun key => PyDict.mem key (PyDict.of_items (Event.args event))) odao_keys
    = ["voter"] /\
  exists embed args' address abi,
    prepare_args Fixture.named (cog Fixture.started) "odao_proposal_vote_event" event
      = Ok (embed, args') /\
    PyDict.get "voter" (PyDict.of_items (Event.args event)) = Some member /\
    getAddress Fixture.named (RocketPool.storage_contract (cog Fixture.started))
      "rocketDAONodeTrusted" = Ok address /\
    read_abi Fixture.named "./contracts/rocketDAONodeTrusted.abi" = Ok abi /\
    getMemberID Fixture.named {| contract_address := address; contract_abi := abi |} member
      = Ok "" /\
    PyDict.get "member_fancy" args' = PyDict.get "voter_fancy" args' /\
    PyDict.get "member_fancy" args' =
      Some (VStr ("[voter.eth](https://goerli.etherscan.io/search?q="
                  ++ "0x2354628919e1D53D2a69cF700Cc53C4093977B94)")).
Proof.
  intros event member. split; [reflexivity|].
  destruct (prepare_args Fixture.named (cog Fixture.started) "odao_proposal_vote_event" event)
    as [[embed args']|err] eqn:P; [|discriminate P].
  destruct (odao_member_link Fixture.named (cog Fixture.started)
              "odao_proposal_vote_event" event embed args' "voter" []
              (fun q => eq_refl) eq_refl eq_refl P)
    as (member' & address & abi & id & GM & GA & RA & GI & _ & Fallback).
  injection GM as <-. injection GA as <-. injection RA as <-. injection GI as <-.
  exists embed, args', "0xrocketDAONodeTrusted", "[]".
  split; [reflexivity|]. split; [reflexivity|]. split; [reflexivity|].
  split; [reflexivity|]. split; [reflexivity|].
  exact (Fallback eq_refl eq_refl).
Defined.
